(** * hcaas API gateway: request pipeline, rate limiter, reverse proxy

    A shallow embedding of the gateway of [services/gateway] (Go) and the
    properties its specification states about it.

    Conventions of the embedding.
    - A Go [string] or [[]byte] is a [string] (a sequence of 8-bit
      characters).  Header names are HTTP tokens, hence ASCII; on ASCII
      text Go's [strings.ToLower] maps ['A'..'Z'] to ['a'..'z'] and leaves
      every other byte alone, which is what [ToLower] does here.
    - A Go [int] or [time.Duration] is a [Z]; where the source computes
      with it, the 64-bit wrap-around is written out ([wrap64]).
    - [http.Header] ([map[string][]string]) is a [gmap string (list string)].
    - A Go [error] is an [error] value whose text is [Error e].
    - Code that reads the clock, calls the upstream, sleeps, logs or records
      a metric is a computation in the state monad [M] over [World]. *)

From Stdlib Require Import ZArith Ascii String DecimalString Lia.
From stdpp Require Import base option list strings gmap fin_maps.

Local Open Scope Z_scope.

(* ===================================================================== *)
(** * Go strings *)
(* ===================================================================== *)

Module Strings.

(** ['A' <= c && c <= 'Z'] *)
Definition is_upper (c : ascii) : bool :=
  let n := N_of_ascii c in ((65 <=? n) && (n <=? 90))%N.

Definition lower_byte (c : ascii) : ascii :=
  if is_upper c then ascii_of_N (N_of_ascii c + 32) else c.

(** [strings.ToLower] *)
Fixpoint ToLower (s : string) : string :=
  match s with
  | EmptyString => EmptyString
  | String c s' => String (lower_byte c) (ToLower s')
  end.

(** [strings.HasPrefix] *)
Fixpoint HasPrefix (s prefix : string) : bool :=
  match prefix, s with
  | EmptyString, _ => true
  | String _ _, EmptyString => false
  | String p prefix', String c s' =>
      if Ascii.eqb p c then HasPrefix s' prefix' else false
  end.

(** [s[len(prefix):]], for a [prefix] no longer than [s] *)
Fixpoint skip (s prefix : string) : string :=
  match prefix, s with
  | String _ prefix', String _ s' => skip s' prefix'
  | _, _ => s
  end.

(** [strings.TrimPrefix] *)
Definition TrimPrefix (s prefix : string) : string :=
  if HasPrefix s prefix then skip s prefix else s.

(** [strings.Contains] *)
Fixpoint Contains (s substr : string) : bool :=
  HasPrefix s substr ||
  match s with
  | EmptyString => false
  | String _ s' => Contains s' substr
  end.

(** [strings.Cut]: the text before and after the first [sep], and
    whether [sep] occurs at all; [s], the empty string and [false] when it
    does not. *)
Fixpoint Cut (s sep : string) : string * string * bool :=
  if HasPrefix s sep then (EmptyString, skip s sep, true)
  else match s with
       | EmptyString => (EmptyString, EmptyString, false)
       | String c s' =>
           let '(before, after, found) := Cut s' sep in
           (String c before, after, found)
       end.

(** [strings.SplitN(s, sep, n)] for [n >= 0] and a non-empty [sep]:
    at most [n] pieces, the last one the unsplit remainder. *)
Fixpoint SplitN (s sep : string) (n : nat) : list string :=
  match n with
  | O => []
  | S O => [s]
  | S n' =>
      match Cut s sep with
      | (before, after, true) => before :: SplitN after sep n'
      | _ => [s]
      end
  end.

(** [strings.Split(s, sep)] for a non-empty [sep]: every piece.  A string
    of length [k] has at most [k + 1] pieces. *)
Definition Split (s sep : string) : list string :=
  SplitN s sep (S (String.length s)).

(** The ASCII white space of [unicode.IsSpace]. *)
Definition is_space (c : ascii) : bool :=
  let n := N_of_ascii c in (((9 <=? n) && (n <=? 13)) || (n =? 32))%N.

Fixpoint TrimLeft (s : string) : string :=
  match s with
  | EmptyString => EmptyString
  | String c s' => if is_space c then TrimLeft s' else s
  end.

(** [strings.TrimSpace] *)
Definition TrimSpace (s : string) : string :=
  String.rev (TrimLeft (String.rev (TrimLeft s))).

(** The double quote, and a text between double quotes. *)
Definition dquote : string := String (ascii_of_N 34) EmptyString.
Definition quoted (s : string) : string := dquote +:+ s +:+ dquote.

(** [strconv.Itoa], and the [%d] verb of [fmt] *)
Definition Itoa (n : Z) : string := NilZero.string_of_int (Z.to_int n).

End Strings.

Import Strings.

(* ===================================================================== *)
(** * Go errors *)
(* ===================================================================== *)

(** [errors.New(text)] and [fmt.Errorf] without [%w] give an [errorString];
    [fmt.Errorf("...: %w", err)] gives a [wrapError] that keeps [err]. *)
Inductive error : Type :=
| errorString (text : string)
| wrapError (msg : string) (err : error).

(** [err.Error()] *)
Definition Error (e : error) : string :=
  match e with
  | errorString text => text
  | wrapError msg _ => msg
  end.

(** [fmt.Errorf(prefix + "%w", err)]; a nil [err] prints as [%!w(<nil>)]. *)
Definition Errorf_w (prefix : string) (err : option error) : error :=
  match err with
  | Some e => wrapError (prefix +:+ Error e) e
  | None => errorString (prefix +:+ "%!w(<nil>)")
  end.

Definition context_Canceled : error := errorString "context canceled".
Definition context_DeadlineExceeded : error :=
  errorString "context deadline exceeded".

(** A Go result [(T, error)] with exactly one side set. *)
Inductive result (T : Type) : Type :=
| Ok (v : T)
| Err (e : error).
Arguments Ok {T} v.
Arguments Err {T} e.

(* ===================================================================== *)
(** * net/http: headers, requests, responses *)
(* ===================================================================== *)

Module Http.

Abbreviation Header := (gmap string (list string)).

(** [httpguts.IsTokenRune] on a byte: the characters of an HTTP token. *)
Definition validHeaderFieldByte (c : ascii) : bool :=
  let n := N_of_ascii c in
  (((48 <=? n) && (n <=? 57)) || ((65 <=? n) && (n <=? 90))
   || ((97 <=? n) && (n <=? 122))
   || (n =? 33) || ((35 <=? n) && (n <=? 39)) || (n =? 42) || (n =? 43)
   || (n =? 45) || (n =? 46) || ((94 <=? n) && (n <=? 96))
   || (n =? 124) || (n =? 126))%N.

Fixpoint all_bytes (p : ascii -> bool) (s : string) : bool :=
  match s with
  | EmptyString => true
  | String c s' => p c && all_bytes p s'
  end.

Definition is_lower (c : ascii) : bool :=
  let n := N_of_ascii c in ((97 <=? n) && (n <=? 122))%N.

Definition upper_byte (c : ascii) : ascii :=
  if is_lower c then ascii_of_N (N_of_ascii c - 32) else c.

(** The loop of [textproto.canonicalMIMEHeaderKey]: upper case for the
    first letter and for a letter after a dash, lower case elsewhere. *)
Fixpoint canonical_go (upper : bool) (s : string) : string :=
  match s with
  | EmptyString => EmptyString
  | String c s' =>
      let c' := if upper then upper_byte c else lower_byte c in
      String c' (canonical_go (Ascii.eqb c' "-"%char) s')
  end.

(** [textproto.CanonicalMIMEHeaderKey]: a key with a byte that is not a
    token character is returned unchanged. *)
Definition CanonicalMIMEHeaderKey (s : string) : string :=
  if all_bytes validHeaderFieldByte s then canonical_go true s else s.

(** [h[key]], nil when absent *)
Definition values (h : Header) (key : string) : list string :=
  default [] (h !! key).

(** [Header.Get]: the first value of the canonical key, or the empty
    string *)
Definition Get (h : Header) (key : string) : string :=
  match values h (CanonicalMIMEHeaderKey key) with
  | v :: _ => v
  | [] => EmptyString
  end.

(** [Header.Set] *)
Definition Set_ (key value : string) (h : Header) : Header :=
  <[CanonicalMIMEHeaderKey key := [value]]> h.

(** [Header.Add] *)
Definition Add (key value : string) (h : Header) : Header :=
  let k := CanonicalMIMEHeaderKey key in
  <[k := values h k ++ [value]]> h.

(** An [io.Reader] over an in-memory or network stream: reading it to
    the end yields [rd_data], then EOF, or the error [rd_err]. *)
Record Reader : Type := mkReader {
  rd_data : string;
  rd_err : option error;
}.

(** [bytes.NewReader(b)], also under [io.NopCloser] *)
Definition bytes_NewReader (b : string) : Reader := mkReader b None.

(** [io.ReadAll]: the bytes read, the error if any, and the reader as
    the call leaves it. *)
Definition ReadAll (rd : Reader) : string * option error * Reader :=
  (rd_data rd, rd_err rd, mkReader EmptyString (rd_err rd)).

(** [auth.UserContext], stored in the request context after a
    successful validation. *)
Record UserContext : Type := mkUserContext {
  UserID : string;
  Email : string;
}.

(** A request context as the gateway uses it.  [ctxDone k = Some e] when,
    in the backoff after attempt [k] of the retry loop, the context is
    done before the timer fires, [e] being [ctx.Err()]; [ctxUser] is the
    value stored under [auth.UserContextKey]. *)
Record Context : Type := mkContext {
  ctxDone : Z -> option error;
  ctxUser : option UserContext;
}.

Definition context_Background : Context := mkContext (fun _ => None) None.

(** The fields of an inbound [*http.Request] the gateway reads. *)
Record Request : Type := mkRequest {
  Method : string;
  Path : string;            (* r.URL.Path *)
  Host : string;
  RemoteAddr : string;
  RequestURI : string;
  TLS : bool;               (* r.TLS != nil *)
  Header_ : Header;
  Body : option Reader;     (* nil or a reader *)
  Ctx : Context;            (* r.Context() *)
}.

Definition set_Body (b : option Reader) (r : Request) : Request :=
  mkRequest (Method r) (Path r) (Host r) (RemoteAddr r) (RequestURI r)
            (TLS r) (Header_ r) b (Ctx r).

(** [r.WithContext(auth.WithUserContext(r.Context(), u))] *)
Definition WithUserContext (u : UserContext) (r : Request) : Request :=
  mkRequest (Method r) (Path r) (Host r) (RemoteAddr r) (RequestURI r)
            (TLS r) (Header_ r) (Body r)
            (mkContext (ctxDone (Ctx r)) (Some u)).

Definition UserAgent (r : Request) : string := Get (Header_ r) "User-Agent".

(** The outbound request built for the upstream. *)
Record Outbound : Type := mkOutbound {
  pMethod : string;
  pURL : string;
  pHeader : Header;
  pBody : option string;    (* nil, or the bytes of a [bytes.Reader] *)
}.

Definition set_pHeader (h : Header) (q : Outbound) : Outbound :=
  mkOutbound (pMethod q) (pURL q) h (pBody q).

(** An upstream [*http.Response]. *)
Record Response : Type := mkResponse {
  StatusCode : Z;
  rHeader : Header;
  rBody : Reader;
}.

Definition StatusOK : Z := 200.
Definition StatusUnauthorized : Z := 401.
Definition StatusNotFound : Z := 404.
Definition StatusTooManyRequests : Z := 429.
Definition StatusInternalServerError : Z := 500.
Definition StatusBadGateway : Z := 502.
Definition StatusGatewayTimeout : Z := 504.
Definition MethodOptions : string := "OPTIONS".

(** [http.ResponseWriter]: an interface in the source, a class here.
    [w.Header()] returns the writer's own map, so [w.Header().Set(k, v)]
    is [setHeader (Set_ k v (getHeader w)) w]. *)
Class ResponseWriter (W : Type) : Type := {
  getHeader : W -> Header;
  setHeader : Header -> W -> W;
  WriteHeader : Z -> W -> W;
  Write : string -> W -> W;
}.

Definition HeaderSet {W} `{ResponseWriter W} (key value : string) (w : W) : W :=
  setHeader (Set_ key value (getHeader w)) w.

Definition HeaderAdd {W} `{ResponseWriter W} (key value : string) (w : W) : W :=
  setHeader (Add key value (getHeader w)) w.

(** The server's own writer.  The first [WriteHeader] fixes the status
    and the headers the client receives; later calls are ignored.  A
    [Write] before any [WriteHeader] sends status 200 first. *)
Record response : Type := mkResp {
  handlerHeader : Header;               (* the map behind w.Header() *)
  sent : option (Z * Header);           (* status and headers on the wire *)
  sentBody : string;
}.

Definition newResponse : response := mkResp ∅ None EmptyString.

Definition response_WriteHeader (code : Z) (w : response) : response :=
  match sent w with
  | Some _ => w
  | None => mkResp (handlerHeader w) (Some (code, handlerHeader w)) (sentBody w)
  end.

Definition response_Write (data : string) (w : response) : response :=
  let w := response_WriteHeader StatusOK w in
  mkResp (handlerHeader w) (sent w) (sentBody w +:+ data).

#[export] Instance response_writer : ResponseWriter response := {|
  getHeader := handlerHeader;
  setHeader h w := mkResp h (sent w) (sentBody w);
  WriteHeader := response_WriteHeader;
  Write := response_Write;
|}.

(** What the client sees. *)
Definition status (w : response) : option Z := fst <$> sent w.
Definition sentHeader (w : response) : Header :=
  match sent w with Some (_, h) => h | None => ∅ end.

End Http.

Import Http.

(* ===================================================================== *)
(** * 64-bit integers and durations *)
(* ===================================================================== *)

Definition MaxInt64 : Z := 2 ^ 63 - 1.

(** The value of a Go [int64] expression whose mathematical value is [z]. *)
Definition wrap64 (z : Z) : Z := (z + 2 ^ 63) mod 2 ^ 64 - 2 ^ 63.

(** [time.Duration] counts nanoseconds. *)
Definition Millisecond : Z := 1000000.
Definition Second : Z := 1000000000.
Definition Minute : Z := 60 * Second.

(** [t.Sub(u)] on instants counted in nanoseconds: the difference, or
    the largest or the smallest [Duration] when it does not fit one. *)
Definition time_Sub (t u : Z) : Z :=
  Z.max (- 2 ^ 63) (Z.min MaxInt64 (t - u)).

(* ===================================================================== *)
(** * The token bucket *)
(* ===================================================================== *)

Module Rate.

(** Modelled from the spec: the token bucket behind [rate.Limiter]
    ([golang.org/x/time/rate], a dependency that is not part of the
    sources).  The spec's bucket holds up to [burst] tokens, refills
    continuously at [limit] tokens per second, capped at the capacity, is
    created full, and [Allow] returns true iff a token was available and
    consumed.  Tokens are counted in billionths, so that the refill over a
    whole number of nanoseconds is exact. *)
Record Limiter : Type := mkLimiter {
  limit : Z;              (* tokens per second *)
  burst : Z;              (* capacity, in tokens *)
  tokens : Z;             (* current level, in billionths of a token *)
  last : option Z;        (* time of the last refill, if any *)
}.

(** Modelled from the spec: [rate.NewLimiter(r, b)], a bucket of capacity
    [b] and refill rate [r], created full. *)
Definition NewLimiter (r b : Z) : Limiter := mkLimiter r b (b * Second) None.

(** Modelled from the spec: the level of the bucket at time [t], refilled
    in proportion to the time elapsed since [last] and capped at the
    capacity. *)
Definition advance (lim : Limiter) (t : Z) : Z :=
  match last lim with
  | None => tokens lim
  | Some l => Z.min (burst lim * Second) (tokens lim + limit lim * Z.max 0 (t - l))
  end.

(** Modelled from the spec: [lim.Allow()] called at time [t]; one token
    is consumed if one is available, and the answer is whether it was. *)
Definition AllowAt (lim : Limiter) (t : Z) : bool * Limiter :=
  let level := advance lim t in
  if Second <=? level
  then (true, mkLimiter (limit lim) (burst lim) (level - Second) (Some t))
  else (false, lim).

(** Modelled from the spec: [int(lim.Tokens())] called at time [t], the
    whole tokens available; the conversion to [int] truncates toward
    zero. *)
Definition TokensAt (lim : Limiter) (t : Z) : Z := Z.quot (advance lim t) Second.

End Rate.

(* ===================================================================== *)
(** * The world a request runs in *)
(* ===================================================================== *)

(** What the gateway does to its surroundings, in the order it does it. *)
Inductive Event : Type :=
| EvDo (q : Outbound) (timeout : Z)  (* client.Do under a per-attempt timeout *)
| EvCancel                               (* cancel() of the attempt's context *)
| EvCloseBody                            (* resp.Body.Close() before a retry *)
| EvBackoff (d : Z)                      (* select on time.After(d) and ctx.Done() *)
| EvMetric (name : string) (labels : list string)
| EvLog (msg : string) (fields : list string)
| EvSpan (what : string) (attrs : list string).

(** The surroundings: the upstream, the URL parser and the token
    validator ([JWTValidator.ValidateToken], whose verification is the
    JWT library's).  [client_Do n q] is the outcome of the [n]-th call of
    [client.Do] (counted from 0 over the life of the process) when it
    sends [q]; [url_Parse u] is [url.Parse(u)] followed by [String()]. *)
Record Env : Type := mkEnv {
  client_Do : nat -> Outbound -> result Response;
  url_Parse : string -> result string;
  ValidateToken : string -> result UserContext;
}.

Record World : Type := mkWorld {
  now : Z;                          (* the clock, in nanoseconds *)
  ticks : list N;                   (* how far it moves before each later reading *)
  calls : nat;                      (* calls of client.Do so far *)
  limiters : gmap string Rate.Limiter;   (* rl.limiters *)
  lastAccess : gmap string Z;            (* rl.lastAccess *)
  trace : list Event;
}.

Definition M (A : Type) : Type := World -> A * World.

#[export] Instance M_ret : MRet M := fun A a s => (a, s).
#[export] Instance M_bind : MBind M :=
  fun A B f m s => let '(a, s') := m s in f a s'.

(** [time.Now()]: the clock moves by the next tick, then is read. *)
Definition time_Now : M Z := fun s =>
  match ticks s with
  | [] => (now s, s)
  | d :: rest =>
      let t := now s + Z.of_N d in
      (t, mkWorld t rest (calls s) (limiters s) (lastAccess s) (trace s))
  end.

(** [time.Since(start)] *)
Definition time_Since (start : Z) : M Z := t ← time_Now; mret (t - start).

Definition emit (e : Event) : M unit := fun s =>
  (tt, mkWorld (now s) (ticks s) (calls s) (limiters s) (lastAccess s)
               (trace s ++ [e])).

Definition metric (name : string) (labels : list string) : M unit :=
  emit (EvMetric name labels).

Definition log (msg : string) (fields : list string) : M unit :=
  emit (EvLog msg fields).

Definition span (what : string) (attrs : list string) : M unit :=
  emit (EvSpan what attrs).

(** [http.Handler]: a handler works with any response writer. *)
Definition Handler : Type :=
  forall (W : Type), ResponseWriter W -> Request -> W -> M W.

Definition Middleware : Type := Handler -> Handler.

(* ===================================================================== *)
(** * config *)
(* ===================================================================== *)

Module Config.

(** [config.ServiceEndpoint] *)
Record ServiceEndpoint : Type := mkServiceEndpoint {
  BaseURL : string;
  Timeout : Z;       (* time.Duration *)
  Retries : Z;       (* int *)
}.

(** [config.ServicesConfig] *)
Record ServicesConfig : Type := mkServicesConfig {
  AuthService : ServiceEndpoint;
  URLService : ServiceEndpoint;
  NotificationService : ServiceEndpoint;
}.

End Config.

(* ===================================================================== *)
(** * config: loading the configuration from the environment *)
(* ===================================================================== *)

Module ConfigLoad.

Import Config.

(** The process environment and the parsers of the standard library
    [Load] relies on: [os.Getenv], which gives the empty string for a
    variable that is not set, [strconv.Atoi], [strconv.ParseBool] and
    [time.ParseDuration]. *)
Record Os : Type := mkOs {
  Getenv : string -> string;
  Atoi : string -> result Z;
  ParseBool : string -> result bool;
  ParseDuration : string -> result Z;
}.

(** [config.ServerConfig] *)
Record ServerConfig : Type := mkServerConfig {
  Port : string;
  Host : string;
  ReadTimeout : Z;
  WriteTimeout : Z;
  IdleTimeout : Z;
  ShutdownTimeout : Z;
}.

(** [config.SecurityConfig] *)
Record SecurityConfig : Type := mkSecurityConfig {
  JWTSecret : string;
  AllowedOrigins : list string;
  TrustedProxies : list string;
}.

(** [config.ObservabilityConfig] *)
Record ObservabilityConfig : Type := mkObservabilityConfig {
  MetricsEnabled : bool;
  TracingEnabled : bool;
  OTELEndpoint : string;
  ServiceName : string;
}.

(** [config.RateLimitConfig] *)
Record RateLimitConfig : Type := mkRateLimitConfig {
  Enabled : bool;
  RequestsPerSecond : Z;
  BurstSize : Z;
}.

(** [config.Config] *)
Record Config : Type := mkConfig {
  Server : ServerConfig;
  Services : ServicesConfig;
  Security : SecurityConfig;
  Observability : ObservabilityConfig;
  RateLimit : RateLimitConfig;
}.

(** [getEnvOrDefault] *)
Definition getEnvOrDefault (os : Os) (key defaultValue : string) : string :=
  let value := Getenv os key in
  if bool_decide (value <> EmptyString) then value else defaultValue.

(** [getDurationEnvOrDefault] *)
Definition getDurationEnvOrDefault (os : Os) (key : string) (defaultValue : Z) : Z :=
  let value := Getenv os key in
  if bool_decide (value <> EmptyString) then
    match ParseDuration os value with
    | Ok duration => duration
    | Err _ => defaultValue
    end
  else defaultValue.

(** [getIntEnvOrDefault] *)
Definition getIntEnvOrDefault (os : Os) (key : string) (defaultValue : Z) : Z :=
  let value := Getenv os key in
  if bool_decide (value <> EmptyString) then
    match Atoi os value with
    | Ok intValue => intValue
    | Err _ => defaultValue
    end
  else defaultValue.

(** [getBoolEnvOrDefault] *)
Definition getBoolEnvOrDefault (os : Os) (key : string) (defaultValue : bool) : bool :=
  let value := Getenv os key in
  if bool_decide (value <> EmptyString) then
    match ParseBool os value with
    | Ok boolValue => boolValue
    | Err _ => defaultValue
    end
  else defaultValue.

(** [getSliceEnvOrDefault] *)
Definition getSliceEnvOrDefault (os : Os) (key : string)
    (defaultValue : list string) : list string :=
  defaultValue.

(** [Config.validate] *)
Definition validate (c : Config) : option error :=
  if bool_decide (JWTSecret (Security c) = EmptyString) then
    Some (errorString "JWT_SECRET is required")
  else if (String.length (JWTSecret (Security c)) <? 32)%nat then
    Some (errorString "JWT_SECRET must be at least 32 characters long")
  else if bool_decide (Port (Server c) = EmptyString) then
    Some (errorString "GATEWAY_PORT is required")
  else if bool_decide (BaseURL (AuthService (Services c)) = EmptyString) then
    Some (errorString "AUTH_SERVICE_URL is required")
  else if bool_decide (BaseURL (URLService (Services c)) = EmptyString) then
    Some (errorString "URL_SERVICE_URL is required")
  else if bool_decide (BaseURL (NotificationService (Services c)) = EmptyString) then
    Some (errorString "NOTIFICATION_SERVICE_URL is required")
  else None.

(** [Load] *)
Definition Load (os : Os) : result Config :=
  let cfg :=
    mkConfig
      (mkServerConfig
         (getEnvOrDefault os "GATEWAY_PORT" "8080")
         (getEnvOrDefault os "GATEWAY_HOST" "0.0.0.0")
         (getDurationEnvOrDefault os "GATEWAY_READ_TIMEOUT" (30 * Second))
         (getDurationEnvOrDefault os "GATEWAY_WRITE_TIMEOUT" (30 * Second))
         (getDurationEnvOrDefault os "GATEWAY_IDLE_TIMEOUT" (60 * Second))
         (getDurationEnvOrDefault os "GATEWAY_SHUTDOWN_TIMEOUT" (15 * Second)))
      (mkServicesConfig
         (mkServiceEndpoint
            (getEnvOrDefault os "AUTH_SERVICE_URL" "http://hcaas_auth:8081")
            (getDurationEnvOrDefault os "AUTH_SERVICE_TIMEOUT" (10 * Second))
            (getIntEnvOrDefault os "AUTH_SERVICE_RETRIES" 3))
         (mkServiceEndpoint
            (getEnvOrDefault os "URL_SERVICE_URL" "http://hcaas_web:8080")
            (getDurationEnvOrDefault os "URL_SERVICE_TIMEOUT" (10 * Second))
            (getIntEnvOrDefault os "URL_SERVICE_RETRIES" 3))
         (mkServiceEndpoint
            (getEnvOrDefault os "NOTIFICATION_SERVICE_URL"
                             "http://hcaas_notification:8082")
            (getDurationEnvOrDefault os "NOTIFICATION_SERVICE_TIMEOUT" (10 * Second))
            (getIntEnvOrDefault os "NOTIFICATION_SERVICE_RETRIES" 3)))
      (mkSecurityConfig
         (getEnvOrDefault os "JWT_SECRET"
            "your-super-secret-jwt-key-change-in-production-min-32-chars")
         (getSliceEnvOrDefault os "ALLOWED_ORIGINS" ["*"])
         (getSliceEnvOrDefault os "TRUSTED_PROXIES" []))
      (mkObservabilityConfig
         (getBoolEnvOrDefault os "METRICS_ENABLED" true)
         (getBoolEnvOrDefault os "TRACING_ENABLED" true)
         (getEnvOrDefault os "OTEL_EXPORTER_OTLP_ENDPOINT"
                          "http://hcaas_jaeger_all_in_one:4317")
         (getEnvOrDefault os "OTEL_SERVICE_NAME" "hcaas_gateway_service"))
      (mkRateLimitConfig
         (getBoolEnvOrDefault os "RATE_LIMIT_ENABLED" true)
         (getIntEnvOrDefault os "RATE_LIMIT_RPS" 100)
         (getIntEnvOrDefault os "RATE_LIMIT_BURST" 200)) in
  match validate cfg with
  | Some err => Err (Errorf_w "invalid configuration: " (Some err))
  | None => Ok cfg
  end.

End ConfigLoad.

(* ===================================================================== *)
(** * proxy: the reverse proxy engine (proxy/proxy.go) *)
(* ===================================================================== *)

Module Proxy.

Import Config.

(** [determineTarget]: the service name and the target URL *)
Definition determineTarget (cfg : ServicesConfig) (r : Request)
  : result (string * string) :=
  let path := Path r in
  if HasPrefix path "/auth/" || HasPrefix path "/me" then
    let targetPath := TrimPrefix path "/" in
    Ok ("auth", BaseURL (AuthService cfg) +:+ "/" +:+ targetPath)
  else if HasPrefix path "/urls" then
    Ok ("url", BaseURL (URLService cfg) +:+ path)
  else if HasPrefix path "/notifications" then
    Ok ("notification", BaseURL (NotificationService cfg) +:+ path)
  else Err (errorString ("no route found for path: " +:+ path)).

(** [getServiceConfig] *)
Definition getServiceConfig (cfg : ServicesConfig) (serviceName : string)
  : result ServiceEndpoint :=
  if decide (serviceName = "auth") then Ok (AuthService cfg)
  else if decide (serviceName = "url") then Ok (URLService cfg)
  else if decide (serviceName = "notification") then Ok (NotificationService cfg)
  else Err (errorString ("unknown service: " +:+ serviceName)).

(** [shouldRetry] *)
Definition shouldRetry (statusCode : Z) : bool :=
  (500 <=? statusCode) && negb (statusCode =? 501).

Definition hopByHopHeaders : list string :=
  [ "Connection"; "Keep-Alive"; "Proxy-Authenticate"; "Proxy-Authorization";
    "Te"; "Trailers"; "Transfer-Encoding"; "Upgrade" ].

(** [isHopByHopHeader] *)
Definition isHopByHopHeader (name : string) : bool :=
  let name := ToLower name in
  existsb (fun header => bool_decide (ToLower header = name)) hopByHopHeaders.

(** The tail of [getClientIP], after the [X-Forwarded-For] check. *)
Definition getClientIP_rest (r : Request) : string :=
  let xri := Get (Header_ r) "X-Real-IP" in
  if bool_decide (xri <> EmptyString) then xri
  else match Cut (RemoteAddr r) ":" with
       | (host, _, true) => host
       | _ => RemoteAddr r
       end.

(** [getClientIP] of the proxy: the first entry of the forwarded chain *)
Definition getClientIP (r : Request) : string :=
  let xff := Get (Header_ r) "X-Forwarded-For" in
  if bool_decide (xff <> EmptyString) then
    match Split xff "," with
    | part0 :: _ => TrimSpace part0
    | [] => getClientIP_rest r
    end
  else getClientIP_rest r.

(** [getScheme] *)
Definition getScheme (r : Request) : string :=
  if TLS r then "https"
  else
    let proto := Get (Header_ r) "X-Forwarded-Proto" in
    if bool_decide (proto <> EmptyString) then proto else "http".

(** [validMethod] of net/http: a non-empty token *)
Definition validMethod (method : string) : bool :=
  bool_decide (method <> EmptyString) && all_bytes validHeaderFieldByte method.

(** [http.NewRequestWithContext]: an empty method means GET; the method
    must be a token and the URL must parse.  (The server has already
    checked the method of an inbound request, so the first error does not
    arise for one; its text quotes the method with [%q], rendered here for
    a method without characters that need escaping.) *)
Definition NewRequestWithContext (env : Env) (method url : string)
    (body : option string) : result Outbound :=
  let method := if bool_decide (method = EmptyString) then "GET" else method in
  if negb (validMethod method) then
    Err (errorString ("net/http: invalid method " +:+ quoted method))
  else match url_Parse env url with
       | Err e => Err e
       | Ok u => Ok (mkOutbound method u ∅ body)
       end.

(** The header loop of [createProxyRequest].  Go leaves the order of a
    [range] over a map unspecified; the entries are taken in the order of
    [map_to_list]. *)
Definition copyHeaders (src : list (string * list string)) (dst : Header) : Header :=
  foldl (fun acc '(name, vals) =>
           if negb (isHopByHopHeader name)
           then foldl (fun a value => Add name value a) acc vals
           else acc)
        dst src.

(** [createProxyRequest]: the request for the upstream, or the error, and
    the original request as the call leaves it (its body is replaced by a
    fresh reader once it has been read). *)
Definition createProxyRequest (env : Env) (originalReq : Request)
    (targetURL : string) : result Outbound * Request :=
  match url_Parse env targetURL with
  | Err e => (Err (Errorf_w "invalid target URL: " (Some e)), originalReq)
  | Ok target =>
      let '(read, originalReq1) :=
        match Body originalReq with
        | None => (Ok None, originalReq)
        | Some rd =>
            let '(bodyBytes, err, rd') := ReadAll rd in
            match err with
            | Some e =>
                (Err (Errorf_w "failed to read request body: " (Some e)),
                 set_Body (Some rd') originalReq)
            | None =>
                (Ok (Some bodyBytes),
                 set_Body (Some (bytes_NewReader bodyBytes)) originalReq)
            end
        end in
      match read with
      | Err e => (Err e, originalReq1)
      | Ok body =>
          match NewRequestWithContext env (Method originalReq1) target body with
          | Err e => (Err (Errorf_w "failed to create request: " (Some e)), originalReq1)
          | Ok req =>
              let h := copyHeaders (map_to_list (Header_ originalReq1)) (pHeader req) in
              let h := Set_ "X-Forwarded-For" (getClientIP originalReq1) h in
              let h := Set_ "X-Forwarded-Proto" (getScheme originalReq1) h in
              let h := Set_ "X-Forwarded-Host" (Host originalReq1) h in
              let h := Set_ "X-Gateway" "hcaas-gateway" h in
              (Ok (set_pHeader h req), originalReq1)
          end
      end
  end.

(** [client.Do(req)] under the attempt's timeout, then [cancel()]. *)
Definition do_attempt (env : Env) (req : Outbound) (timeout : Z)
  : M (result Response) := fun s =>
  (client_Do env (calls s) req,
   mkWorld (now s) (ticks s) (S (calls s)) (limiters s) (lastAccess s)
           (trace s ++ [EvDo req timeout; EvCancel])).

(** [time.Duration(attempt+1) * 100 * time.Millisecond] *)
Definition backoff (attempt : Z) : Z :=
  wrap64 (wrap64 (wrap64 (attempt + 1) * 100) * Millisecond).

(** The loop of [proxyWithRetries], from [attempt] on.  [fuel] bounds the
    iterations left; the loop is entered with [Retries + 1] of them, one
    for each value of [attempt] from 0 to [Retries]. *)
Fixpoint retryLoop (env : Env) (ctx : Context) (targetURL : string)
    (serviceConfig : ServiceEndpoint) (fuel : nat) (attempt : Z)
    (lastErr : option error) (originalReq : Request)
  : M (result Response * Request) :=
  match fuel with
  | O => mret (Err (Errorf_w "all retry attempts failed: " lastErr), originalReq)
  | S fuel' =>
      if negb (attempt <=? Retries serviceConfig) then
        mret (Err (Errorf_w "all retry attempts failed: " lastErr), originalReq)
      else
        match createProxyRequest env originalReq targetURL with
        | (Err e, originalReq) =>
            mret (Err (Errorf_w "failed to create proxy request: " (Some e)),
                  originalReq)
        | (Ok req, originalReq) =>
            outcome ← do_attempt env req (Timeout serviceConfig);
            let next lastErr :=
              if attempt <? Retries serviceConfig then
                _ ← emit (EvBackoff (backoff attempt));
                match ctxDone ctx attempt with
                | Some e => mret (Err e, originalReq)
                | None =>
                    retryLoop env ctx targetURL serviceConfig fuel'
                              (attempt + 1) lastErr originalReq
                end
              else
                retryLoop env ctx targetURL serviceConfig fuel'
                          (attempt + 1) lastErr originalReq in
            match outcome with
            | Ok resp =>
                if negb (shouldRetry (StatusCode resp)) then
                  mret (Ok resp, originalReq)
                else
                  _ ← emit EvCloseBody;
                  next (Some (errorString ("upstream returned retryable status: "
                                           +:+ Itoa (StatusCode resp))))
            | Err err => next (Some err)
            end
        end
  end.

(** [proxyWithRetries] *)
Definition proxyWithRetries (env : Env) (ctx : Context) (originalReq : Request)
    (targetURL : string) (serviceConfig : ServiceEndpoint)
  : M (result Response * Request) :=
  retryLoop env ctx targetURL serviceConfig
            (Z.to_nat (Retries serviceConfig + 1)) 0 None originalReq.

(** [io.Copy(w, src)]: what was read is written; the read error, if any,
    is returned. *)
Definition io_Copy {W} `{ResponseWriter W} (w : W) (src : Reader)
  : option error * W :=
  (rd_err src,
   if bool_decide (rd_data src = EmptyString) then w else Write (rd_data src) w).

(** The header loop of [copyResponse]. *)
Definition copyResponseHeaders {W} `{ResponseWriter W}
    (src : list (string * list string)) (w : W) : W :=
  foldl (fun acc '(name, vals) =>
           if negb (isHopByHopHeader name)
           then foldl (fun a value => HeaderAdd name value a) acc vals
           else acc)
        w src.

(** [copyResponse] *)
Definition copyResponse {W} `{ResponseWriter W} (w : W) (resp : Response)
  : option error * W :=
  let w := copyResponseHeaders (map_to_list (rHeader resp)) w in
  let w := WriteHeader (StatusCode resp) w in
  io_Copy w (rBody resp).

(** [ProxyRequest]; the deferred calls run where the function returns. *)
Definition ProxyRequest (env : Env) (cfg : ServicesConfig) {W} `{ResponseWriter W}
    (ctx : Context) (w : W) (r : Request) : M (option error * W) :=
  startTime ← time_Now;
  match determineTarget cfg r with
  | Err e =>
      _ ← metric "RecordError" ["proxy"; "validation"];
      mret (Some (Errorf_w "failed to determine target: " (Some e)), w)
  | Ok (serviceName, targetURL) =>
      match getServiceConfig cfg serviceName with
      | Err e =>
          _ ← metric "RecordError" ["proxy"; "internal"];
          mret (Some (Errorf_w "failed to get service config: " (Some e)), w)
      | Ok serviceConfig =>
          _ ← metric "RecordUpstreamRequestStart" [serviceName];
          '(res, r) ← proxyWithRetries env ctx r targetURL serviceConfig;
          match res with
          | Err e =>
              _ ← metric "RecordError" ["proxy"; "upstream"];
              _ ← metric "RecordUpstreamRequestEnd" [serviceName];
              mret (Some (Errorf_w "failed to proxy request: " (Some e)), w)
          | Ok resp =>
              duration ← time_Since startTime;
              _ ← metric "RecordUpstreamRequest"
                    [serviceName; Method r; Path r; Itoa (StatusCode resp)];
              let '(err, w) := copyResponse w resp in
              match err with
              | Some e =>
                  _ ← metric "RecordError" ["proxy"; "internal"];
                  _ ← emit EvCloseBody;
                  _ ← metric "RecordUpstreamRequestEnd" [serviceName];
                  mret (Some (Errorf_w "failed to copy response: " (Some e)), w)
              | None =>
                  _ ← log "Service call"
                        [serviceName; Method r; Path r; Itoa (StatusCode resp)];
                  _ ← emit EvCloseBody;
                  _ ← metric "RecordUpstreamRequestEnd" [serviceName];
                  mret (None, w)
              end
          end
      end
  end.

End Proxy.

(* ===================================================================== *)
(** * handler: the terminal proxy handler (handler/gateway.go) *)
(* ===================================================================== *)

Module GatewayHandler.

(** The JSON text [{"error": "<message>", "code": "<code>"}]. *)
Definition errorResponse (message code : string) : string :=
  "{" +:+ quoted "error" +:+ ": " +:+ quoted message +:+ ", "
      +:+ quoted "code" +:+ ": " +:+ quoted code +:+ "}".

(** The [switch] of [handleProxyError]: status, message and code. *)
Definition classify (errStr : string) : Z * string * string :=
  if Contains errStr "no route found" then
    (StatusNotFound, "Endpoint not found", "ROUTE_NOT_FOUND")
  else if Contains errStr "timeout" then
    (StatusGatewayTimeout, "Request timeout", "TIMEOUT_ERROR")
  else if Contains errStr "connection" then
    (StatusBadGateway, "Upstream service unavailable", "SERVICE_UNAVAILABLE")
  else
    (StatusInternalServerError, "Internal server error", "PROXY_ERROR").

(** [handleProxyError] *)
Definition handleProxyError {W} `{ResponseWriter W} (w : W) (r : Request)
    (err : error) : W :=
  let w := HeaderSet "Access-Control-Allow-Origin" "*" w in
  let w := HeaderSet "Access-Control-Allow-Methods" "GET, POST, PUT, DELETE, OPTIONS" w in
  let w := HeaderSet "Access-Control-Allow-Headers" "Authorization, Content-Type" w in
  let w := HeaderSet "Content-Type" "application/json" w in
  let '(statusCode, message, code) := classify (Error err) in
  let w := WriteHeader statusCode w in
  Write (errorResponse message code) w.

(** [ProxyHandler] *)
Definition ProxyHandler (env : Env) (cfg : Config.ServicesConfig) : Handler :=
  fun W _ r w =>
    startTime ← time_Now;
    '(err, w) ← Proxy.ProxyRequest env cfg (Ctx r) w r;
    duration ← time_Since startTime;
    match err with
    | Some e =>
        _ ← log "Failed to proxy request" [Error e; Path r; Method r];
        _ ← metric "RecordError" ["proxy"; "upstream"];
        mret (handleProxyError w r e)
    | None =>
        _ ← log "Request proxied successfully" [Path r; Method r];
        mret w
    end.

End GatewayHandler.

(* ===================================================================== *)
(** * middleware: CORS, logging, tracing *)
(* ===================================================================== *)

Module CORS.

(** [CORSMiddleware.Middleware] *)
Definition Middleware : Middleware := fun next W _ r w =>
  let w := HeaderSet "Access-Control-Allow-Origin" "*" w in
  let w := HeaderSet "Access-Control-Allow-Methods"
                     "GET, POST, PUT, DELETE, OPTIONS, PATCH" w in
  let w := HeaderSet "Access-Control-Allow-Headers"
                     "Accept, Content-Type, Content-Length, Accept-Encoding, Authorization, X-CSRF-Token, X-Requested-With" w in
  let w := HeaderSet "Access-Control-Allow-Credentials" "true" w in
  let w := HeaderSet "Access-Control-Max-Age" "3600" w in
  if bool_decide (Method r = MethodOptions) then
    mret (WriteHeader StatusOK w)
  else
    next W _ r w.

End CORS.

Module Logging.

(** [responseWriter]: wraps a writer to capture the status code.  The
    embedded writer provides [Header()]. *)
Record responseWriter (W : Type) : Type := mkResponseWriter {
  inner : W;
  statusCode : Z;
  written : bool;
}.
Arguments mkResponseWriter {W}.
Arguments inner {W}.
Arguments statusCode {W}.
Arguments written {W}.

Definition rw_WriteHeader {W} `{ResponseWriter W} (code : Z)
    (rw : responseWriter W) : responseWriter W :=
  if negb (written rw) then mkResponseWriter (WriteHeader code (inner rw)) code true
  else rw.

Definition rw_Write {W} `{ResponseWriter W} (data : string)
    (rw : responseWriter W) : responseWriter W :=
  let rw := if negb (written rw) then rw_WriteHeader StatusOK rw else rw in
  mkResponseWriter (Write data (inner rw)) (statusCode rw) (written rw).

#[export] Instance responseWriter_writer {W} `{ResponseWriter W}
  : ResponseWriter (responseWriter W) := {|
  getHeader rw := getHeader (inner rw);
  setHeader h rw := mkResponseWriter (setHeader h (inner rw)) (statusCode rw) (written rw);
  WriteHeader := rw_WriteHeader;
  Write := rw_Write;
|}.

(** [LoggingMiddleware.Middleware] *)
Definition Middleware : Middleware := fun next W _ r w =>
  startTime ← time_Now;
  let wrappedWriter := mkResponseWriter w StatusOK false in
  wrappedWriter ← next (responseWriter W) _ r wrappedWriter;
  duration ← time_Since startTime;
  _ ← log "HTTP request"
        [Method r; Path r; UserAgent r; Itoa (statusCode wrappedWriter)];
  _ ← metric "RecordHTTPRequest"
        [Method r; Path r; Itoa (statusCode wrappedWriter)];
  mret (inner wrappedWriter).

End Logging.

Module Tracing.

(** [tracingResponseWriter]; the span and the tracer it also holds are
    not used by its methods. *)
Record tracingResponseWriter (W : Type) : Type := mkTracingResponseWriter {
  inner : W;
  statusCode : Z;
  written : bool;
}.
Arguments mkTracingResponseWriter {W}.
Arguments inner {W}.
Arguments statusCode {W}.
Arguments written {W}.

Definition trw_WriteHeader {W} `{ResponseWriter W} (code : Z)
    (trw : tracingResponseWriter W) : tracingResponseWriter W :=
  if negb (written trw)
  then mkTracingResponseWriter (WriteHeader code (inner trw)) code true
  else trw.

Definition trw_Write {W} `{ResponseWriter W} (data : string)
    (trw : tracingResponseWriter W) : tracingResponseWriter W :=
  let trw := if negb (written trw) then trw_WriteHeader StatusOK trw else trw in
  mkTracingResponseWriter (Write data (inner trw)) (statusCode trw) (written trw).

#[export] Instance tracingResponseWriter_writer {W} `{ResponseWriter W}
  : ResponseWriter (tracingResponseWriter W) := {|
  getHeader trw := getHeader (inner trw);
  setHeader h trw :=
    mkTracingResponseWriter (setHeader h (inner trw)) (statusCode trw) (written trw);
  WriteHeader := trw_WriteHeader;
  Write := trw_Write;
|}.

(** [getScheme] of the middleware package *)
Definition getScheme (r : Request) : string :=
  if TLS r then "https"
  else
    let proto := Get (Header_ r) "X-Forwarded-Proto" in
    if bool_decide (proto <> EmptyString) then proto else "http".

(** [TracingMiddleware.Middleware]; [span.End()] is deferred. *)
Definition Middleware : Middleware := fun next W _ r w =>
  let spanName := Method r +:+ " " +:+ Path r in
  _ ← span "StartServerSpan" [spanName];
  _ ← span "AddRequestAttributes" [Method r; Path r; UserAgent r];
  _ ← span "SetAttributes" [getScheme r; Host r; RequestURI r; UserAgent r];
  let wrappedWriter := mkTracingResponseWriter w StatusOK false in
  wrappedWriter ← next (tracingResponseWriter W) _ r wrappedWriter;
  _ ← span "AddAttributes" [Itoa (statusCode wrappedWriter)];
  _ ← (if 400 <=? statusCode wrappedWriter then
         if 500 <=? statusCode wrappedWriter
         then span "SetStatus" ["Error"; "HTTP 5xx"]
         else span "SetStatus" ["Error"; "HTTP 4xx"]
       else span "SetStatus" ["Ok"]);
  _ ← span "End" [];
  mret (inner wrappedWriter).

End Tracing.

(* ===================================================================== *)
(** * middleware: rate limiting *)
(* ===================================================================== *)

Module RateLimit.

Import Rate.

(** The configuration held by [RateLimitMiddleware]; its maps
    [limiters] and [lastAccess] live in the [World]. *)
Record RateLimitMiddleware : Type := mkRateLimitMiddleware {
  requestsPerSecond : Z;
  burstSize : Z;
}.

(** [RateLimitMiddleware.getClientIP] *)
Definition getClientIP (r : Request) : string :=
  let xff := Get (Header_ r) "X-Forwarded-For" in
  if bool_decide (xff <> EmptyString) then xff
  else
    let xri := Get (Header_ r) "X-Real-IP" in
    if bool_decide (xri <> EmptyString) then xri
    else RemoteAddr r.

Definition set_limiters (ls : gmap string Limiter) (s : World) : World :=
  mkWorld (now s) (ticks s) (calls s) ls (lastAccess s) (trace s).

Definition set_lastAccess (la : gmap string Z) (s : World) : World :=
  mkWorld (now s) (ticks s) (calls s) (limiters s) la (trace s).

(** [rl.limiters[clientIP]], with a new full limiter stored when absent *)
Definition lookupOrCreate (rl : RateLimitMiddleware) (clientIP : string)
  : M Limiter := fun s =>
  match limiters s !! clientIP with
  | Some limiter => (limiter, s)
  | None =>
      let limiter := NewLimiter (requestsPerSecond rl) (burstSize rl) in
      (limiter, set_limiters (<[clientIP := limiter]> (limiters s)) s)
  end.

(** [rl.lastAccess[clientIP] = t] *)
Definition touch (clientIP : string) (t : Z) : M unit := fun s =>
  (tt, set_lastAccess (<[clientIP := t]> (lastAccess s)) s).

(** The limiter behind the pointer held for [clientIP] takes a new state. *)
Definition store (clientIP : string) (limiter : Limiter) : M unit := fun s =>
  (tt, set_limiters (<[clientIP := limiter]> (limiters s)) s).

(** [getLimiter]: the client's limiter, created on first use; the time
    of the access is recorded.  The pointer the source returns is the map
    entry itself: a later [Allow] on it is written back under the key. *)
Definition getLimiter (rl : RateLimitMiddleware) (clientIP : string) : M Limiter :=
  limiter ← lookupOrCreate rl clientIP;
  t ← time_Now;
  _ ← touch clientIP t;
  mret limiter.

(** [limiter.Allow()] on the limiter stored for [clientIP] *)
Definition Allow (clientIP : string) (limiter : Limiter) : M bool :=
  t ← time_Now;
  let '(ok, limiter) := AllowAt limiter t in
  _ ← store clientIP limiter;
  mret ok.

(** [getLimiterForIP] *)
Definition getLimiterForIP (rl : RateLimitMiddleware) (clientIP : string)
  : M Limiter := fun s =>
  match limiters s !! clientIP with
  | Some limiter => (limiter, s)
  | None => (NewLimiter (requestsPerSecond rl) (burstSize rl), s)
  end.

(** [int(limiter.Tokens())] *)
Definition Tokens (limiter : Limiter) : M Z :=
  t ← time_Now; mret (TokensAt limiter t).

(** The body written on rejection. *)
Definition errorResponse : string :=
  "{" +:+ quoted "error" +:+ ": " +:+ quoted "Rate limit exceeded" +:+ ", "
      +:+ quoted "code" +:+ ": " +:+ quoted "RATE_LIMIT_EXCEEDED" +:+ ", "
      +:+ quoted "retry_after" +:+ ": 60}".

(** [handleRateLimitExceeded] *)
Definition handleRateLimitExceeded (rl : RateLimitMiddleware) {W} `{ResponseWriter W}
    (w : W) (r : Request) (clientIP : string) : M W :=
  _ ← metric "RecordRateLimitHit" [clientIP; Path r];
  _ ← log "Rate limit exceeded"
        [Path r; Method r; Itoa StatusTooManyRequests; clientIP];
  limiter ← getLimiterForIP rl clientIP;
  remaining ← Tokens limiter;
  let resetTime := 60 in
  let w := HeaderSet "X-RateLimit-Limit" (Itoa (requestsPerSecond rl)) w in
  let w := HeaderSet "X-RateLimit-Remaining" (Itoa remaining) w in
  let w := HeaderSet "X-RateLimit-Reset" (Itoa resetTime) w in
  let w := HeaderSet "Retry-After" (Itoa resetTime) w in
  let w := HeaderSet "Access-Control-Allow-Origin" "*" w in
  let w := HeaderSet "Access-Control-Allow-Methods" "GET, POST, PUT, DELETE, OPTIONS" w in
  let w := HeaderSet "Access-Control-Allow-Headers" "Authorization, Content-Type" w in
  let w := HeaderSet "Content-Type" "application/json" w in
  let w := WriteHeader StatusTooManyRequests w in
  mret (Write errorResponse w).

(** [RateLimitMiddleware.Middleware] *)
Definition Middleware (rl : RateLimitMiddleware) : Middleware :=
  fun next W _ r w =>
    let clientIP := getClientIP r in
    limiter ← getLimiter rl clientIP;
    allowed ← Allow clientIP limiter;
    if negb allowed then handleRateLimitExceeded rl w r clientIP
    else next W _ r w.

(** The body of the loop of [cleanup], for one entry of [rl.lastAccess]:
    the maps and the count as the iteration leaves them. *)
Definition sweep (now_ : Z) (acc : gmap string Limiter * gmap string Z * Z)
    (entry : string * Z) : gmap string Limiter * gmap string Z * Z :=
  let '(ls, la, cleanupCount) := acc in
  let '(clientIP, lastAccess) := entry in
  let cleanupThreshold := 10 * Minute in
  if cleanupThreshold <? time_Sub now_ lastAccess
  then (delete clientIP ls, delete clientIP la, cleanupCount + 1)
  else acc.

(** [cleanup], which the ticker of [startCleanup] runs every five
    minutes.  The loop ranges over [rl.lastAccess] and deletes from both
    maps as it goes; an entry deleted is not visited again, the keys being
    distinct. *)
Definition cleanup : M unit :=
  now_ ← time_Now;
  '(ls, la, cleanupCount) ←
    (fun s => (foldl (sweep now_) (limiters s, lastAccess s, 0)
                     (map_to_list (lastAccess s)), s));
  _ ← (fun s => (tt, set_lastAccess la (set_limiters ls s)));
  _ ← metric "SetRateLimitActive" ["*"; Itoa (Z.of_nat (size ls))];
  log "Rate limiter cleanup completed"
      ["rate-limiter"; Itoa cleanupCount; Itoa (Z.of_nat (size ls))].

(** [GetStats]: the values under "active_limiters", "requests_per_second"
    and "burst_size". *)
Definition GetStats (rl : RateLimitMiddleware) : M (Z * Z * Z) := fun s =>
  ((Z.of_nat (size (limiters s)), requestsPerSecond rl, burstSize rl), s).

End RateLimit.

(* ===================================================================== *)
(** * auth: bearer extraction (auth/jwt.go) and the auth middleware *)
(* ===================================================================== *)

Module Auth.

(** [ExtractTokenFromHeader] *)
Definition ExtractTokenFromHeader (authHeader : string) : result string :=
  if bool_decide (authHeader = EmptyString) then
    Err (errorString "missing authorization header")
  else
    match SplitN authHeader " " 2 with
    | [part0; part1] =>
        let scheme := ToLower part0 in
        if bool_decide (scheme <> "bearer") then
          Err (errorString "unsupported authorization scheme")
        else
          let token := part1 in
          if bool_decide (token = EmptyString) then
            Err (errorString "missing token in authorization header")
          else Ok token
    | _ => Err (errorString "invalid authorization header format")
    end.

(** [ValidationResult] *)
Inductive ValidationResult : Type :=
| ValidationSuccess
| ValidationExpired
| ValidationInvalid
| ValidationMissing.

Definition ValidationResult_string (v : ValidationResult) : string :=
  match v with
  | ValidationSuccess => "success"
  | ValidationExpired => "expired"
  | ValidationInvalid => "invalid"
  | ValidationMissing => "missing"
  end.

(** [GetValidationResult], for a non-nil error *)
Definition GetValidationResult (err : error) : ValidationResult :=
  let errStr := ToLower (Error err) in
  if Contains errStr "expired" then ValidationExpired
  else if Contains errStr "missing" then ValidationMissing
  else ValidationInvalid.

Definition publicPaths : list string :=
  [ "/auth/register"; "/auth/login"; "/auth/validate";
    "/healthz"; "/health"; "/readyz"; "/metrics" ].

(** [isPublicPath] *)
Definition isPublicPath (path : string) : bool :=
  existsb (fun publicPath => HasPrefix path publicPath) publicPaths.

(** The JSON text [{"error": "<message>", "code": "AUTHENTICATION_FAILED"}]. *)
Definition errorResponse (message : string) : string :=
  "{" +:+ quoted "error" +:+ ": " +:+ quoted message +:+ ", "
      +:+ quoted "code" +:+ ": " +:+ quoted "AUTHENTICATION_FAILED" +:+ "}".

Definition authMessage (res : ValidationResult) : string :=
  match res with
  | ValidationExpired => "Token has expired"
  | ValidationInvalid => "Invalid token"
  | ValidationMissing => "Authorization header required"
  | ValidationSuccess => "Authentication required"
  end.

(** [handleAuthError] *)
Definition handleAuthError {W} `{ResponseWriter W} (w : W) (r : Request)
    (err : error) (res : ValidationResult) : M W :=
  _ ← log "Authentication failed" [Path r; Method r; Itoa StatusUnauthorized];
  let statusCode := StatusUnauthorized in
  let message := authMessage res in
  let w := HeaderSet "Content-Type" "application/json" w in
  let w := HeaderSet "Access-Control-Allow-Origin" "*" w in
  let w := HeaderSet "Access-Control-Allow-Methods" "GET, POST, PUT, DELETE, OPTIONS" w in
  let w := HeaderSet "Access-Control-Allow-Headers" "Authorization, Content-Type" w in
  let w := WriteHeader statusCode w in
  mret (Write (errorResponse message) w).

(** [recordAuthMetrics]; the duration is [time.Since(startTime)]. *)
Definition recordAuthMetrics (res : ValidationResult) (startTime : Z) : M unit :=
  duration ← time_Since startTime;
  metric "RecordAuthValidation" [ValidationResult_string res].

(** [AuthMiddleware.Middleware] *)
Definition Middleware (env : Env) : Middleware := fun next W _ r w =>
  startTime ← time_Now;
  if isPublicPath (Path r) then next W _ r w
  else
    let authHeader := Get (Header_ r) "Authorization" in
    match ExtractTokenFromHeader authHeader with
    | Err err =>
        w ← handleAuthError w r err ValidationMissing;
        _ ← recordAuthMetrics ValidationMissing startTime;
        mret w
    | Ok token =>
        match ValidateToken env token with
        | Err err =>
            let validationResult := GetValidationResult err in
            w ← handleAuthError w r err validationResult;
            _ ← recordAuthMetrics validationResult startTime;
            mret w
        | Ok userCtx =>
            let r := WithUserContext userCtx r in
            _ ← recordAuthMetrics ValidationSuccess startTime;
            _ ← log "Authentication successful" [UserID userCtx; Path r; Method r];
            next W _ r w
        end
    end.

End Auth.

(* ===================================================================== *)
(** * auth: the token validator (auth/jwt.go) *)
(* ===================================================================== *)

Module JWTValidator.

(** [UserClaims], with the registered claims the validator reads.  A
    [*jwt.NumericDate] is nil or an instant. *)
Record UserClaims : Type := mkUserClaims {
  UserID : string;
  Email : string;
  ExpiresAt : option Z;
  NotBefore : option Z;
  IssuedAt : option Z;
}.

(** What a call leaves behind: its results, or a run-time panic. *)
Inductive outcome (T : Type) : Type :=
| Returns (res : result T)
| Panics (msg : string).
Arguments Returns {T} res.
Arguments Panics {T} msg.

Definition nilDereference : string :=
  "runtime error: invalid memory address or nil pointer dereference".

(** [jwt.ParseWithClaims] under the validator's key function, which
    refuses a signing method that is not HMAC: the error, or the claims of
    the token and [token.Valid].  The parsing and the verification of the
    signature are the JWT library's. *)
Definition Parser : Type := string -> result (UserClaims * bool).

(** [validateClaims] *)
Definition validateClaims (claims : UserClaims) : M (option error) :=
  now_ ← time_Now;
  mret (if match ExpiresAt claims with Some t => t <? now_ | None => false end
        then Some (errorString "token is expired")
        else if match NotBefore claims with Some t => now_ <? t | None => false end
        then Some (errorString "token is not valid yet")
        else if bool_decide (UserID claims = EmptyString)
        then Some (errorString "missing user_id in token")
        else if bool_decide (Email claims = EmptyString)
        then Some (errorString "missing email in token")
        else None).

(** [ValidateToken].  The [UserContext] it builds reads
    [claims.IssuedAt.Time] and [claims.ExpiresAt.Time] through their
    pointers, with no check that they are set; the fields [TokenType],
    [IssuedAt] and [ExpiresAt] it fills are read by no code of the gateway
    and are not part of [UserContext] here. *)
Definition ValidateToken (parse : Parser) (tokenString : string)
  : M (outcome UserContext) :=
  match parse tokenString with
  | Err err => mret (Returns (Err (Errorf_w "failed to parse token: " (Some err))))
  | Ok (claims, valid) =>
      if valid then
        err ← validateClaims claims;
        match err with
        | Some e => mret (Returns (Err (Errorf_w "invalid claims: " (Some e))))
        | None =>
            match IssuedAt claims, ExpiresAt claims with
            | Some _, Some _ =>
                mret (Returns (Ok (mkUserContext (UserID claims) (Email claims))))
            | _, _ => mret (Panics nilDereference)
            end
        end
      else mret (Returns (Err (errorString "invalid token")))
  end.

End JWTValidator.

(* ===================================================================== *)
(** * middleware: optional authentication *)
(* ===================================================================== *)

Module OptionalAuth.

(** [OptionalAuthMiddleware.recordAuthMetrics] *)
Definition recordAuthMetrics (res : Auth.ValidationResult) (startTime : Z)
  : M unit :=
  duration ← time_Since startTime;
  metric "RecordAuthValidation" [Auth.ValidationResult_string res].

(** The validation attempt of [OptionalAuthMiddleware.Middleware], on the
    validator of jwt.go: the request as the attempt leaves it, or the
    value of the panic of [ValidateToken], which nothing in the stage
    recovers. *)
Definition authenticate (parse : JWTValidator.Parser) (r : Request) (startTime : Z)
  : M (Request + string) :=
  let authHeader := Get (Header_ r) "Authorization" in
  if bool_decide (authHeader <> EmptyString) then
    match Auth.ExtractTokenFromHeader authHeader with
    | Ok token =>
        o ← JWTValidator.ValidateToken parse token;
        match o with
        | JWTValidator.Panics msg => mret (inr msg)
        | JWTValidator.Returns (Ok userCtx) =>
            let r := WithUserContext userCtx r in
            _ ← recordAuthMetrics Auth.ValidationSuccess startTime;
            mret (inl r)
        | JWTValidator.Returns (Err err) =>
            let validationResult := Auth.GetValidationResult err in
            _ ← recordAuthMetrics validationResult startTime;
            _ ← log "Optional auth validation failed" [Path r; Method r];
            mret (inl r)
        end
    | Err _ => mret (inl r)
    end
  else mret (inl r).

(** [OptionalAuthMiddleware.Middleware]: the writer as the next handler
    leaves it, or the value of the panic that ends the stage before the
    next handler is called. *)
Definition Middleware (parse : JWTValidator.Parser) (next : Handler)
    (W : Type) `{ResponseWriter W} (r : Request) (w : W) : M (W + string) :=
  startTime ← time_Now;
  o ← authenticate parse r startTime;
  match o with
  | inl r => w ← next W _ r w; mret (inl w)
  | inr msg => mret (inr msg)
  end.

End OptionalAuth.

(* ===================================================================== *)
(** * main: the middleware chain (cmd/gateway/main.go) *)
(* ===================================================================== *)

Module Main.

(** The settings [main] reads when it assembles the chain. *)
Record Config : Type := mkConfig {
  Services : Config.ServicesConfig;
  TracingEnabled : bool;
  RateLimitEnabled : bool;
  RateLimitCfg : RateLimit.RateLimitMiddleware;
}.

(** [if enabled { r.Use(m) }] *)
Definition useIf (enabled : bool) (m : Middleware) : Middleware :=
  if enabled then m else fun next => next.

(** The stages [main] installs with [r.Use], outermost first, around the
    handler [h] the router dispatches to.  (The router's own stages,
    RequestID, RealIP, Recoverer and Timeout, come from the chi library
    and run outside this chain.) *)
Definition chain (env : Env) (cfg : Config) (h : Handler) : Handler :=
  Logging.Middleware
    (CORS.Middleware
       (useIf (TracingEnabled cfg) Tracing.Middleware
          (useIf (RateLimitEnabled cfg) (RateLimit.Middleware (RateLimitCfg cfg))
             (Auth.Middleware env h)))).

End Main.

(* ===================================================================== *)
(** * Vocabulary of the statements *)
(* ===================================================================== *)

(** An outcome of [client.Do] after which the loop goes on. *)
Definition retryable (o : result Response) : bool :=
  match o with
  | Ok resp => Proxy.shouldRetry (StatusCode resp)
  | Err _ => true
  end.

(** The value [lastErr] takes after a retryable outcome. *)
Definition retryErr (o : result Response) : error :=
  match o with
  | Ok resp => errorString ("upstream returned retryable status: "
                            +:+ Itoa (StatusCode resp))
  | Err e => e
  end.

(** What one attempt with the retryable outcome [o] adds to the trace,
    up to and excluding the backoff. *)
Definition attemptEvents (req : Outbound) (timeout : Z)
    (o : result Response) : list Event :=
  [EvDo req timeout; EvCancel] ++
  match o with Ok _ => [EvCloseBody] | Err _ => [] end.

(** The world after [n] more calls of [client.Do] that added [evs] to
    the trace. *)
Definition afterCalls (n : nat) (evs : list Event) (s : World) : World :=
  mkWorld (now s) (ticks s) (n + calls s) (limiters s) (lastAccess s)
          (trace s ++ evs).

(** The backoff durations of a trace, in order. *)
Definition backoffs (tr : list Event) : list Z :=
  omap (fun e => match e with EvBackoff d => Some d | _ => None end) tr.

(** The requests sent upstream in a trace, in order. *)
Definition upstreamCalls (tr : list Event) : list Outbound :=
  omap (fun e => match e with EvDo q _ => Some q | _ => None end) tr.

(** What [k] attempts with retryable outcomes add to the trace, the first
    of them being call [c] of [client.Do] and attempt [a] of the loop:
    each is followed by its backoff. *)
Fixpoint retryEvents (env : Env) (req : Outbound) (timeout : Z)
    (k : nat) (c : nat) (a : Z) : list Event :=
  match k with
  | O => []
  | S k' =>
      attemptEvents req timeout (client_Do env c req)
      ++ [EvBackoff (Proxy.backoff a)]
      ++ retryEvents env req timeout k' (S c) (a + 1)
  end.

(* ===================================================================== *)
(** * Sample surroundings, for concrete runs *)
(* ===================================================================== *)

Module Sample.

(** An upstream that answers each call with the next status of a
    script, and 200 once the script is over. *)
Definition scripted (script : list Z) : nat -> Outbound -> result Response :=
  fun n _ => Ok (mkResponse (nth n script 200) ∅ (bytes_NewReader "ok")).

Definition alice : UserContext := mkUserContext "u-1" "alice@example.org".

Definition validator (token : string) : result UserContext :=
  if bool_decide (token = "good") then Ok alice
  else Err (errorString "failed to parse token: token is expired").

Definition env (script : list Z) : Env :=
  mkEnv (scripted script) (fun u => Ok u) validator.

Definition endpoint (base : string) : Config.ServiceEndpoint :=
  Config.mkServiceEndpoint base (10 * Second) 3.

Definition services : Config.ServicesConfig :=
  Config.mkServicesConfig (endpoint "http://hcaas_auth:8081")
                          (endpoint "http://hcaas_web:8080")
                          (endpoint "http://hcaas_notification:8082").

Definition world : World := mkWorld 0 [] 0 ∅ ∅ [].

(** [POST /urls] with a JSON body, a forwarded chain and a hop-by-hop
    header. *)
Definition post : Request :=
  mkRequest "POST" "/urls" "gateway.example.org" "192.0.2.9:4711" "/urls" false
    (<["X-Forwarded-For" := ["10.0.0.1, 10.0.0.2"]]>
       (<["Connection" := ["keep-alive"]]>
          (<["Content-Type" := ["application/json"]]> ∅)))
    (Some (bytes_NewReader "{}"))
    context_Background.

(** The same request under a context that is cancelled during the
    backoff after the second attempt. *)
Definition cancelled : Context :=
  mkContext (fun k => if k =? 1 then Some context_Canceled else None) None.


(** The server's writer once the CORS stage has set a header. *)
Definition writer : response :=
  mkResp (<["Access-Control-Allow-Origin" := ["*"]]> ∅) None EmptyString.

(** A limiter of one request per second with a burst of two. *)
Definition limiter : RateLimit.RateLimitMiddleware :=
  RateLimit.mkRateLimitMiddleware 1 2.

(** A handler that answers 200 with an empty body. *)
Definition pass : Handler := fun W _ r w => mret (WriteHeader StatusOK w).

(** A world in which the bucket of [post]'s client is empty. *)
Definition drained : World :=
  mkWorld 0 [] 0
    (<["10.0.0.1, 10.0.0.2" := Rate.mkLimiter 1 2 0 (Some 0)]> ∅) ∅ [].


(** A preflight request to a protected path. *)
Definition preflight : Request :=
  mkRequest "OPTIONS" "/urls/42" "gateway.example.org" "192.0.2.9:4711" "/urls/42"
    false (<["X-Forwarded-For" := ["10.0.0.1"]]> ∅) None context_Background.

(** The gateway with tracing and rate limiting on. *)
Definition gateway : Main.Config :=
  Main.mkConfig services true true limiter.

(** A path no route prefix matches. *)
Definition unrouted : Request :=
  mkRequest "GET" "/timeout/connection" "gateway.example.org" "192.0.2.9:4711"
    "/timeout/connection" false ∅ None context_Background.


(** Surroundings in which the upstream answers every call with [resp]. *)
Definition answering (resp : Response) : Env :=
  mkEnv (fun _ _ => Ok resp) (fun u => Ok u) validator.

(** A request to a protected path with the bearer token the validator
    accepts. *)
Definition bearer : Request :=
  mkRequest "GET" "/urls" "gateway.example.org" "192.0.2.9:4711" "/urls" false
    (<["Authorization" := ["Bearer good"]]> ∅) None context_Background.

(** An upstream response with a CORS header of its own. *)
Definition permissive : Response :=
  mkResponse 200
    (<["Access-Control-Allow-Origin" := ["https://app.example.org"]]> ∅)
    (bytes_NewReader "[]").

(** An upstream response of status 501 with headers of its own, one of
    them hop-by-hop. *)
Definition unimplemented : Response :=
  mkResponse 501
    (<["Content-Type" := ["text/plain"]]>
       (<["Allow" := ["GET"; "HEAD"]]>
          (<["Keep-Alive" := ["timeout=5"]]> ∅)))
    (bytes_NewReader "not implemented").



(** A JWT library that verifies every token and finds the claims of
    [alice] in it, with an expiry and no issued-at claim. *)
Definition undated : JWTValidator.Parser :=
  fun _ => Ok (JWTValidator.mkUserClaims "u-1" "alice@example.org" (Some 3600) None None,
               true).

(** The same with an issued-at claim. *)
Definition dated : JWTValidator.Parser :=
  fun _ => Ok (JWTValidator.mkUserClaims "u-1" "alice@example.org" (Some 3600) None
                 (Some 0),
               true).

(** The request the proxy builds from [post]. *)
Definition outbound : Outbound :=
  mkOutbound "POST" "http://hcaas_web:8080/urls"
    (<["X-Gateway" := ["hcaas-gateway"]]>
       (<["X-Forwarded-Host" := ["gateway.example.org"]]>
          (<["X-Forwarded-Proto" := ["http"]]>
             (<["X-Forwarded-For" := ["10.0.0.1"]]>
                (<["Content-Type" := ["application/json"]]> ∅)))))
    (Some "{}").

End Sample.

(** The values the header loop appends under [key] when it runs over
    the entries [src]: those of every entry that is not hop-by-hop and
    whose name has [key] as its canonical form. *)
Fixpoint forwarded (src : list (string * list string)) (key : string)
  : list string :=
  match src with
  | [] => []
  | (name, vals) :: rest =>
      (if negb (Proxy.isHopByHopHeader name)
          && bool_decide (CanonicalMIMEHeaderKey name = key)
       then vals else [])
      ++ forwarded rest key
  end.

(** Header maps as net/http builds them from the wire: every key is in
    canonical form. *)
Definition canonicalKeys (h : Header) : Prop :=
  map_Forall (fun key _ => CanonicalMIMEHeaderKey key = key) h.

#[export] Instance canonicalKeys_dec (h : Header) : Decision (canonicalKeys h).
Proof. apply map_Forall_dec. intros key _. apply String.eq_dec. Defined.


(** The path prefixes [determineTarget] routes. *)
Definition routePrefixes : list string :=
  ["/auth/"; "/me"; "/urls"; "/notifications"].

(** Whether a path matches some route prefix. *)
Definition routed (path : string) : bool :=
  existsb (fun prefix => HasPrefix path prefix) routePrefixes.

(** The bucket a request is charged to: the one stored for its client,
    or the full one [getLimiter] is about to create. *)
Definition clientBucket (rl : RateLimit.RateLimitMiddleware) (r : Request)
    (s : World) : Rate.Limiter :=
  default (Rate.NewLimiter (RateLimit.requestsPerSecond rl) (RateLimit.burstSize rl))
          (limiters s !! RateLimit.getClientIP r).

(** The time [Allow] reads when the middleware starts in [s]: the second
    reading of the clock, the first being that of [getLimiter]. *)
Definition allowTime (s : World) : Z := (time_Now (time_Now s).2).1.

(** The client's bucket holds no whole token when [Allow] looks. *)
Definition exhausted (rl : RateLimit.RateLimitMiddleware) (r : Request)
    (s : World) : Prop :=
  Rate.advance (clientBucket rl r s) (allowTime s) < Second.

(** Every stored bucket was made by this middleware and its level is
    not negative. *)
Definition registryOk (rl : RateLimit.RateLimitMiddleware) (s : World) : Prop :=
  map_Forall (fun _ lim =>
                Rate.limit lim = RateLimit.requestsPerSecond rl
                /\ Rate.burst lim = RateLimit.burstSize rl
                /\ 0 <= Rate.tokens lim)
             (limiters s).

(** The latest time the clock can still reach. *)
Definition horizon (s : World) : Z :=
  now s + Z.of_N (foldr N.add 0%N (ticks s)).

(** A downstream handler that leaves the limiter registry alone and
    moves the clock only by reading it. *)
Definition quiet (next : Handler) : Prop :=
  forall W (inst : ResponseWriter W) r w s,
    limiters (next W inst r w s).2 = limiters s
    /\ now s <= now (next W inst r w s).2
    /\ horizon (next W inst r w s).2 <= horizon s.

(** Serving requests one after the other, each on a writer of its own. *)
Fixpoint serve (h : Handler) (reqs : list Request) : M (list response) :=
  match reqs with
  | [] => mret []
  | r :: rest =>
      w ← h response _ r newResponse;
      ws ← serve h rest;
      mret (w :: ws)
  end.

(** The response of [handleRateLimitExceeded], for the number of tokens
    it reports as remaining. *)
Definition rejected (rl : RateLimit.RateLimitMiddleware) (remaining : Z)
    (w : response) : Prop :=
  status w = Some 429
  /\ Get (sentHeader w) "X-RateLimit-Limit" = Itoa (RateLimit.requestsPerSecond rl)
  /\ Get (sentHeader w) "X-RateLimit-Remaining" = Itoa remaining
  /\ Get (sentHeader w) "X-RateLimit-Reset" = Itoa 60
  /\ Get (sentHeader w) "Retry-After" = Itoa 60
  /\ Get (sentHeader w) "Access-Control-Allow-Origin" = "*"
  /\ Get (sentHeader w) "Access-Control-Allow-Methods" = "GET, POST, PUT, DELETE, OPTIONS"
  /\ Get (sentHeader w) "Access-Control-Allow-Headers" = "Authorization, Content-Type"
  /\ Get (sentHeader w) "Content-Type" = "application/json".

(** The middleware's own dealings with the bucket: [getLimiter], then
    [Allow]. *)
Definition charged (rl : RateLimit.RateLimitMiddleware) (r : Request)
  : M bool :=
  limiter ← RateLimit.getLimiter rl (RateLimit.getClientIP r);
  RateLimit.Allow (RateLimit.getClientIP r) limiter.

(** [w] is what the rate limiter makes of the writer [w0] when it
    rejects: status 429, the rate-limit and CORS headers, a remaining
    count that is not negative, and the JSON body appended. *)
Definition rateLimited (rl : RateLimit.RateLimitMiddleware) (w0 w : response)
  : Prop :=
  exists remaining,
    0 <= remaining
    /\ rejected rl remaining w
    /\ sentBody w = sentBody w0 +:+ RateLimit.errorResponse.

(** The bucket stored for [client], or the full one a first request
    would create. *)
Definition bucketOf (rl : RateLimit.RateLimitMiddleware) (client : string)
    (s : World) : Rate.Limiter :=
  default (Rate.NewLimiter (RateLimit.requestsPerSecond rl) (RateLimit.burstSize rl))
          (limiters s !! client).

(** The state of [client]'s bucket after [i] requests of a window that
    began at time [t0] with the bucket full and ends by [deadline]: the
    requests let through so far are the first [min i burst], and the bucket
    holds what they left plus what has been refilled since [t0]. *)
Definition windowInv (rl : RateLimit.RateLimitMiddleware) (client : string)
    (t0 deadline : Z) (i : Z) (s : World) : Prop :=
  let B := RateLimit.burstSize rl in
  let lim := bucketOf rl client s in
  t0 <= now s
  /\ horizon s <= deadline
  /\ Rate.limit lim = RateLimit.requestsPerSecond rl
  /\ Rate.burst lim = B
  /\ forall t, now s <= t ->
       (B - Z.min i B) * Second <= Rate.advance lim t
       /\ Rate.advance lim t
          <= (B - Z.min i B) * Second + RateLimit.requestsPerSecond rl * (t - t0).

(** No byte of [s] is a space. *)
Definition nospace (s : string) : bool :=
  all_bytes (fun c => negb (Ascii.eqb c " "%char)) s.

(** The form of an accepted [Authorization] value: the scheme [Bearer]
    in any case, one space, a value that is not empty. *)
Definition bearerForm (authHeader token : string) : Prop :=
  exists scheme,
    authHeader = scheme +:+ " " +:+ token
    /\ ToLower scheme = "bearer"
    /\ token <> EmptyString.


(** [w] is the CORS stage's answer to a preflight request on the
    writer [w0]. *)
Definition preflightReply (w0 w : response) : Prop :=
  status w = Some 200
  /\ sentBody w = sentBody w0
  /\ Get (sentHeader w) "Access-Control-Allow-Origin" = "*"
  /\ Get (sentHeader w) "Access-Control-Allow-Methods"
     = "GET, POST, PUT, DELETE, OPTIONS, PATCH"
  /\ Get (sentHeader w) "Access-Control-Allow-Headers"
     = "Accept, Content-Type, Content-Length, Accept-Encoding, Authorization, X-CSRF-Token, X-Requested-With"
  /\ Get (sentHeader w) "Access-Control-Allow-Credentials" = "true"
  /\ Get (sentHeader w) "Access-Control-Max-Age" = "3600".

(** The calls of the rate limiter and of the auth stage that leave a
    mark in the trace: their metrics and log lines. *)
Definition limitedOrAuthenticated (e : Event) : bool :=
  match e with
  | EvMetric name _ =>
      bool_decide (name = "RecordRateLimitHit")
      || bool_decide (name = "RecordAuthValidation")
  | EvLog msg _ =>
      bool_decide (msg = "Rate limit exceeded")
      || bool_decide (msg = "Authentication failed")
      || bool_decide (msg = "Authentication successful")
  | _ => false
  end.

(** The endpoint a routed path is served by. *)
Definition endpointOf (cfg : Config.ServicesConfig) (path : string)
  : Config.ServiceEndpoint :=
  if HasPrefix path "/auth/" || HasPrefix path "/me" then Config.AuthService cfg
  else if HasPrefix path "/urls" then Config.URLService cfg
  else Config.NotificationService cfg.

(** The world in which the gateway handler enters [proxyWithRetries] for
    the service [name] when it starts in [s]: the handler and
    [ProxyRequest] have each read the clock, and the request has been
    counted as in flight. *)
Definition atProxy (name : string) (s : World) : World :=
  (metric "RecordUpstreamRequestStart" [name] (time_Now (time_Now s).2).2).2.


(** The events of the retry loop: the calls of the upstream, the
    cancelling of their contexts, the closing of bodies and the backoffs. *)
Definition loopEvent (e : Event) : bool :=
  match e with
  | EvDo _ _ | EvCancel | EvCloseBody | EvBackoff _ => true
  | _ => false
  end.

(** Whether an event records the metric [name]. *)
Definition isMetric (name : string) (e : Event) : bool :=
  match e with
  | EvMetric n _ => bool_decide (n = name)
  | _ => false
  end.

(** How often the metric [name] is recorded in a trace. *)
Definition countMetric (name : string) (tr : list Event) : nat :=
  length (filter (isMetric name) tr).

(** Whether the sweep at [now_] takes an entry last used at [lastAccess]
    for idle: the test of [cleanup]. *)
Definition idle (now_ lastAccess : Z) : bool :=
  10 * Minute <? time_Sub now_ lastAccess.

(** Every client with a bucket has a record of its last access. *)
Definition tracked (s : World) : Prop :=
  forall client, is_Some (limiters s !! client) -> is_Some (lastAccess s !! client).

(** A downstream handler that leaves the rate limiter's two maps alone. *)
Definition registryUntouched (next : Handler) : Prop :=
  forall W (inst : ResponseWriter W) r w s,
    limiters (next W inst r w s).2 = limiters s
    /\ lastAccess (next W inst r w s).2 = lastAccess s.

(** A call a handler makes on its response writer. *)
Inductive WriterCall : Type :=
| CallHeaderSet (key value : string)   (* w.Header().Set(key, value) *)
| CallHeaderAdd (key value : string)   (* w.Header().Add(key, value) *)
| CallWriteHeader (code : Z)           (* w.WriteHeader(code) *)
| CallWrite (data : string).           (* w.Write(data) *)

Definition call {W} `{ResponseWriter W} (c : WriterCall) (w : W) : W :=
  match c with
  | CallHeaderSet key value => HeaderSet key value w
  | CallHeaderAdd key value => HeaderAdd key value w
  | CallWriteHeader code => WriteHeader code w
  | CallWrite data => Write data w
  end.

(** The writer after the calls [cs], made in order. *)
Definition perform {W} `{ResponseWriter W} (cs : list WriterCall) (w : W) : W :=
  foldl (fun w c => call c w) w cs.

(** The status the calls [cs] fix on a writer that has sent nothing:
    that of the first [WriteHeader], or 200 when a [Write] comes before
    any, or when nothing is written at all and the server answers for the
    handler. *)
Fixpoint firstStatus (cs : list WriterCall) : Z :=
  match cs with
  | [] => StatusOK
  | CallWriteHeader code :: _ => code
  | CallWrite _ :: _ => StatusOK
  | _ :: cs => firstStatus cs
  end.

(** The contract of [http.ResponseWriter] the wrappers rely on, [wrote]
    telling whether the header has been written: the first [WriteHeader]
    writes it and later ones do nothing, a [Write] writes it with status
    200 when it has not been written, and setting a header field does not
    write it. *)
Definition lawful {W} `{ResponseWriter W} (wrote : W -> bool) : Prop :=
  (forall code w, wrote (WriteHeader code w) = true)
  /\ (forall code w, wrote w = true -> WriteHeader code w = w)
  /\ (forall data w, wrote (Write data w) = true)
  /\ (forall data w, wrote w = false -> Write data w = Write data (WriteHeader StatusOK w))
  /\ (forall h w, wrote (setHeader h w) = wrote w).

(** Whether the server's writer has sent its header. *)
Definition wroteHeader (w : response) : bool :=
  match sent w with Some _ => true | None => false end.

(** On the request [r], in the world [s], the handler [h] makes the calls
    [cs] on its writer and leaves the world [s'], whatever writer it is
    given. *)
Definition answers (h : Handler) (r : Request) (s : World)
    (cs : list WriterCall) (s' : World) : Prop :=
  forall W (inst : ResponseWriter W) (wrote : W -> bool),
    @lawful W inst wrote -> forall w : W, h W inst r w s = (perform cs w, s').

(** The world in which the tracing stage runs the next handler: the
    span has been started and given its attributes. *)
Definition atSpan (r : Request) (s : World) : World :=
  (span "SetAttributes"
        [Tracing.getScheme r; Host r; RequestURI r; UserAgent r]
        (span "AddRequestAttributes" [Method r; Path r; UserAgent r]
              (span "StartServerSpan" [Method r +:+ " " +:+ Path r] s).2).2).2.

(** The span status the tracing stage sets for a status code. *)
Definition spanStatus (code : Z) : list string :=
  if 400 <=? code then
    if 500 <=? code then ["Error"; "HTTP 5xx"] else ["Error"; "HTTP 4xx"]
  else ["Ok"].

(** The calls of the CORS stage on every response. *)
Definition corsCalls : list WriterCall :=
  [ CallHeaderSet "Access-Control-Allow-Origin" "*";
    CallHeaderSet "Access-Control-Allow-Methods" "GET, POST, PUT, DELETE, OPTIONS, PATCH";
    CallHeaderSet "Access-Control-Allow-Headers"
      "Accept, Content-Type, Content-Length, Accept-Encoding, Authorization, X-CSRF-Token, X-Requested-With";
    CallHeaderSet "Access-Control-Allow-Credentials" "true";
    CallHeaderSet "Access-Control-Max-Age" "3600" ].

(** The calls of [handleRateLimitExceeded], for the number of tokens it
    reports as remaining. *)
Definition rejectCalls (rl : RateLimit.RateLimitMiddleware) (remaining : Z)
  : list WriterCall :=
  [ CallHeaderSet "X-RateLimit-Limit" (Itoa (RateLimit.requestsPerSecond rl));
    CallHeaderSet "X-RateLimit-Remaining" (Itoa remaining);
    CallHeaderSet "X-RateLimit-Reset" (Itoa 60);
    CallHeaderSet "Retry-After" (Itoa 60);
    CallHeaderSet "Access-Control-Allow-Origin" "*";
    CallHeaderSet "Access-Control-Allow-Methods" "GET, POST, PUT, DELETE, OPTIONS";
    CallHeaderSet "Access-Control-Allow-Headers" "Authorization, Content-Type";
    CallHeaderSet "Content-Type" "application/json";
    CallWriteHeader StatusTooManyRequests;
    CallWrite RateLimit.errorResponse ].


(** The wrapper of the logging stage has written its header only if the
    writer inside has. *)
Definition loggingInv {W} (wrote : W -> bool) (rw : Logging.responseWriter W) : Prop :=
  Logging.written rw = true -> wrote (Logging.inner rw) = true.

(** The same of the wrapper of the tracing stage. *)
Definition tracingInv {W} (wrote : W -> bool) (rw : Tracing.tracingResponseWriter W)
  : Prop :=
  Tracing.written rw = true -> wrote (Tracing.inner rw) = true.

(** The calls of the header loop of [copyResponse] over the entries
    [src]. *)
Definition headerCalls (src : list (string * list string)) : list WriterCall :=
  flat_map (fun '(name, vals) =>
              if negb (Proxy.isHopByHopHeader name)
              then map (CallHeaderAdd name) vals
              else [])
           src.

(** The calls of [copyResponse] for the upstream response [resp]. *)
Definition relayCalls (resp : Response) : list WriterCall :=
  headerCalls (map_to_list (rHeader resp))
  ++ [CallWriteHeader (StatusCode resp)]
  ++ (if bool_decide (rd_data (rBody resp) = EmptyString) then []
      else [CallWrite (rd_data (rBody resp))]).

(** The world in which the auth stage hands an authenticated request to
    the next handler when it starts in [s]. *)
Definition atHandler (u : UserContext) (r : Request) (s : World) : World :=
  (log "Authentication successful" [UserID u; Path r; Method r]
       (Auth.recordAuthMetrics Auth.ValidationSuccess (time_Now s).1 (time_Now s).2).2).2.

(* ===================================================================== *)
(** * Properties *)
(* ===================================================================== *)

Import Config.

Example ToLower_ex : ToLower "Keep-Alive" = "keep-alive".
Proof. reflexivity. Qed.

Example SplitN_ex : SplitN "Bearer a b" " " 2 = ["Bearer"; "a b"].
Proof. reflexivity. Qed.

Example Split_ex :
  Split "10.0.0.1, 10.0.0.2,x" "," = ["10.0.0.1"; " 10.0.0.2"; "x"].
Proof. reflexivity. Qed.

Example Cut_ex : Cut "10.0.0.7:5123" ":" = ("10.0.0.7", "5123", true).
Proof. reflexivity. Qed.

Example TrimSpace_ex : TrimSpace "  a b  " = "a b".
Proof. reflexivity. Qed.

Example Itoa_ex : Itoa 503 = "503" /\ Itoa (-7) = "-7" /\ Itoa 0 = "0".
Proof. repeat split; reflexivity. Qed.

Example canonical_ex :
  CanonicalMIMEHeaderKey "x-forwarded-FOR" = "X-Forwarded-For"
  /\ CanonicalMIMEHeaderKey "bad key" = "bad key".
Proof. split; reflexivity. Qed.

Example backoff_ex : Proxy.backoff 0 = 100 * Millisecond
                     /\ Proxy.backoff 2 = 300 * Millisecond.
Proof. split; reflexivity. Qed.

(** ** Strings *)

Lemma append_empty_r (s : string) : s +:+ EmptyString = s.
Proof.
  induction s as [|c s IH]; [done|].
  change (String c s +:+ EmptyString) with (String c (s +:+ EmptyString)).
  by rewrite IH.
Qed.

Lemma append_cons c (s t : string) : String c s +:+ t = String c (s +:+ t).
Proof. reflexivity. Qed.

Lemma append_nil (t : string) : EmptyString +:+ t = t.
Proof. reflexivity. Qed.

Lemma HasPrefix_empty s : HasPrefix s EmptyString = true.
Proof. by destruct s. Qed.

Lemma skip_empty s : skip s EmptyString = s.
Proof. by destruct s. Qed.

(** ** 64-bit arithmetic *)

Lemma wrap64_small z : - 2 ^ 63 <= z <= MaxInt64 -> wrap64 z = z.
Proof.
  unfold wrap64, MaxInt64. intros Hz.
  rewrite Z.mod_small by lia. lia.
Qed.

(** ** Header maps *)

Lemma values_insert (h : Header) k vals key :
  values (<[k := vals]> h) key = if decide (k = key) then vals else values h key.
Proof.
  unfold values. rewrite lookup_insert. by destruct (decide (k = key)).
Qed.

Lemma lookup_Set key value (h : Header) key' :
  Set_ key value h !! key'
  = if decide (CanonicalMIMEHeaderKey key = key') then Some [value] else h !! key'.
Proof. unfold Set_. rewrite lookup_insert. by destruct (decide _). Qed.

(** Looks a concrete name up in a header map built by [Set_]. *)
Ltac header_lookup :=
  repeat (rewrite lookup_Set;
          first [ rewrite decide_True by reflexivity
                | rewrite decide_False by (vm_compute; discriminate) ]).

Lemma Get_Set key value (h : Header) key' :
  Get (Set_ key value h) key'
  = if decide (CanonicalMIMEHeaderKey key = CanonicalMIMEHeaderKey key')
    then value else Get h key'.
Proof.
  unfold Get, values. rewrite lookup_Set. by destruct (decide _).
Qed.

(** Reads a concrete name in a header map built by [Set_]. *)
Ltac header_get :=
  repeat (rewrite Get_Set;
          first [ rewrite decide_True by reflexivity
                | rewrite decide_False by (vm_compute; discriminate) ]).

(** ** The server's writer, call by call *)

Lemma HeaderSet_header key value (w : response) :
  handlerHeader (HeaderSet key value w) = Set_ key value (handlerHeader w).
Proof. reflexivity. Qed.

Lemma HeaderSet_sent key value (w : response) :
  sent (HeaderSet key value w) = sent w.
Proof. reflexivity. Qed.

Lemma HeaderSet_body key value (w : response) :
  sentBody (HeaderSet key value w) = sentBody w.
Proof. reflexivity. Qed.

(** A first [WriteHeader] and a [Write] after it. *)
Lemma written (w : response) code data :
  sent w = None ->
  status (Write data (WriteHeader code w)) = Some code
  /\ sentHeader (Write data (WriteHeader code w)) = handlerHeader w
  /\ sentBody (Write data (WriteHeader code w)) = sentBody w +:+ data.
Proof.
  intros Hw. cbn [WriteHeader Write response_writer].
  unfold response_Write, response_WriteHeader, status, sentHeader.
  rewrite Hw. cbn. done.
Qed.

Lemma written_header (w : response) code :
  sent w = None ->
  status (WriteHeader code w) = Some code
  /\ sentHeader (WriteHeader code w) = handlerHeader w
  /\ sentBody (WriteHeader code w) = sentBody w.
Proof.
  intros Hw. cbn [WriteHeader response_writer].
  unfold response_WriteHeader, status, sentHeader.
  rewrite Hw. cbn. done.
Qed.

Ltac writer_simpl :=
  rewrite ?HeaderSet_header, ?HeaderSet_sent, ?HeaderSet_body.

(** ** The clock and the state monad *)

(** The clock may move; nothing else does when it is read. *)
Lemma time_Now_frame s :
  calls (time_Now s).2 = calls s /\ trace (time_Now s).2 = trace s
  /\ limiters (time_Now s).2 = limiters s
  /\ lastAccess (time_Now s).2 = lastAccess s.
Proof. unfold time_Now. by destruct (ticks s). Qed.

Lemma now_le_horizon s : now s <= horizon s.
Proof. unfold horizon. lia. Qed.

Ltac run := unfold mbind, M_bind, mret, M_ret, Proxy.do_attempt, emit,
                   metric, log, span, time_Since; simpl.

(** ** The backoff *)

Lemma backoff_exact a :
  0 <= a -> (a + 1) * 100 * Millisecond <= MaxInt64 ->
  Proxy.backoff a = (a + 1) * 100 * Millisecond.
Proof.
  unfold Proxy.backoff, Millisecond, MaxInt64. intros Ha Hb.
  rewrite (wrap64_small (a + 1)) by (unfold MaxInt64; lia).
  rewrite (wrap64_small ((a + 1) * 100)) by (unfold MaxInt64; lia).
  apply wrap64_small. unfold MaxInt64. lia.
Qed.

(** ** The retry loop *)

Section RetryLoop.
Import Proxy.
Variables (env : Env) (ctx : Context) (targetURL : string) (cfg : ServiceEndpoint).
Variables (req : Outbound) (r : Request).
Hypothesis Hcreate : createProxyRequest env r targetURL = (Ok req, r).

(** A retryable outcome before the last attempt, with the context alive
    through the backoff: the loop goes on with the next attempt. *)
Lemma retryLoop_retry fuel a lastErr s :
  a < Retries cfg ->
  retryable (client_Do env (calls s) req) = true ->
  ctxDone ctx a = None ->
  retryLoop env ctx targetURL cfg (S fuel) a lastErr r s
  = retryLoop env ctx targetURL cfg fuel (a + 1)
      (Some (retryErr (client_Do env (calls s) req))) r
      (afterCalls 1 (attemptEvents req (Timeout cfg) (client_Do env (calls s) req)
                     ++ [EvBackoff (backoff a)]) s).
Proof.
  intros Ha Hretry Hctx. simpl.
  assert ((a <=? Retries cfg) = true) as -> by lia. simpl.
  rewrite Hcreate. run.
  assert ((a <? Retries cfg) = true) as Hlt by lia.
  destruct (client_Do env (calls s) req) as [resp|e]; simpl in *.
  - rewrite Hretry. simpl. rewrite Hlt.
    run. rewrite Hctx. unfold afterCalls, attemptEvents. simpl.
    by rewrite <- !app_assoc.
  - rewrite Hlt.
    run. rewrite Hctx. unfold afterCalls, attemptEvents. simpl.
    by rewrite <- !app_assoc.
Qed.

(** A retryable outcome before the last attempt, with the context done
    during the backoff: the loop returns the context's error. *)
Lemma retryLoop_cancel fuel a lastErr s e :
  a < Retries cfg ->
  retryable (client_Do env (calls s) req) = true ->
  ctxDone ctx a = Some e ->
  retryLoop env ctx targetURL cfg (S fuel) a lastErr r s
  = ((Err e, r),
     afterCalls 1 (attemptEvents req (Timeout cfg) (client_Do env (calls s) req)
                   ++ [EvBackoff (backoff a)]) s).
Proof.
  intros Ha Hretry Hctx. simpl.
  assert ((a <=? Retries cfg) = true) as -> by lia. simpl.
  rewrite Hcreate. run.
  assert ((a <? Retries cfg) = true) as Hlt by lia.
  destruct (client_Do env (calls s) req) as [resp|e']; simpl in *.
  - rewrite Hretry. simpl. rewrite Hlt.
    run. rewrite Hctx. unfold afterCalls, attemptEvents. simpl.
    by rewrite <- !app_assoc.
  - rewrite Hlt.
    run. rewrite Hctx. unfold afterCalls, attemptEvents. simpl.
    by rewrite <- !app_assoc.
Qed.

(** A response that is not retryable ends the loop at once. *)
Lemma retryLoop_return fuel a lastErr s resp :
  a <= Retries cfg ->
  client_Do env (calls s) req = Ok resp ->
  shouldRetry (StatusCode resp) = false ->
  retryLoop env ctx targetURL cfg (S fuel) a lastErr r s
  = ((Ok resp, r), afterCalls 1 [EvDo req (Timeout cfg); EvCancel] s).
Proof.
  intros Ha Hdo Hno. simpl.
  assert ((a <=? Retries cfg) = true) as -> by lia. simpl.
  rewrite Hcreate. run. rewrite Hdo, Hno. reflexivity.
Qed.

Lemma afterCalls_afterCalls n m evs evs' s :
  afterCalls n evs' (afterCalls m evs s) = afterCalls (n + m) (evs ++ evs') s.
Proof.
  unfold afterCalls. simpl. f_equal; [lia | by rewrite app_assoc].
Qed.

(** [k] retryable outcomes in a row, none of them the last attempt, the
    context alive throughout: the loop reaches attempt [a + k]. *)
Lemma retryLoop_retries k : forall fuel a lastErr s,
  a + Z.of_nat k <= Retries cfg ->
  (forall i, (i < k)%nat ->
     retryable (client_Do env (calls s + i)%nat req) = true) ->
  (forall i, (i < k)%nat -> ctxDone ctx (a + Z.of_nat i) = None) ->
  exists lastErr',
    retryLoop env ctx targetURL cfg (k + fuel) a lastErr r s
    = retryLoop env ctx targetURL cfg fuel (a + Z.of_nat k) lastErr' r
        (afterCalls k (retryEvents env req (Timeout cfg) k (calls s) a) s).
Proof.
  induction k as [|k IH]; intros fuel a lastErr s Hk Hretry Hctx.
  - exists lastErr. simpl. rewrite Z.add_0_r. f_equal.
    unfold afterCalls. destruct s; simpl. by rewrite app_nil_r.
  - pose proof (Hretry 0%nat ltac:(lia)) as H0. rewrite Nat.add_0_r in H0.
    pose proof (Hctx 0%nat ltac:(lia)) as C0. rewrite Z.add_0_r in C0.
    change (S k + fuel)%nat with (S (k + fuel)).
    rewrite retryLoop_retry; [| lia | exact H0 | exact C0].
    edestruct (IH fuel (a + 1) (Some (retryErr (client_Do env (calls s) req)))
                 (afterCalls 1 (attemptEvents req (Timeout cfg)
                                  (client_Do env (calls s) req)
                                ++ [EvBackoff (backoff a)]) s))
      as [lastErr' ->].
    + lia.
    + intros i Hi. simpl. replace (S (calls s + i)) with (calls s + S i)%nat by lia.
      apply Hretry. lia.
    + intros i Hi. replace (a + 1 + Z.of_nat i) with (a + Z.of_nat (S i)) by lia.
      apply Hctx. lia.
    + exists lastErr'. rewrite afterCalls_afterCalls.
      replace (a + 1 + Z.of_nat k) with (a + Z.of_nat (S k)) by lia.
      f_equal. simpl. f_equal; [lia|].
      by rewrite <- !app_assoc.
Qed.

End RetryLoop.

(** ** Request construction is repeatable *)

Lemma createProxyRequest_stable env r targetURL req r' :
  Proxy.createProxyRequest env r targetURL = (Ok req, r') ->
  Proxy.createProxyRequest env r' targetURL = (Ok req, r').
Proof.
  unfold Proxy.createProxyRequest.
  destruct (url_Parse env targetURL) as [target|e]; [|discriminate].
  destruct (Body r) as [rd|] eqn:Hbody; simpl.
  - destruct (rd_err rd) as [e|] eqn:Herr; [discriminate|]. simpl.
    destruct (Proxy.NewRequestWithContext env (Method r) target (Some (rd_data rd)))
      as [q|e] eqn:Hnew; [|discriminate].
    intros [= <- <-]. simpl. rewrite Hnew. reflexivity.
  - destruct (Proxy.NewRequestWithContext env (Method r) target None)
      as [q|e] eqn:Hnew; [|discriminate].
    intros [= <- <-]. rewrite Hbody. simpl. rewrite Hnew. reflexivity.
Qed.

Lemma retryLoop_first env ctx targetURL cfg req r r' fuel a lastErr s :
  a <= Retries cfg ->
  Proxy.createProxyRequest env r targetURL = (Ok req, r') ->
  Proxy.retryLoop env ctx targetURL cfg (S fuel) a lastErr r s
  = Proxy.retryLoop env ctx targetURL cfg (S fuel) a lastErr r' s.
Proof.
  intros Ha Hc. pose proof (createProxyRequest_stable _ _ _ _ _ Hc) as Hc'.
  simpl. assert ((a <=? Retries cfg) = true) as -> by lia. simpl.
  rewrite Hc, Hc'. reflexivity.
Qed.

Lemma backoffs_app tr1 tr2 : backoffs (tr1 ++ tr2) = backoffs tr1 ++ backoffs tr2.
Proof. apply omap_app. Qed.

Lemma upstreamCalls_app tr1 tr2 :
  upstreamCalls (tr1 ++ tr2) = upstreamCalls tr1 ++ upstreamCalls tr2.
Proof. apply omap_app. Qed.

Lemma backoffs_attemptEvents req t o : backoffs (attemptEvents req t o) = [].
Proof. by destruct o. Qed.

Lemma upstreamCalls_attemptEvents req t o :
  upstreamCalls (attemptEvents req t o) = [req].
Proof. by destruct o. Qed.

Lemma backoffs_retryEvents env req t k : forall c a,
  backoffs (retryEvents env req t k c a)
  = map (fun i => Proxy.backoff (a + Z.of_nat i)) (seq 0 k).
Proof.
  induction k as [|k IH]; intros c a; [done|].
  cbn [retryEvents]. rewrite !backoffs_app, backoffs_attemptEvents, IH.
  cbn [seq map]. rewrite Z.add_0_r. cbn. f_equal.
  rewrite <- seq_shift, map_map. apply map_ext. intros i. f_equal. lia.
Qed.

Lemma upstreamCalls_retryEvents env req t k : forall c a,
  upstreamCalls (retryEvents env req t k c a) = replicate k req.
Proof.
  induction k as [|k IH]; intros c a; [done|].
  cbn [retryEvents]. rewrite !upstreamCalls_app, upstreamCalls_attemptEvents, IH.
  reflexivity.
Qed.

Lemma last_retryEvents env req t k c a :
  last (retryEvents env req t (S k) c a)
  = Some (EvBackoff (Proxy.backoff (a + Z.of_nat k))).
Proof.
  revert c a. induction k as [|k IH]; intros c a.
  - cbn [retryEvents]. rewrite app_nil_r, Z.add_0_r.
    by rewrite last_app.
  - change (retryEvents env req t (S (S k)) c a)
      with (attemptEvents req t (client_Do env c req)
            ++ [EvBackoff (Proxy.backoff a)]
            ++ retryEvents env req t (S k) (S c) (a + 1)).
    rewrite !last_app, IH. f_equal. f_equal. f_equal. lia.
Qed.

(** ** C1: retries until success, with linear backoff *)

(** C1.  Let the service allow [R] retries and let the upstream answer
    503 to each of the first [N - 1] attempts and 200 to attempt [N],
    with [N <= R + 1].  Provided the request for the upstream can be
    built, the request context is not cancelled during the backoffs and
    the durations are representable ([(N - 1) * 100ms] fits a 64-bit
    [time.Duration]), [proxyWithRetries] returns the 200 response after
    exactly [N] calls of the upstream and [N - 1] backoff sleeps, the
    [i]-th lasting [i * 100ms]; the last thing it does is the final
    attempt, so no sleep follows it. *)
Theorem C1_retry_until_success
    env ctx r targetURL cfg s (N : nat) req r' resp :
  (1 <= N)%nat ->
  Z.of_nat N <= Retries cfg + 1 ->
  (Z.of_nat N - 1) * 100 * Millisecond <= MaxInt64 ->
  Proxy.createProxyRequest env r targetURL = (Ok req, r') ->
  (forall i, (i < N - 1)%nat ->
     exists resp_i, client_Do env (calls s + i)%nat req = Ok resp_i
                    /\ StatusCode resp_i = 503) ->
  client_Do env (calls s + (N - 1))%nat req = Ok resp ->
  StatusCode resp = 200 ->
  (forall i, (i < N - 1)%nat -> ctxDone ctx (Z.of_nat i) = None) ->
  exists evs,
    Proxy.proxyWithRetries env ctx r targetURL cfg s
    = ((Ok resp, r'), afterCalls N evs s)
    /\ upstreamCalls evs = replicate N req
    /\ backoffs evs = map (fun i => Z.of_nat i * 100 * Millisecond) (seq 1 (N - 1))
    /\ last evs = Some EvCancel.
Proof.
  intros HN HR Hrep Hcreate H503 H200 Hst Hctx.
  destruct N as [|k]; [lia|]. replace (S k - 1)%nat with k in * by lia.
  pose proof (createProxyRequest_stable _ _ _ _ _ Hcreate) as Hstable.
  unfold Proxy.proxyWithRetries.
  replace (Z.to_nat (Retries cfg + 1))
    with (S (k + (Z.to_nat (Retries cfg) - k)))%nat by lia.
  rewrite (retryLoop_first env ctx targetURL cfg req r r'); [| lia | exact Hcreate].
  change (S (k + (Z.to_nat (Retries cfg) - k)))
    with (S k + (Z.to_nat (Retries cfg) - k))%nat.
  replace (S k + (Z.to_nat (Retries cfg) - k))%nat
    with (k + S (Z.to_nat (Retries cfg) - k))%nat by lia.
  destruct (retryLoop_retries env ctx targetURL cfg req r' Hstable k
              (S (Z.to_nat (Retries cfg) - k)) 0 None s) as [lastErr' ->].
  - lia.
  - intros i Hi. destruct (H503 i Hi) as (resp_i & -> & Hs). simpl.
    rewrite Hs. reflexivity.
  - intros i Hi. rewrite Z.add_0_l. by apply Hctx.
  - rewrite (retryLoop_return env ctx targetURL cfg req r' Hstable _ _ _ _ resp).
    + rewrite afterCalls_afterCalls.
      eexists. split; [reflexivity|]. split; [|split].
      * rewrite upstreamCalls_app, upstreamCalls_retryEvents. simpl.
        change (req :: replicate k req) with (replicate (S k) req).
        by rewrite <- replicate_S_end.
      * rewrite backoffs_app, backoffs_retryEvents. simpl. rewrite app_nil_r.
        rewrite <- seq_shift, map_map. apply map_ext_in.
        intros i Hi%in_seq. rewrite Z.add_0_l.
        rewrite backoff_exact; unfold Millisecond, MaxInt64 in *; lia.
      * by rewrite last_app.
    + lia.
    + simpl. rewrite Nat.add_comm. exact H200.
    + rewrite Hst. reflexivity.
Qed.

Lemma C1_retry_until_success_witness :
  exists evs,
    Proxy.proxyWithRetries (Sample.env [503; 503; 200]) context_Background
      Sample.post "http://hcaas_web:8080/urls"
      (Sample.endpoint "http://hcaas_web:8080") Sample.world
    = ((Ok (mkResponse 200 ∅ (bytes_NewReader "ok")), Sample.post),
       afterCalls 3 evs Sample.world)
    /\ upstreamCalls evs
       = replicate 3 (mkOutbound "POST" "http://hcaas_web:8080/urls"
           (<["X-Gateway" := ["hcaas-gateway"]]>
              (<["X-Forwarded-Host" := ["gateway.example.org"]]>
                 (<["X-Forwarded-Proto" := ["http"]]>
                    (<["X-Forwarded-For" := ["10.0.0.1"]]>
                       (<["Content-Type" := ["application/json"]]> ∅)))))
           (Some "{}"))
    /\ backoffs evs = map (fun i => Z.of_nat i * 100 * Millisecond) (seq 1 (3 - 1))
    /\ last evs = Some EvCancel.
Proof.
  apply (C1_retry_until_success (Sample.env [503; 503; 200]) context_Background
           Sample.post "http://hcaas_web:8080/urls"
           (Sample.endpoint "http://hcaas_web:8080") Sample.world 3).
  - lia.
  - simpl. lia.
  - vm_compute. discriminate.
  - vm_compute. reflexivity.
  - intros i Hi. destruct i as [|[|i]]; [eexists; split; reflexivity ..| simpl in Hi; lia].
  - reflexivity.
  - reflexivity.
  - intros i Hi. reflexivity.
Defined.

(** ** The header loops *)

(** The writer's status and body are untouched by the header loop. *)
Lemma copyResponseHeaders_sent (src : list (string * list string)) : forall w : response,
  sent (Proxy.copyResponseHeaders src w) = sent w
  /\ sentBody (Proxy.copyResponseHeaders src w) = sentBody w.
Proof.
  unfold Proxy.copyResponseHeaders.
  induction src as [|[name vals] src IH]; intros w; [done|].
  cbn [foldl]. destruct (negb (Proxy.isHopByHopHeader name)); [|apply IH].
  destruct (IH (foldl (fun a value => HeaderAdd name value a) w vals)) as [-> ->].
  clear IH. revert w. induction vals as [|v vals IHv]; intros w; [done|].
  cbn [foldl]. destruct (IHv (HeaderAdd name v w)) as [-> ->]. done.
Qed.

Lemma lower_byte_idem c : lower_byte (lower_byte c) = lower_byte c.
Proof. destruct c as [[] [] [] [] [] [] [] []]; reflexivity. Qed.

Lemma lower_upper_byte c : lower_byte (upper_byte c) = lower_byte c.
Proof. destruct c as [[] [] [] [] [] [] [] []]; reflexivity. Qed.

Lemma ToLower_canonical_go s : forall upper,
  ToLower (canonical_go upper s) = ToLower s.
Proof.
  induction s as [|c s IH]; intros upper; [done|].
  cbn [canonical_go ToLower]. rewrite IH. f_equal.
  destruct upper; [apply lower_upper_byte | apply lower_byte_idem].
Qed.

Lemma ToLower_canonical key :
  ToLower (CanonicalMIMEHeaderKey key) = ToLower key.
Proof.
  unfold CanonicalMIMEHeaderKey.
  destruct (all_bytes _ _); [apply ToLower_canonical_go | done].
Qed.

(** Whether a name is hop-by-hop does not depend on its case, hence not
    on whether it is in canonical form. *)
Lemma isHopByHopHeader_canonical key :
  Proxy.isHopByHopHeader (CanonicalMIMEHeaderKey key) = Proxy.isHopByHopHeader key.
Proof. unfold Proxy.isHopByHopHeader. by rewrite ToLower_canonical. Qed.

Lemma isHopByHopHeader_case name name' :
  ToLower name = ToLower name' ->
  Proxy.isHopByHopHeader name = Proxy.isHopByHopHeader name'.
Proof. unfold Proxy.isHopByHopHeader. by intros ->. Qed.

Lemma values_Add_all name vals : forall (h : Header) key,
  values (foldl (fun a value => Add name value a) h vals) key
  = values h key
    ++ (if decide (CanonicalMIMEHeaderKey name = key) then vals else []).
Proof.
  induction vals as [|v vals IH]; intros h key; cbn [foldl].
  - destruct (decide _); by rewrite app_nil_r.
  - rewrite IH. unfold Add. rewrite values_insert.
    destruct (decide (CanonicalMIMEHeaderKey name = key)) as [->|];
      [by rewrite <- app_assoc | done].
Qed.

(** What the header loop leaves under each key. *)
Lemma values_copyHeaders src : forall (dst : Header) key,
  values (Proxy.copyHeaders src dst) key = values dst key ++ forwarded src key.
Proof.
  unfold Proxy.copyHeaders.
  induction src as [|[name vals] src IH]; intros dst key; cbn [foldl forwarded].
  - by rewrite app_nil_r.
  - destruct (negb (Proxy.isHopByHopHeader name)); cbn [andb].
    + rewrite IH, values_Add_all, <- app_assoc. f_equal. f_equal.
      by destruct (decide _); [rewrite bool_decide_eq_true_2 | rewrite bool_decide_eq_false_2].
    + by rewrite IH.
Qed.

(** Nothing is appended under a hop-by-hop name. *)
Lemma forwarded_hop src key :
  Proxy.isHopByHopHeader key = true -> forwarded src key = [].
Proof.
  intros Hhop. induction src as [|[name vals] src IH]; [done|].
  cbn [forwarded]. rewrite IH, app_nil_r.
  destruct (negb (Proxy.isHopByHopHeader name)) eqn:Hn; [|done]. cbn [andb].
  case_bool_decide as Hk; [|done].
  rewrite <- Hk, isHopByHopHeader_canonical in Hhop. by rewrite Hhop in Hn.
Qed.

(** Over canonical names, nothing is appended under a [key] that is
    not among them. *)
Lemma forwarded_absent (src : list (string * list string)) key :
  (forall name vals, (name, vals) ∈ src -> CanonicalMIMEHeaderKey name = name) ->
  key ∉ src.*1 ->
  forwarded src key = [].
Proof.
  intros Hcan Hnotin. induction src as [|[name vals] src IH]; [done|].
  rewrite fmap_cons in Hnotin. apply not_elem_of_cons in Hnotin as [Hne Hnotin].
  cbn [forwarded].
  rewrite IH; [| intros n v Hin; eapply Hcan; by right | done].
  rewrite (Hcan name vals) by left. cbn in Hne.
  rewrite bool_decide_eq_false_2, andb_false_r by done. done.
Qed.

(** Over distinct canonical names, exactly the values of [key] itself
    are appended under [key]. *)
Lemma forwarded_present (src : list (string * list string)) key vals :
  NoDup src.*1 ->
  (forall name vals, (name, vals) ∈ src -> CanonicalMIMEHeaderKey name = name) ->
  Proxy.isHopByHopHeader key = false ->
  (key, vals) ∈ src ->
  forwarded src key = vals.
Proof.
  intros Hnd Hcan Hhop Hin. induction src as [|[name vals'] src IH].
  { by apply elem_of_nil in Hin. }
  rewrite fmap_cons in Hnd. apply NoDup_cons in Hnd as [Hnotin Hnd]. cbn in Hnotin.
  cbn [forwarded]. rewrite (Hcan name vals') by left.
  assert (forall n v, (n, v) ∈ src -> CanonicalMIMEHeaderKey n = n) as Hcan'.
  { intros n v Hnv. eapply Hcan. by right. }
  apply elem_of_cons in Hin as [[= <- <-]|Hin].
  - rewrite Hhop, bool_decide_eq_true_2 by done. cbn.
    rewrite forwarded_absent by done. apply app_nil_r.
  - assert (name <> key) as Hne.
    { intros ->. apply Hnotin. apply list_elem_of_fmap. by exists (key, vals). }
    rewrite bool_decide_eq_false_2, andb_false_r by done. cbn.
    by apply IH.
Qed.

Lemma forwarded_map_to_list (h : Header) key :
  canonicalKeys h ->
  Proxy.isHopByHopHeader key = false ->
  forwarded (map_to_list h) key = values h key.
Proof.
  intros Hcan Hhop.
  assert (forall name vals, (name, vals) ∈ map_to_list h ->
                            CanonicalMIMEHeaderKey name = name) as Hcan'.
  { intros name vals Hin%elem_of_map_to_list. by eapply Hcan. }
  unfold values. destruct (h !! key) as [vals|] eqn:Hk; cbn.
  - apply forwarded_present; [apply NoDup_fst_map_to_list | done | done |].
    by apply elem_of_map_to_list.
  - apply forwarded_absent; [done|].
    intros ([n v] & -> & Hin%elem_of_map_to_list)%list_elem_of_fmap.
    cbn in Hk. congruence.
Qed.

Lemma lookup_Add_all_ne name vals : forall (h : Header) key,
  CanonicalMIMEHeaderKey name <> key ->
  foldl (fun a value => Add name value a) h vals !! key = h !! key.
Proof.
  induction vals as [|v vals IH]; intros h key Hne; cbn [foldl]; [done|].
  rewrite IH by done. unfold Add. by rewrite lookup_insert_ne.
Qed.

(** The header loop leaves the entry of a hop-by-hop name as it was. *)
Lemma lookup_copyHeaders_hop src : forall (dst : Header) key,
  Proxy.isHopByHopHeader key = true ->
  Proxy.copyHeaders src dst !! key = dst !! key.
Proof.
  unfold Proxy.copyHeaders.
  induction src as [|[name vals] src IH]; intros dst key Hhop; cbn [foldl]; [done|].
  rewrite IH by done.
  destruct (negb (Proxy.isHopByHopHeader name)) eqn:Hn; [|done].
  apply lookup_Add_all_ne. intros <-.
  rewrite isHopByHopHeader_canonical in Hhop. by rewrite Hhop in Hn.
Qed.

(** On the server's writer, the loop of [copyResponse] is the loop of
    [createProxyRequest] run on the writer's header map. *)
Lemma copyResponseHeaders_header src : forall w : response,
  handlerHeader (Proxy.copyResponseHeaders src w)
  = Proxy.copyHeaders src (handlerHeader w).
Proof.
  unfold Proxy.copyResponseHeaders, Proxy.copyHeaders.
  induction src as [|[name vals] src IH]; intros w; cbn [foldl]; [done|].
  rewrite IH. f_equal.
  destruct (negb (Proxy.isHopByHopHeader name)); [|done].
  clear. revert w. induction vals as [|v vals IH]; intros w; cbn [foldl]; [done|].
  by rewrite IH.
Qed.

(** The headers the client receives from [copyResponse]. *)
Lemma copyResponse_sentHeader (w : response) resp :
  sent w = None ->
  sentHeader (Proxy.copyResponse w resp).2
  = Proxy.copyHeaders (map_to_list (rHeader resp)) (handlerHeader w).
Proof.
  intros Hw. unfold Proxy.copyResponse, Proxy.io_Copy. cbn [snd].
  destruct (copyResponseHeaders_sent (map_to_list (rHeader resp)) w) as [Hs _].
  rewrite Hw in Hs.
  assert (forall w0 : response, sent w0 = None ->
            sentHeader (WriteHeader (StatusCode resp) w0) = handlerHeader w0
            /\ forall data, sentHeader (Write data (WriteHeader (StatusCode resp) w0))
                            = handlerHeader w0) as Hwr.
  { intros w0 H0. cbn. unfold response_Write, response_WriteHeader, sentHeader.
    rewrite H0. cbn. done. }
  destruct (Hwr _ Hs) as [H1 H2].
  case_bool_decide; [rewrite H1 | rewrite H2]; apply copyResponseHeaders_header.
Qed.

(** The headers of the request [createProxyRequest] builds. *)
Lemma createProxyRequest_header env r targetURL req r' :
  Proxy.createProxyRequest env r targetURL = (Ok req, r') ->
  pHeader req
  = Set_ "X-Gateway" "hcaas-gateway"
      (Set_ "X-Forwarded-Host" (Host r)
         (Set_ "X-Forwarded-Proto" (Proxy.getScheme r)
            (Set_ "X-Forwarded-For" (Proxy.getClientIP r)
               (Proxy.copyHeaders (map_to_list (Header_ r)) ∅)))).
Proof.
  unfold Proxy.createProxyRequest.
  destruct (url_Parse env targetURL) as [target|e]; [|discriminate].
  assert (forall body q, Proxy.NewRequestWithContext env (Method r) target body = Ok q ->
                         pHeader q = ∅) as Hnew.
  { intros body q. unfold Proxy.NewRequestWithContext.
    destruct (negb _); [discriminate|].
    destruct (url_Parse env target); [|discriminate]. by intros [= <-]. }
  destruct (Body r) as [rd|] eqn:Hbody; simpl.
  - destruct (rd_err rd) as [e|]; [discriminate|]. simpl.
    destruct (Proxy.NewRequestWithContext _ _ _ _) as [q|e] eqn:Hq; [|discriminate].
    intros [= <- <-]. simpl. by rewrite (Hnew _ _ Hq).
  - destruct (Proxy.NewRequestWithContext _ _ _ _) as [q|e] eqn:Hq; [|discriminate].
    intros [= <- <-]. simpl. by rewrite (Hnew _ _ Hq).
Qed.

(** ** C2: which statuses are retried *)

Lemma shouldRetry_iff (s : Z) :
  Proxy.shouldRetry s = true <-> 500 <= s /\ s <> 501.
Proof. unfold Proxy.shouldRetry. lia. Qed.

(** C2.  A status is retried iff it is at least 500 and not 501.  When
    the upstream answers 501 to the first attempt (as it does when it
    always answers 501), [proxyWithRetries] returns that very response
    after one call of the upstream and no backoff, whatever the number of
    retries allowed, provided that number is not negative and the request
    for the upstream can be built.  [copyResponse] then relays it to the
    client: the status 501, the bytes of the upstream's body, and every
    header of the upstream's response with all its values, after any the
    writer already held under that name, the hop-by-hop headers apart,
    which are never relayed.  (The upstream's header map is keyed by
    canonical names, as net/http builds it.) *)
Theorem C2_retryable_statuses :
  (forall s : Z, Proxy.shouldRetry s = true <-> 500 <= s /\ s <> 501)
  /\ (forall env ctx r targetURL cfg s req r' resp,
        0 <= Retries cfg ->
        Proxy.createProxyRequest env r targetURL = (Ok req, r') ->
        client_Do env (calls s) req = Ok resp ->
        StatusCode resp = 501 ->
        Proxy.proxyWithRetries env ctx r targetURL cfg s
        = ((Ok resp, r'), afterCalls 1 [EvDo req (Timeout cfg); EvCancel] s)
        /\ forall w : response,
             sent w = None ->
             status (snd (Proxy.copyResponse w resp)) = Some 501
             /\ sentBody (snd (Proxy.copyResponse w resp))
                = sentBody w +:+ rd_data (rBody resp)
             /\ (canonicalKeys (rHeader resp) ->
                 forall name,
                   Proxy.isHopByHopHeader name = false ->
                   values (sentHeader (snd (Proxy.copyResponse w resp))) name
                   = values (handlerHeader w) name ++ values (rHeader resp) name)
             /\ (forall name,
                   Proxy.isHopByHopHeader name = true ->
                   sentHeader (snd (Proxy.copyResponse w resp)) !! name
                   = handlerHeader w !! name)).
Proof.
  split; [exact shouldRetry_iff|].
  intros env ctx r targetURL cfg s req r' resp HR Hcreate Hdo Hst. split.
  - pose proof (createProxyRequest_stable _ _ _ _ _ Hcreate) as Hstable.
    unfold Proxy.proxyWithRetries.
    replace (Z.to_nat (Retries cfg + 1)) with (S (Z.to_nat (Retries cfg))) by lia.
    rewrite (retryLoop_first env ctx targetURL cfg req r r'); [| lia | exact Hcreate].
    apply (retryLoop_return env ctx targetURL cfg req r' Hstable); [lia | exact Hdo |].
    rewrite Hst. reflexivity.
  - intros w Hw. split; [|split; [|split]].
    + unfold Proxy.copyResponse, Proxy.io_Copy. cbn [snd].
      destruct (copyResponseHeaders_sent (map_to_list (rHeader resp)) w) as [Hs Hb].
      rewrite Hw in Hs.
      case_bool_decide as Hempty.
      * cbn. unfold response_WriteHeader, status. rewrite Hs. cbn. by rewrite Hst.
      * cbn. unfold response_Write, response_WriteHeader, status. rewrite Hs. cbn.
        by rewrite Hst.
    + unfold Proxy.copyResponse, Proxy.io_Copy. cbn [snd].
      destruct (copyResponseHeaders_sent (map_to_list (rHeader resp)) w) as [Hs Hb].
      rewrite Hw in Hs.
      case_bool_decide as Hempty.
      * cbn. unfold response_WriteHeader. rewrite Hs. cbn.
        rewrite Hb, Hempty. by rewrite append_empty_r.
      * cbn. unfold response_Write, response_WriteHeader. rewrite Hs. cbn.
        by rewrite Hb.
    + intros Hcan name Hhop. cbn [snd].
      rewrite (copyResponse_sentHeader _ _ Hw), values_copyHeaders. f_equal.
      by apply forwarded_map_to_list.
    + intros name Hhop. cbn [snd]. rewrite (copyResponse_sentHeader _ _ Hw).
      by apply lookup_copyHeaders_hop.
Qed.

Lemma C2_retryable_statuses_witness :
  Proxy.proxyWithRetries (Sample.answering Sample.unimplemented) context_Background
    Sample.post "http://hcaas_web:8080/urls"
    (Sample.endpoint "http://hcaas_web:8080") Sample.world
  = ((Ok Sample.unimplemented, Sample.post),
     afterCalls 1 [EvDo Sample.outbound (10 * Second); EvCancel] Sample.world)
  /\ status (snd (Proxy.copyResponse newResponse Sample.unimplemented)) = Some 501
  /\ sentBody (snd (Proxy.copyResponse newResponse Sample.unimplemented))
     = "not implemented"
  /\ values (sentHeader (snd (Proxy.copyResponse newResponse Sample.unimplemented)))
            "Allow"
     = ["GET"; "HEAD"]
  /\ sentHeader (snd (Proxy.copyResponse newResponse Sample.unimplemented))
     !! "Keep-Alive" = None.
Proof.
  destruct (proj2 C2_retryable_statuses (Sample.answering Sample.unimplemented)
              context_Background Sample.post "http://hcaas_web:8080/urls"
              (Sample.endpoint "http://hcaas_web:8080") Sample.world
              Sample.outbound Sample.post Sample.unimplemented) as [Hp Hw].
  - simpl. lia.
  - vm_compute. reflexivity.
  - reflexivity.
  - reflexivity.
  - destruct (Hw newResponse eq_refl) as (Hst & Hb & Hh & Hhop).
    split; [exact Hp|]. split; [exact Hst|]. split; [exact Hb|]. split.
    + apply (Hh ltac:(apply (bool_decide_unpack _); vm_compute; exact I) "Allow").
      reflexivity.
    + apply (Hhop "Keep-Alive"). reflexivity.
Defined.

(** ** C4: cancellation during a backoff *)

(** C4.  Let attempts [0 .. k] all have retryable outcomes, attempt [k]
    not being the last one allowed, and let the request context be done
    during the backoff after attempt [k] (and not during an earlier one).
    Then [proxyWithRetries] returns the context's error itself as its
    result; it has called the upstream [k + 1] times and the last thing
    it did was to enter that backoff: no further attempt is started. *)
Theorem C4_cancel_during_backoff
    env ctx r targetURL cfg s (k : nat) e req r' :
  Z.of_nat k < Retries cfg ->
  Proxy.createProxyRequest env r targetURL = (Ok req, r') ->
  (forall i, (i <= k)%nat ->
     retryable (client_Do env (calls s + i)%nat req) = true) ->
  (forall i, (i < k)%nat -> ctxDone ctx (Z.of_nat i) = None) ->
  ctxDone ctx (Z.of_nat k) = Some e ->
  exists evs,
    Proxy.proxyWithRetries env ctx r targetURL cfg s
    = ((Err e, r'), afterCalls (S k) evs s)
    /\ upstreamCalls evs = replicate (S k) req
    /\ last evs = Some (EvBackoff (Proxy.backoff (Z.of_nat k))).
Proof.
  intros Hk Hcreate Hretry Hctx Hdone.
  pose proof (createProxyRequest_stable _ _ _ _ _ Hcreate) as Hstable.
  unfold Proxy.proxyWithRetries.
  replace (Z.to_nat (Retries cfg + 1))
    with (S (k + (Z.to_nat (Retries cfg) - k)))%nat by lia.
  rewrite (retryLoop_first env ctx targetURL cfg req r r'); [| lia | exact Hcreate].
  change (S (k + (Z.to_nat (Retries cfg) - k)))
    with (S k + (Z.to_nat (Retries cfg) - k))%nat.
  replace (S k + (Z.to_nat (Retries cfg) - k))%nat
    with (k + S (Z.to_nat (Retries cfg) - k))%nat by lia.
  destruct (retryLoop_retries env ctx targetURL cfg req r' Hstable k
              (S (Z.to_nat (Retries cfg) - k)) 0 None s) as [lastErr' ->].
  - lia.
  - intros i Hi. apply Hretry. lia.
  - intros i Hi. rewrite Z.add_0_l. by apply Hctx.
  - rewrite (retryLoop_cancel env ctx targetURL cfg req r' Hstable _ _ _ _ e).
    + rewrite afterCalls_afterCalls.
      eexists. split; [reflexivity|]. split.
      * rewrite !upstreamCalls_app, upstreamCalls_retryEvents,
          upstreamCalls_attemptEvents. simpl.
        change (req :: replicate k req) with (replicate (S k) req).
        by rewrite <- replicate_S_end.
      * rewrite !last_app. simpl. by rewrite Z.add_0_l.
    + lia.
    + simpl. rewrite Nat.add_comm. apply Hretry. lia.
    + rewrite Z.add_0_l. exact Hdone.
Qed.

Lemma C4_cancel_during_backoff_witness :
  exists evs,
    Proxy.proxyWithRetries (Sample.env [503; 502; 200]) Sample.cancelled
      Sample.post "http://hcaas_web:8080/urls"
      (Sample.endpoint "http://hcaas_web:8080") Sample.world
    = ((Err context_Canceled, Sample.post), afterCalls 2 evs Sample.world)
    /\ upstreamCalls evs
       = replicate 2 (mkOutbound "POST" "http://hcaas_web:8080/urls"
           (<["X-Gateway" := ["hcaas-gateway"]]>
              (<["X-Forwarded-Host" := ["gateway.example.org"]]>
                 (<["X-Forwarded-Proto" := ["http"]]>
                    (<["X-Forwarded-For" := ["10.0.0.1"]]>
                       (<["Content-Type" := ["application/json"]]> ∅)))))
           (Some "{}"))
    /\ last evs = Some (EvBackoff (Proxy.backoff 1)).
Proof.
  apply (C4_cancel_during_backoff (Sample.env [503; 502; 200]) Sample.cancelled
           Sample.post "http://hcaas_web:8080/urls"
           (Sample.endpoint "http://hcaas_web:8080") Sample.world 1).
  - simpl. lia.
  - vm_compute. reflexivity.
  - intros i Hi. destruct i as [|[|i]]; [reflexivity ..| lia].
  - intros i Hi. destruct i as [|i]; [reflexivity | lia].
  - reflexivity.
Defined.

(** ** C3: the body is delivered intact and stays readable *)

(** C3.  Let a request carry a non-empty body that can be read to its
    end, and let the target URL and the method be acceptable to
    [url.Parse] and [http.NewRequestWithContext].  Then
    [createProxyRequest] succeeds; the body of the request it builds for
    the upstream is, byte for byte, the inbound body; the original
    request is left with a fresh reader that yields the same bytes from
    the start; and building the request again from it (a retry) gives the
    same outbound request, body included, and leaves it unchanged. *)
Theorem C3_body_delivered_and_restored env r targetURL rd target q :
  Body r = Some rd ->
  rd_err rd = None ->
  rd_data rd <> EmptyString ->
  url_Parse env targetURL = Ok target ->
  Proxy.NewRequestWithContext env (Method r) target (Some (rd_data rd)) = Ok q ->
  exists req r',
    Proxy.createProxyRequest env r targetURL = (Ok req, r')
    /\ pBody req = Some (rd_data rd)
    /\ Body r' = Some (bytes_NewReader (rd_data rd))
    /\ (exists rd', Body r' = Some rd'
                    /\ (ReadAll rd').1 = (rd_data rd, None))
    /\ Proxy.createProxyRequest env r' targetURL = (Ok req, r').
Proof.
  intros Hbody Herr Hne Hparse Hnew.
  assert (pBody q = Some (rd_data rd)) as Hq.
  { unfold Proxy.NewRequestWithContext in Hnew.
    destruct (negb _); [discriminate|].
    destruct (url_Parse env target); [|discriminate].
    by injection Hnew as <-. }
  assert (exists req r', Proxy.createProxyRequest env r targetURL = (Ok req, r')
            /\ pBody req = Some (rd_data rd)
            /\ Body r' = Some (bytes_NewReader (rd_data rd)))
    as (req & r' & Hc & Hb & Hr).
  { unfold Proxy.createProxyRequest. rewrite Hparse, Hbody. simpl.
    rewrite Herr. simpl. rewrite Hnew. eexists _, _. split; [reflexivity|].
    simpl. by rewrite Hq. }
  exists req, r'. repeat split; try done.
  - exists (bytes_NewReader (rd_data rd)). by split.
  - by apply createProxyRequest_stable with r.
Qed.

Lemma C3_body_delivered_and_restored_witness :
  exists req r',
    Proxy.createProxyRequest (Sample.env []) Sample.post "http://hcaas_web:8080/urls"
    = (Ok req, r')
    /\ pBody req = Some "{}"
    /\ Body r' = Some (bytes_NewReader "{}")
    /\ (exists rd', Body r' = Some rd' /\ (ReadAll rd').1 = ("{}", None))
    /\ Proxy.createProxyRequest (Sample.env []) r' "http://hcaas_web:8080/urls"
       = (Ok req, r').
Proof.
  apply (C3_body_delivered_and_restored (Sample.env []) Sample.post
           "http://hcaas_web:8080/urls" (bytes_NewReader "{}")
           "http://hcaas_web:8080/urls"
           (mkOutbound "POST" "http://hcaas_web:8080/urls" ∅ (Some "{}"))).
  - reflexivity.
  - reflexivity.
  - discriminate.
  - reflexivity.
  - reflexivity.
Defined.

(** ** C5: hop-by-hop headers *)




(** ** C6: classification of proxy failures *)

Lemma determineTarget_unrouted cfg r :
  routed (Path r) = false ->
  Proxy.determineTarget cfg r
  = Err (errorString ("no route found for path: " +:+ Path r)).
Proof.
  unfold routed, routePrefixes, Proxy.determineTarget. cbn [existsb].
  intros H. repeat (apply orb_false_elim in H as [? H]).
  by repeat match goal with Hp : HasPrefix _ _ = false |- _ => rewrite Hp; clear Hp end.
Qed.




(** The class is read off the text alone.  The error of a request whose
    context deadline expires during a backoff reads "failed to proxy
    request: context deadline exceeded", which names neither a route, a
    timeout nor a connection: it is answered 500/PROXY_ERROR. *)
Example classify_deadline :
  GatewayHandler.classify
    (Error (Errorf_w "failed to proxy request: " (Some context_DeadlineExceeded)))
  = (500, "Internal server error", "PROXY_ERROR").
Proof. reflexivity. Qed.



(** ** C7: rejection by the rate limiter *)

(** The middleware charges the bucket, then rejects or passes on. *)
Lemma Middleware_charged rl next W (inst : ResponseWriter W) r w s :
  RateLimit.Middleware rl next W inst r w s
  = (if negb (charged rl r s).1
     then RateLimit.handleRateLimitExceeded rl w r (RateLimit.getClientIP r)
            (charged rl r s).2
     else next W inst r w (charged rl r s).2).
Proof.
  unfold RateLimit.Middleware, charged. unfold mbind, M_bind.
  destruct (RateLimit.getLimiter rl (RateLimit.getClientIP r) s) as [lim s1].
  by destruct (RateLimit.Allow (RateLimit.getClientIP r) lim s1) as [[] s2].
Qed.

(** What charging the bucket does. *)
Lemma charged_spec rl r s :
  (charged rl r s).1
  = (Second <=? Rate.advance (clientBucket rl r s) (allowTime s))
  /\ limiters (charged rl r s).2
     = <[RateLimit.getClientIP r :=
           (Rate.AllowAt (clientBucket rl r s) (allowTime s)).2]> (limiters s)
  /\ calls (charged rl r s).2 = calls s
  /\ trace (charged rl r s).2 = trace s
  /\ now (charged rl r s).2 = allowTime s
  /\ now s <= now (charged rl r s).2
  /\ horizon (charged rl r s).2 = horizon s.
Proof.
  unfold charged, RateLimit.getLimiter, RateLimit.Allow, RateLimit.lookupOrCreate,
    RateLimit.touch, RateLimit.store, clientBucket, allowTime, horizon,
    RateLimit.set_limiters, RateLimit.set_lastAccess.
  unfold mbind, M_bind, mret, M_ret, time_Now, Rate.AllowAt.
  destruct s as [t0 tks c ls la tr]. cbn [limiters ticks now calls trace lastAccess].
  destruct (ls !! RateLimit.getClientIP r) as [lim|] eqn:Hl; cbn;
    destruct tks as [|d1 [|d2 tl]]; cbn;
    match goal with |- context [Second <=? ?x] => destruct (Second <=? x) end; cbn;
    rewrite ?insert_insert_eq; repeat split; try done; lia.
Qed.

Lemma rejected_written rl remaining (w : response) :
  sent w = None ->
  rejected rl remaining
    (Write RateLimit.errorResponse
       (WriteHeader StatusTooManyRequests
          (HeaderSet "Content-Type" "application/json"
             (HeaderSet "Access-Control-Allow-Headers" "Authorization, Content-Type"
                (HeaderSet "Access-Control-Allow-Methods" "GET, POST, PUT, DELETE, OPTIONS"
                   (HeaderSet "Access-Control-Allow-Origin" "*"
                      (HeaderSet "Retry-After" (Itoa 60)
                         (HeaderSet "X-RateLimit-Reset" (Itoa 60)
                            (HeaderSet "X-RateLimit-Remaining" (Itoa remaining)
                               (HeaderSet "X-RateLimit-Limit"
                                  (Itoa (RateLimit.requestsPerSecond rl)) w)))))))))).
Proof.
  intros Hw. unfold rejected.
  match goal with |- context [Write ?d (WriteHeader ?c ?w0)] =>
    destruct (written w0 c d) as (-> & -> & _); [by writer_simpl|] end.
  writer_simpl.
  split; [done|]. repeat split; by header_get.
Qed.

(** The writer calls of [handleRateLimitExceeded], and what it leaves of
    the world. *)
Lemma handleRateLimitExceeded_run rl W (inst : ResponseWriter W) (w : W) r c s :
  (RateLimit.handleRateLimitExceeded rl w r c s).1
  = Write RateLimit.errorResponse
      (WriteHeader StatusTooManyRequests
         (HeaderSet "Content-Type" "application/json"
            (HeaderSet "Access-Control-Allow-Headers" "Authorization, Content-Type"
               (HeaderSet "Access-Control-Allow-Methods" "GET, POST, PUT, DELETE, OPTIONS"
                  (HeaderSet "Access-Control-Allow-Origin" "*"
                     (HeaderSet "Retry-After" (Itoa 60)
                        (HeaderSet "X-RateLimit-Reset" (Itoa 60)
                           (HeaderSet "X-RateLimit-Remaining"
                              (Itoa (Rate.TokensAt (bucketOf rl c s) (time_Now s).1))
                              (HeaderSet "X-RateLimit-Limit"
                                 (Itoa (RateLimit.requestsPerSecond rl)) w)))))))))
  /\ limiters (RateLimit.handleRateLimitExceeded rl w r c s).2 = limiters s
  /\ calls (RateLimit.handleRateLimitExceeded rl w r c s).2 = calls s
  /\ upstreamCalls (trace (RateLimit.handleRateLimitExceeded rl w r c s).2)
     = upstreamCalls (trace s)
  /\ now s <= now (RateLimit.handleRateLimitExceeded rl w r c s).2
  /\ horizon (RateLimit.handleRateLimitExceeded rl w r c s).2 = horizon s.
Proof.
  unfold RateLimit.handleRateLimitExceeded, RateLimit.getLimiterForIP,
    RateLimit.Tokens, bucketOf, horizon.
  unfold mbind, M_bind, mret, M_ret, metric, log, emit, time_Now.
  destruct s as [t0 tks n ls la tr]. cbn [limiters ticks now calls trace lastAccess].
  destruct (ls !! c) as [lim|]; destruct tks as [|d tl];
    cbn [fst snd limiters ticks now calls trace lastAccess default foldr];
    rewrite ?upstreamCalls_app, ?app_nil_r;
    (repeat split; try reflexivity; lia).
Qed.

(** What [handleRateLimitExceeded] sends on a writer that has sent
    nothing. *)
Lemma handleRateLimitExceeded_spec rl (w : response) r c s :
  sent w = None ->
  rejected rl (Rate.TokensAt (bucketOf rl c s) (time_Now s).1)
    (RateLimit.handleRateLimitExceeded rl w r c s).1
  /\ sentBody (RateLimit.handleRateLimitExceeded rl w r c s).1
     = sentBody w +:+ RateLimit.errorResponse.
Proof.
  intros Hw.
  destruct (handleRateLimitExceeded_run rl response _ w r c s) as (-> & _).
  split; [by apply rejected_written|].
  match goal with |- context [Write ?d (WriteHeader ?code ?w0)] =>
    destruct (written w0 code d) as (_ & _ & ->); [by writer_simpl|] end.
  by writer_simpl.
Qed.

Lemma advance_nonneg lim t :
  0 <= Rate.tokens lim -> 0 <= Rate.burst lim -> 0 <= Rate.limit lim ->
  0 <= Rate.advance lim t.
Proof.
  intros Ht Hb Hl. unfold Rate.advance, Second.
  destruct (Rate.last lim) as [l|]; [|done].
  apply Z.min_glb; [lia|].
  pose proof (Z.mul_nonneg_nonneg (Rate.limit lim) (Z.max 0 (t - l)) Hl ltac:(lia)).
  lia.
Qed.

Lemma TokensAt_nonneg lim t :
  0 <= Rate.tokens lim -> 0 <= Rate.burst lim -> 0 <= Rate.limit lim ->
  0 <= Rate.TokensAt lim t.
Proof.
  intros Ht Hb Hl. unfold Rate.TokensAt.
  apply Z.quot_pos; [by apply advance_nonneg | unfold Second; lia].
Qed.

Lemma clientBucket_ok rl r s :
  0 <= RateLimit.requestsPerSecond rl ->
  0 <= RateLimit.burstSize rl ->
  registryOk rl s ->
  Rate.limit (clientBucket rl r s) = RateLimit.requestsPerSecond rl
  /\ Rate.burst (clientBucket rl r s) = RateLimit.burstSize rl
  /\ 0 <= Rate.tokens (clientBucket rl r s).
Proof.
  intros Hr Hb Hok. unfold clientBucket.
  destruct (limiters s !! RateLimit.getClientIP r) as [lim|] eqn:Hl; cbn.
  - exact (Hok _ _ Hl).
  - unfold Second. repeat split; lia.
Qed.

(** The registry the middleware starts with is in order, and charging a
    bucket keeps it so. *)
Lemma registryOk_charged rl r s :
  0 <= RateLimit.requestsPerSecond rl ->
  0 <= RateLimit.burstSize rl ->
  registryOk rl s ->
  registryOk rl (charged rl r s).2.
Proof.
  intros Hr Hb Hok. unfold registryOk.
  destruct (charged_spec rl r s) as (_ & -> & _).
  apply map_Forall_insert_2; [|exact Hok].
  destruct (clientBucket_ok rl r s Hr Hb Hok) as (Hlim & Hbur & Htok).
  unfold Rate.AllowAt.
  destruct (Second <=? Rate.advance (clientBucket rl r s) (allowTime s)) eqn:Hle;
    cbn [snd Rate.limit Rate.burst Rate.tokens]; [|done].
  repeat split; [done..|]. lia.
Qed.


Lemma windowInv_later rl client t0 deadline i s s' :
  windowInv rl client t0 deadline i s ->
  limiters s' = limiters s ->
  now s <= now s' ->
  horizon s' <= horizon s ->
  windowInv rl client t0 deadline i s'.
Proof.
  unfold windowInv, bucketOf. intros (H0 & Hh & Hl & Hb & Hlev) Hlim Hnow Hhor.
  rewrite Hlim. repeat split; try done; try lia.
  - apply Hlev. lia.
  - apply Hlev. lia.
Qed.

(** One request of the window. *)
Lemma windowInv_step rl next client t0 deadline (i : nat) r s :
  0 <= RateLimit.requestsPerSecond rl ->
  0 <= RateLimit.burstSize rl ->
  RateLimit.requestsPerSecond rl * (deadline - t0) < Second ->
  quiet next ->
  RateLimit.getClientIP r = client ->
  windowInv rl client t0 deadline (Z.of_nat i) s ->
  windowInv rl client t0 deadline (Z.of_nat (S i))
            (RateLimit.Middleware rl next response _ r newResponse s).2
  /\ (RateLimit.burstSize rl <= Z.of_nat i ->
      rateLimited rl newResponse
        (RateLimit.Middleware rl next response _ r newResponse s).1).
Proof.
  intros Hr Hb Hwin Hquiet Hc Hinv. rewrite Middleware_charged.
  destruct (charged_spec rl r s) as (Hok & Hl & _ & _ & Hnow & Hle & Hhor).
  pose proof Hinv as (H0 & Hh & Hlim & Hbur & Hlev).
  assert (clientBucket rl r s = bucketOf rl client s) as Hbk
    by (unfold clientBucket, bucketOf; by rewrite Hc).
  rewrite Hbk in Hok, Hl. rewrite Hc in Hl |- *.
  set (t2 := allowTime s) in *. set (lim := bucketOf rl client s) in *.
  set (B := RateLimit.burstSize rl) in *.
  set (rps := RateLimit.requestsPerSecond rl) in *.
  assert (now s <= t2) as Ht2 by lia.
  assert (t2 <= deadline) as Ht2d.
  { pose proof (now_le_horizon (charged rl r s).2). lia. }
  destruct (Hlev t2 Ht2) as [Hlo Hhi].
  assert (rps * (t2 - t0) <= rps * (deadline - t0)) as Hmono
    by (apply Z.mul_le_mono_nonneg_l; lia).
  destruct (Z_lt_le_dec (Z.of_nat i) B) as [Hlt|Hge].
  - (* a token is left: the request passes *)
    rewrite Z.min_l in Hlo, Hhi by lia.
    assert ((Second <=? Rate.advance lim t2) = true) as Hyes
      by (unfold Second in *; lia).
    rewrite Hok, Hyes. cbn [negb]. split; [|lia].
    destruct (Hquiet response _ r newResponse (charged rl r s).2) as (Hql & Hqn & Hqh).
    apply windowInv_later with (charged rl r s).2; [|done..].
    unfold windowInv, bucketOf. rewrite Hl, lookup_insert_eq. cbn [default]; unfold id.
    unfold Rate.AllowAt. fold lim. rewrite Hyes. cbn [snd Rate.limit Rate.burst].
    fold B rps. set (level := Rate.advance lim t2) in *.
    repeat split; try lia.
    + unfold Rate.advance. cbn [Rate.last Rate.burst Rate.tokens Rate.limit].
      rewrite (Z.min_l (Z.of_nat (S i)) B) by lia. rewrite Hlim, Hbur. fold B rps.
      pose proof (Z.mul_nonneg_nonneg rps (Z.max 0 (t - t2)) Hr ltac:(lia)).
      unfold Second in *. lia.
    + unfold Rate.advance. cbn [Rate.last Rate.burst Rate.tokens Rate.limit].
      rewrite (Z.min_l (Z.of_nat (S i)) B) by lia. rewrite Hlim, Hbur. fold B rps.
      rewrite (Z.max_r 0 (t - t2)) by lia.
      replace (rps * (t - t0)) with (rps * (t2 - t0) + rps * (t - t2)) by ring.
      unfold Second in *. lia.
  - (* no token is left: the request is turned away *)
    rewrite Z.min_r in Hlo, Hhi by lia.
    assert ((Second <=? Rate.advance lim t2) = false) as Hno by lia.
    rewrite Hok, Hno. cbn [negb].
    destruct (handleRateLimitExceeded_spec rl newResponse r client
                (charged rl r s).2 eq_refl) as (Hrej & Hbody).
    destruct (handleRateLimitExceeded_run rl response _ newResponse r client
                (charged rl r s).2) as (_ & Hkl & _ & _ & Hkn & Hkh).
    assert (limiters (charged rl r s).2 !! client = Some lim) as Hstored.
    { rewrite Hl, lookup_insert_eq. unfold Rate.AllowAt. fold lim.
      by rewrite Hno. }
    split.
    + apply windowInv_later with (charged rl r s).2; [|done|lia|lia].
      unfold windowInv, bucketOf. rewrite Hstored. cbn [default]; unfold id. fold B rps.
      split; [lia|]. split; [lia|]. split; [done|]. split; [done|].
      intros t Ht. destruct (Hlev t ltac:(lia)) as [Hlo' Hhi'].
      rewrite Z.min_r in Hlo', Hhi' by lia.
      rewrite (Z.min_r (Z.of_nat (S i)) B) by lia. by split.
    + intros _. eexists. split; [|split; [exact Hrej | exact Hbody]].
      unfold bucketOf. rewrite Hstored. cbn [default]; unfold id. unfold Rate.TokensAt.
      apply Z.quot_pos; [|unfold Second; lia].
      assert (now s <= (time_Now (charged rl r s).2).1) as Ht3.
      { unfold time_Now. destruct (ticks (charged rl r s).2); cbn; lia. }
      destruct (Hlev _ Ht3) as [Hlo3 _]. lia.
Qed.

(** A bucket that is full stays full. *)
Lemma full_stays lim t t' :
  0 <= Rate.limit lim ->
  Rate.advance lim t = Rate.burst lim * Second ->
  t <= t' ->
  Rate.advance lim t' = Rate.burst lim * Second.
Proof.
  unfold Rate.advance. intros Hl Hfull Ht.
  destruct (Rate.last lim) as [l|]; [|done].
  assert (Rate.limit lim * Z.max 0 (t - l) <= Rate.limit lim * Z.max 0 (t' - l))
    by (apply Z.mul_le_mono_nonneg_l; lia).
  lia.
Qed.

Lemma windowInv_start rl client s :
  0 <= RateLimit.requestsPerSecond rl ->
  0 <= RateLimit.burstSize rl ->
  registryOk rl s ->
  Rate.advance (bucketOf rl client s) (now s) = RateLimit.burstSize rl * Second ->
  windowInv rl client (now s) (horizon s) 0 s.
Proof.
  intros Hr Hb Hok Hfull.
  assert (Rate.limit (bucketOf rl client s) = RateLimit.requestsPerSecond rl
          /\ Rate.burst (bucketOf rl client s) = RateLimit.burstSize rl)
    as [Hlim Hbur].
  { unfold bucketOf. destruct (limiters s !! client) as [lim|] eqn:Hl; cbn; [|done].
    destruct (Hok _ _ Hl) as (? & ? & _). done. }
  unfold windowInv. rewrite Z.min_l by lia. rewrite Z.sub_0_r.
  repeat split; try done; try lia.
  - rewrite (full_stays _ (now s) t); lia.
  - rewrite (full_stays _ (now s) t); try lia.
    pose proof (Z.mul_nonneg_nonneg (RateLimit.requestsPerSecond rl) (t - now s) Hr
                  ltac:(lia)). lia.
Qed.




(** ** C8: the bearer credential *)

Lemma lower_byte_space c :
  Ascii.eqb (lower_byte c) " "%char = Ascii.eqb c " "%char.
Proof. destruct c as [[] [] [] [] [] [] [] []]; reflexivity. Qed.

Lemma nospace_ToLower s : nospace (ToLower s) = nospace s.
Proof.
  unfold nospace. induction s as [|c s IH]; [done|].
  cbn [ToLower all_bytes]. by rewrite IH, lower_byte_space.
Qed.

(** The text before the first space holds no space, and the pieces
    make up the whole. *)
Lemma Cut_space_found h : forall before after,
  Cut h " " = (before, after, true) ->
  h = before +:+ " " +:+ after /\ nospace before = true.
Proof.
  induction h as [|c h IH]; intros before after; cbn [Cut HasPrefix].
  - discriminate.
  - destruct (Ascii.eqb " " c) eqn:Hc.
    + apply Ascii.eqb_eq in Hc. subst c. cbn [skip].
      rewrite HasPrefix_empty, skip_empty. by intros [= <- <-].
    + destruct (Cut h " ") as [[b a] f]. intros [= <- <- ->].
      destruct (IH b a eq_refl) as [-> Hb]. split; [done|].
      unfold nospace in *. cbn [all_bytes]. rewrite Hb.
      by rewrite Ascii.eqb_sym, Hc.
Qed.

Lemma Cut_space_nospace before after :
  nospace before = true ->
  Cut (before +:+ " " +:+ after) " " = (before, after, true).
Proof.
  unfold nospace. induction before as [|c b IH]; intros Hb.
  - change (EmptyString +:+ " " +:+ after) with (String " " after).
    cbn [Cut HasPrefix skip].
    by rewrite Ascii.eqb_refl, HasPrefix_empty, skip_empty.
  - cbn [all_bytes] in Hb. apply andb_prop in Hb as [Hc Hb].
    rewrite append_cons. cbn [Cut HasPrefix].
    rewrite Ascii.eqb_sym. apply negb_true_iff in Hc. rewrite Hc.
    by rewrite (IH Hb).
Qed.

(** Which header values [ExtractTokenFromHeader] accepts, and the token
    it returns. *)
Lemma ExtractTokenFromHeader_iff authHeader token :
  Auth.ExtractTokenFromHeader authHeader = Ok token <-> bearerForm authHeader token.
Proof.
  unfold Auth.ExtractTokenFromHeader, bearerForm. split.
  - case_bool_decide as Hne; [discriminate|].
    cbn [SplitN].
    destruct (Cut authHeader " ") as [[before after] found] eqn:Hcut.
    destruct found; [|discriminate].
    apply Cut_space_found in Hcut as [-> Hns].
    case_bool_decide as Hscheme; [discriminate|].
    case_bool_decide as Htok; [discriminate|].
    intros [= <-]. exists before. split; [done|]. split; [|done].
    by destruct (decide (ToLower before = "bearer")).
  - intros (scheme & -> & Hscheme & Htok).
    assert (nospace scheme = true) as Hns.
    { by rewrite <- nospace_ToLower, Hscheme. }
    rewrite bool_decide_eq_false_2.
    2:{ destruct scheme; discriminate. }
    cbn [SplitN]. rewrite (Cut_space_nospace _ _ Hns).
    rewrite bool_decide_eq_false_2 by (intros H; by apply H).
    by rewrite bool_decide_eq_false_2.
Qed.




(** ** C9: the client identifier of the rate limiter *)

Lemma Cut_not_found s sep : forall before after,
  Cut s sep = (before, after, false) -> before = s.
Proof.
  induction s as [|c s IH]; intros before after; cbn [Cut].
  - destruct (HasPrefix _ sep); [discriminate|]. by intros [= <- _].
  - destruct (HasPrefix (String c s) sep); [discriminate|].
    destruct (Cut s sep) as [[b a] f]. intros [= <- <- ->].
    by rewrite (IH b a).
Qed.

(** The first piece of a split is the text before the first separator. *)
Lemma Split_head s sep :
  s <> EmptyString ->
  exists rest, Split s sep = (Cut s sep).1.1 :: rest.
Proof.
  intros Hs. unfold Split. destruct s as [|c s]; [done|].
  cbn [String.length SplitN].
  destruct (Cut (String c s) sep) as [[before after] found] eqn:Hcut.
  destruct found; cbn [fst]; [by eexists|].
  apply Cut_not_found in Hcut as ->. by eexists.
Qed.

Lemma handleRateLimitExceeded_limiters rl W (inst : ResponseWriter W) (w : W) r c s :
  limiters (RateLimit.handleRateLimitExceeded rl w r c s).2 = limiters s.
Proof. by destruct (handleRateLimitExceeded_run rl W inst w r c s) as (_ & ? & _). Qed.

(** C9.  For a request with a non-empty X-Forwarded-For header the rate
    limiter's client identifier is the header value itself, unchanged.
    Two requests whose values differ are therefore charged to distinct
    buckets: serving one creates or updates the bucket stored under its
    own value and leaves the bucket of the other as it was (the
    downstream handler leaving the registry alone).  The proxy instead
    forwards only the first entry of the chain: the text before the first
    comma, trimmed. *)
Theorem C9_rate_limit_client_identifier :
  (forall r,
     Get (Header_ r) "X-Forwarded-For" <> EmptyString ->
     RateLimit.getClientIP r = Get (Header_ r) "X-Forwarded-For"
     /\ Proxy.getClientIP r
        = TrimSpace (Cut (Get (Header_ r) "X-Forwarded-For") ",").1.1)
  /\ (forall rl next W (inst : ResponseWriter W) r1 r2 (w : W) s,
        Get (Header_ r1) "X-Forwarded-For" <> EmptyString ->
        Get (Header_ r2) "X-Forwarded-For" <> EmptyString ->
        Get (Header_ r1) "X-Forwarded-For" <> Get (Header_ r2) "X-Forwarded-For" ->
        quiet next ->
        RateLimit.getClientIP r1 <> RateLimit.getClientIP r2
        /\ is_Some (limiters (RateLimit.Middleware rl next W inst r1 w s).2
                    !! Get (Header_ r1) "X-Forwarded-For")
        /\ limiters (RateLimit.Middleware rl next W inst r1 w s).2
           !! Get (Header_ r2) "X-Forwarded-For"
           = limiters s !! Get (Header_ r2) "X-Forwarded-For").
Proof.
  assert (forall r, Get (Header_ r) "X-Forwarded-For" <> EmptyString ->
                    RateLimit.getClientIP r = Get (Header_ r) "X-Forwarded-For")
    as Hid.
  { intros r Hne. unfold RateLimit.getClientIP. by rewrite bool_decide_eq_true_2. }
  split.
  - intros r Hne. split; [by apply Hid|].
    unfold Proxy.getClientIP. rewrite bool_decide_eq_true_2 by done.
    by destruct (Split_head _ "," Hne) as [rest ->].
  - intros rl next W inst r1 r2 w s H1 H2 Hdiff Hq.
    split; [by rewrite !Hid|].
    assert (limiters (RateLimit.Middleware rl next W inst r1 w s).2
            = limiters (charged rl r1 s).2) as ->.
    { rewrite Middleware_charged. destruct (negb _).
      - apply handleRateLimitExceeded_limiters.
      - apply Hq. }
    destruct (charged_spec rl r1 s) as (_ & -> & _).
    rewrite (Hid r1 H1). split.
    + rewrite lookup_insert_eq. by eexists.
    + by rewrite lookup_insert_ne.
Qed.

Lemma C9_rate_limit_client_identifier_witness :
  (RateLimit.getClientIP Sample.post = "10.0.0.1, 10.0.0.2"
   /\ Proxy.getClientIP Sample.post = "10.0.0.1")
  /\ RateLimit.getClientIP Sample.post <> RateLimit.getClientIP Sample.preflight
  /\ is_Some (limiters (RateLimit.Middleware Sample.limiter Sample.pass response _
                          Sample.post Sample.writer Sample.world).2
              !! "10.0.0.1, 10.0.0.2")
  /\ limiters (RateLimit.Middleware Sample.limiter Sample.pass response _
                 Sample.post Sample.writer Sample.world).2 !! "10.0.0.1"
     = None.
Proof.
  destruct C9_rate_limit_client_identifier as [Hid Hbuckets]. split.
  - apply (Hid Sample.post). vm_compute. discriminate.
  - apply (Hbuckets Sample.limiter Sample.pass response _ Sample.post
             Sample.preflight Sample.writer Sample.world).
    + vm_compute. discriminate.
    + vm_compute. discriminate.
    + vm_compute. discriminate.
    + intros W inst r w s. split; [reflexivity | split; simpl; lia].
Defined.

(** ** C10: preflight requests *)

(** The headers the CORS stage sets on every response. *)
Lemma CORS_Middleware_options next W (inst : ResponseWriter W) r (w : W) :
  Method r = MethodOptions ->
  CORS.Middleware next W inst r w
  = mret (WriteHeader StatusOK
            (HeaderSet "Access-Control-Max-Age" "3600"
               (HeaderSet "Access-Control-Allow-Credentials" "true"
                  (HeaderSet "Access-Control-Allow-Headers"
                     "Accept, Content-Type, Content-Length, Accept-Encoding, Authorization, X-CSRF-Token, X-Requested-With"
                     (HeaderSet "Access-Control-Allow-Methods"
                        "GET, POST, PUT, DELETE, OPTIONS, PATCH"
                        (HeaderSet "Access-Control-Allow-Origin" "*" w)))))).
Proof.
  intros Hm. unfold CORS.Middleware. by rewrite bool_decide_eq_true_2.
Qed.

Lemma preflightReply_sent (w : response) :
  sent w = None ->
  preflightReply w
    (WriteHeader StatusOK
       (HeaderSet "Access-Control-Max-Age" "3600"
          (HeaderSet "Access-Control-Allow-Credentials" "true"
             (HeaderSet "Access-Control-Allow-Headers"
                "Accept, Content-Type, Content-Length, Accept-Encoding, Authorization, X-CSRF-Token, X-Requested-With"
                (HeaderSet "Access-Control-Allow-Methods"
                   "GET, POST, PUT, DELETE, OPTIONS, PATCH"
                   (HeaderSet "Access-Control-Allow-Origin" "*" w)))))).
Proof.
  intros Hw. unfold preflightReply.
  match goal with |- context [WriteHeader ?code ?w0] =>
    destruct (written_header w0 code) as (-> & -> & ->); [by writer_simpl|] end.
  writer_simpl. split; [done|]. split; [done|]. repeat split; by header_get.
Qed.

(** The chain of [main] on a preflight request: the logging stage around
    the CORS stage's reply. *)
Lemma chain_options env cfg h r (w : response) s :
  Method r = MethodOptions ->
  Main.chain env cfg h response _ r w s
  = (let '(startTime, s1) := time_Now s in
     let '(_, s2) := time_Now s1 in
     (WriteHeader StatusOK
        (HeaderSet "Access-Control-Max-Age" "3600"
           (HeaderSet "Access-Control-Allow-Credentials" "true"
              (HeaderSet "Access-Control-Allow-Headers"
                 "Accept, Content-Type, Content-Length, Accept-Encoding, Authorization, X-CSRF-Token, X-Requested-With"
                 (HeaderSet "Access-Control-Allow-Methods"
                    "GET, POST, PUT, DELETE, OPTIONS, PATCH"
                    (HeaderSet "Access-Control-Allow-Origin" "*" w))))),
      mkWorld (now s2) (ticks s2) (calls s2) (limiters s2) (lastAccess s2)
        (trace s2
         ++ [EvLog "HTTP request" [Method r; Path r; UserAgent r; Itoa 200];
             EvMetric "RecordHTTPRequest" [Method r; Path r; Itoa 200]]))).
Proof.
  intros Hm. unfold Main.chain, Logging.Middleware, time_Since.
  unfold mbind at 1. unfold M_bind at 1.
  destruct (time_Now s) as [startTime s1].
  rewrite (CORS_Middleware_options _ _ _ _ _ Hm).
  unfold mbind, M_bind, mret, M_ret, time_Since, log, metric, emit.
  destruct (time_Now s1) as [t s2].
  cbn. unfold Logging.rw_WriteHeader. cbn. by rewrite <- app_assoc.
Qed.

(** C10.  The CORS stage answers every OPTIONS request, whatever its
    path, with status 200 and the fixed CORS headers, and does not invoke
    the stage after it.  In the chain [main] installs it stands before
    the tracing, rate limiting and authentication stages, so that for an
    OPTIONS request the chain's answer is that reply whatever those
    stages, the token validator and the terminal handler are; the limiter
    registry is left as it was and neither the rate limiter nor the auth
    stage leaves a mark in the trace.  (The writer has sent nothing
    yet.) *)
Theorem C10_preflight_short_circuit :
  (forall next r (w : response) s,
     Method r = "OPTIONS" ->
     sent w = None ->
     preflightReply w (CORS.Middleware next response _ r w s).1
     /\ (CORS.Middleware next response _ r w s).2 = s
     /\ forall next',
          CORS.Middleware next' response _ r w s
          = CORS.Middleware next response _ r w s)
  /\ (forall env cfg h r (w : response) s,
        Method r = "OPTIONS" ->
        sent w = None ->
        preflightReply w (Main.chain env cfg h response _ r w s).1
        /\ limiters (Main.chain env cfg h response _ r w s).2 = limiters s
        /\ lastAccess (Main.chain env cfg h response _ r w s).2 = lastAccess s
        /\ calls (Main.chain env cfg h response _ r w s).2 = calls s
        /\ filter limitedOrAuthenticated
                  (trace (Main.chain env cfg h response _ r w s).2)
           = filter limitedOrAuthenticated (trace s)
        /\ forall env' cfg' h',
             Main.chain env' cfg' h' response _ r w s
             = Main.chain env cfg h response _ r w s).
Proof.
  split.
  - intros next r w s Hm Hw.
    rewrite (CORS_Middleware_options next response _ r w Hm).
    repeat split; [by apply preflightReply_sent..|].
    intros next'. by rewrite (CORS_Middleware_options next' response _ r w Hm).
  - intros env cfg h r w s Hm Hw.
    assert (forall env' cfg' h',
              Main.chain env' cfg' h' response _ r w s
              = Main.chain env cfg h response _ r w s) as Hsame.
    { intros env' cfg' h'.
      by rewrite (chain_options env' cfg' h' r w s Hm),
                 (chain_options env cfg h r w s Hm). }
    assert (preflightReply w (Main.chain env cfg h response _ r w s).1
            /\ limiters (Main.chain env cfg h response _ r w s).2 = limiters s
            /\ lastAccess (Main.chain env cfg h response _ r w s).2 = lastAccess s
            /\ calls (Main.chain env cfg h response _ r w s).2 = calls s
            /\ filter limitedOrAuthenticated
                      (trace (Main.chain env cfg h response _ r w s).2)
               = filter limitedOrAuthenticated (trace s))
      as (H1 & H2 & H3 & H4 & H5).
    { rewrite (chain_options env cfg h r w s Hm).
      pose proof (preflightReply_sent w Hw) as Hreply.
      destruct (time_Now_frame s) as (Hc1 & Ht1 & Hl1 & Ha1).
      destruct (time_Now s) as [startTime s1]. cbn [snd] in *.
      destruct (time_Now_frame s1) as (Hc2 & Ht2 & Hl2 & Ha2).
      destruct (time_Now s1) as [t s2]. cbn [fst snd] in *.
      cbn [limiters lastAccess calls trace].
      split; [exact Hreply|]. split; [congruence|]. split; [congruence|].
      split; [congruence|].
      rewrite filter_app. cbn. rewrite app_nil_r. congruence. }
    exact (conj H1 (conj H2 (conj H3 (conj H4 (conj H5 Hsame))))).
Qed.

Lemma C10_preflight_short_circuit_witness :
  preflightReply Sample.writer
    (CORS.Middleware Sample.pass response _ Sample.preflight Sample.writer
       Sample.world).1
  /\ preflightReply newResponse
       (Main.chain (Sample.env []) Sample.gateway Sample.pass response _
          Sample.preflight newResponse Sample.drained).1
  /\ limiters (Main.chain (Sample.env []) Sample.gateway Sample.pass response _
                 Sample.preflight newResponse Sample.drained).2
     = limiters Sample.drained.
Proof.
  destruct C10_preflight_short_circuit as [Hcors Hchain]. split; [|split].
  - apply (Hcors Sample.pass Sample.preflight Sample.writer Sample.world);
      reflexivity.
  - apply (Hchain (Sample.env []) Sample.gateway Sample.pass Sample.preflight
             newResponse Sample.drained); reflexivity.
  - apply (Hchain (Sample.env []) Sample.gateway Sample.pass Sample.preflight
             newResponse Sample.drained); reflexivity.
Defined.

(* ===================================================================== *)
(** * Further properties of the code *)
(* ===================================================================== *)

(** ** The retry loop at its end *)

Section RetryLoopEnd.
Import Proxy.
Variables (env : Env) (ctx : Context) (targetURL : string) (cfg : ServiceEndpoint).
Variables (req : Outbound) (r : Request).
Hypothesis Hcreate : createProxyRequest env r targetURL = (Ok req, r).

(** A retryable outcome of the last attempt allowed: the loop gives up
    with that outcome as the failure it reports, without a backoff. *)
Lemma retryLoop_last fuel lastErr s :
  retryable (client_Do env (calls s) req) = true ->
  retryLoop env ctx targetURL cfg (S fuel) (Retries cfg) lastErr r s
  = ((Err (Errorf_w "all retry attempts failed: "
             (Some (retryErr (client_Do env (calls s) req)))), r),
     afterCalls 1 (attemptEvents req (Timeout cfg) (client_Do env (calls s) req)) s).
Proof.
  intros Hretry. simpl.
  rewrite Z.leb_refl. simpl. rewrite Hcreate. run.
  rewrite Z.ltb_irrefl.
  assert (forall le s', retryLoop env ctx targetURL cfg fuel (Retries cfg + 1) le r s'
                        = ((Err (Errorf_w "all retry attempts failed: " le), r), s'))
    as Hend.
  { intros le s'. destruct fuel as [|fuel']; [done|]. simpl.
    assert ((Retries cfg + 1 <=? Retries cfg) = false) as -> by lia. done. }
  destruct (client_Do env (calls s) req) as [resp|e]; simpl in *.
  - rewrite Hretry. simpl. rewrite Hend. unfold afterCalls, attemptEvents. simpl.
    by rewrite <- !app_assoc.
  - rewrite Hend. reflexivity.
Qed.

End RetryLoopEnd.

Section Exhaustion.
Import Proxy.

(** Retryable outcomes through the last attempt allowed: the loop, from
    its first attempt to the error it gives up with. *)
Lemma retryLoop_exhausted env ctx targetURL cfg s req r' :
  0 <= Retries cfg ->
  createProxyRequest env r' targetURL = (Ok req, r') ->
  (forall i, (i <= Z.to_nat (Retries cfg))%nat ->
     retryable (client_Do env (calls s + i)%nat req) = true) ->
  (forall i, (i < Z.to_nat (Retries cfg))%nat -> ctxDone ctx (Z.of_nat i) = None) ->
  retryLoop env ctx targetURL cfg (S (Z.to_nat (Retries cfg))) 0 None r' s
  = ((Err (Errorf_w "all retry attempts failed: "
             (Some (retryErr (client_Do env (calls s + Z.to_nat (Retries cfg))%nat req)))),
      r'),
     afterCalls (S (Z.to_nat (Retries cfg)))
       (retryEvents env req (Timeout cfg) (Z.to_nat (Retries cfg)) (calls s) 0
        ++ attemptEvents req (Timeout cfg)
             (client_Do env (calls s + Z.to_nat (Retries cfg))%nat req))
       s).
Proof.
  intros HR Hstable Hretry Hctx.
  set (k := Z.to_nat (Retries cfg)) in *.
  replace (S k) with (k + 1)%nat by lia.
  destruct (retryLoop_retries env ctx targetURL cfg req r' Hstable k 1%nat 0 None s)
    as [lastErr' ->].
  - lia.
  - intros i Hi. apply Hretry. lia.
  - intros i Hi. rewrite Z.add_0_l. by apply Hctx.
  - replace (0 + Z.of_nat k) with (Retries cfg) by lia.
    rewrite (retryLoop_last env ctx targetURL cfg req r' Hstable).
    2:{ simpl. rewrite Nat.add_comm. apply Hretry. lia. }
    rewrite afterCalls_afterCalls. simpl calls.
    replace (k + calls s)%nat with (calls s + k)%nat by lia.
    by replace (k + 1)%nat with (1 + k)%nat by lia.
Qed.


(** X1.  When every attempt, through the last one allowed, ends in a
    network error or in a status that is retried, [proxyWithRetries]
    gives up with an error that wraps the failure of the last attempt: it
    has called the upstream [Retries + 1] times with the same request and
    slept [Retries] times, after every attempt but the last.  (The request
    for the upstream can be built, [Retries] is not negative, and the
    request context is not cancelled during the backoffs.) *)
Theorem X1_retries_exhausted env ctx r targetURL cfg s req r' :
  0 <= Retries cfg ->
  createProxyRequest env r targetURL = (Ok req, r') ->
  (forall i, (i <= Z.to_nat (Retries cfg))%nat ->
     retryable (client_Do env (calls s + i)%nat req) = true) ->
  (forall i, (i < Z.to_nat (Retries cfg))%nat -> ctxDone ctx (Z.of_nat i) = None) ->
  exists evs,
    proxyWithRetries env ctx r targetURL cfg s
    = ((Err (Errorf_w "all retry attempts failed: "
               (Some (retryErr (client_Do env (calls s + Z.to_nat (Retries cfg))%nat req)))),
        r'),
       afterCalls (S (Z.to_nat (Retries cfg))) evs s)
    /\ upstreamCalls evs = replicate (S (Z.to_nat (Retries cfg))) req
    /\ backoffs evs
       = map (fun i => backoff (Z.of_nat i)) (seq 0 (Z.to_nat (Retries cfg)))
    /\ (last evs = Some EvCancel \/ last evs = Some EvCloseBody).
Proof.
  intros HR Hcreate Hretry Hctx.
  pose proof (createProxyRequest_stable _ _ _ _ _ Hcreate) as Hstable.
  unfold proxyWithRetries.
  replace (Z.to_nat (Retries cfg + 1)) with (S (Z.to_nat (Retries cfg))) by lia.
  rewrite (retryLoop_first env ctx targetURL cfg req r r'); [| lia | exact Hcreate].
  rewrite (retryLoop_exhausted env ctx targetURL cfg s req r' HR Hstable Hretry Hctx).
  set (k := Z.to_nat (Retries cfg)).
  eexists. split; [reflexivity|]. split; [|split].
  - rewrite upstreamCalls_app, upstreamCalls_retryEvents, upstreamCalls_attemptEvents.
    change (req :: replicate k req) with (replicate (S k) req).
    by rewrite <- replicate_S_end.
  - rewrite backoffs_app, backoffs_retryEvents, backoffs_attemptEvents, app_nil_r.
    apply map_ext. intros i. by rewrite Z.add_0_l.
  - rewrite last_app. unfold attemptEvents.
    destruct (client_Do env (calls s + k)%nat req); simpl; auto.
Qed.

End Exhaustion.

Lemma X1_retries_exhausted_witness :
  exists evs,
    Proxy.proxyWithRetries (Sample.env [503; 502; 500; 504]) context_Background
      Sample.post "http://hcaas_web:8080/urls"
      (Sample.endpoint "http://hcaas_web:8080") Sample.world
    = ((Err (Errorf_w "all retry attempts failed: "
               (Some (retryErr (client_Do (Sample.env [503; 502; 500; 504])
                                  (calls Sample.world
                                   + Z.to_nat (Retries (Sample.endpoint "http://hcaas_web:8080")))%nat
                                  Sample.outbound)))),
        Sample.post),
       afterCalls (S (Z.to_nat (Retries (Sample.endpoint "http://hcaas_web:8080"))))
                  evs Sample.world)
    /\ upstreamCalls evs
       = replicate (S (Z.to_nat (Retries (Sample.endpoint "http://hcaas_web:8080"))))
                   Sample.outbound
    /\ backoffs evs
       = map (fun i => Proxy.backoff (Z.of_nat i))
             (seq 0 (Z.to_nat (Retries (Sample.endpoint "http://hcaas_web:8080"))))
    /\ (last evs = Some EvCancel \/ last evs = Some EvCloseBody).
Proof.
  apply (X1_retries_exhausted (Sample.env [503; 502; 500; 504]) context_Background
           Sample.post "http://hcaas_web:8080/urls"
           (Sample.endpoint "http://hcaas_web:8080") Sample.world Sample.outbound
           Sample.post).
  - simpl. lia.
  - vm_compute. reflexivity.
  - intros i Hi. change (Z.to_nat _) with 3%nat in Hi.
    destruct i as [|[|[|[|i]]]]; [reflexivity ..| lia].
  - intros i Hi. reflexivity.
Defined.

(** ** Numbers in error texts *)





(** ** Routing *)

Lemma append_assoc (s t u : string) : (s +:+ t) +:+ u = s +:+ (t +:+ u).
Proof.
  induction s as [|c s IH]; [done|].
  rewrite !append_cons. by rewrite IH.
Qed.

(** A path that begins with a slash is the slash followed by what
    [TrimPrefix] leaves. *)
Lemma TrimPrefix_slash path :
  HasPrefix path "/" = true -> "/" +:+ TrimPrefix path "/" = path.
Proof.
  unfold TrimPrefix. intros H. rewrite H.
  destruct path as [|c path]; [done|]. cbn [HasPrefix] in H.
  destruct (Ascii.eqb "/" c) eqn:E; [|done].
  apply Ascii.eqb_eq in E. subst c. cbn [skip]. by rewrite skip_empty.
Qed.

Lemma HasPrefix_first s c p :
  HasPrefix s (String c p) = true -> HasPrefix s (String c EmptyString) = true.
Proof.
  destruct s as [|c' s]; [done|]. cbn [HasPrefix].
  destruct (Ascii.eqb c c'); [|done]. by rewrite HasPrefix_empty.
Qed.

Lemma determineTarget_routed cfg r :
  routed (Path r) = true ->
  exists name,
    Proxy.determineTarget cfg r
    = Ok (name, BaseURL (endpointOf cfg (Path r)) +:+ Path r)
    /\ Proxy.getServiceConfig cfg name = Ok (endpointOf cfg (Path r)).
Proof.
  unfold routed, routePrefixes, Proxy.determineTarget, endpointOf. cbn [existsb].
  rewrite orb_false_r. intros H.
  destruct (HasPrefix (Path r) "/auth/") eqn:H1; cbn [orb].
  { exists "auth". split; [|done].
    by rewrite (TrimPrefix_slash _ (HasPrefix_first _ _ _ H1)). }
  destruct (HasPrefix (Path r) "/me") eqn:H2.
  { exists "auth". split; [|done].
    by rewrite (TrimPrefix_slash _ (HasPrefix_first _ _ _ H2)). }
  destruct (HasPrefix (Path r) "/urls") eqn:H3.
  { by exists "url". }
  cbn [orb] in H. rewrite H. by exists "notification".
Qed.

(** X2.  Routing.  A path that begins with /auth/ or /me is served by the
    auth service, one that begins with /urls by the URL service, one that
    begins with /notifications by the notification service, the first of
    these that applies; the target is the service's base URL followed by
    the path as it came, and the name [determineTarget] returns is always
    one [getServiceConfig] knows, with that service's endpoint.  Any other
    path has no route. *)
Theorem X2_routing cfg r :
  (routed (Path r) = true ->
   exists name,
     Proxy.determineTarget cfg r
     = Ok (name, BaseURL (endpointOf cfg (Path r)) +:+ Path r)
     /\ Proxy.getServiceConfig cfg name = Ok (endpointOf cfg (Path r)))
  /\ (routed (Path r) = false ->
      Proxy.determineTarget cfg r
      = Err (errorString ("no route found for path: " +:+ Path r))).
Proof.
  split; [apply determineTarget_routed | apply determineTarget_unrouted].
Qed.

Lemma X2_routing_witness :
  (exists name,
     Proxy.determineTarget Sample.services Sample.post
     = Ok (name, "http://hcaas_web:8080" +:+ "/urls")
     /\ Proxy.getServiceConfig Sample.services name
        = Ok (Sample.endpoint "http://hcaas_web:8080"))
  /\ Proxy.determineTarget Sample.services Sample.unrouted
     = Err (errorString ("no route found for path: " +:+ "/timeout/connection")).
Proof.
  split.
  - apply (proj1 (X2_routing Sample.services Sample.post)). reflexivity.
  - apply (proj2 (X2_routing Sample.services Sample.unrouted)). reflexivity.
Defined.

(** ** The gateway handler around the retry loop *)

Lemma atProxy_frame name s :
  calls (atProxy name s) = calls s
  /\ trace (atProxy name s) = trace s ++ [EvMetric "RecordUpstreamRequestStart" [name]]
  /\ limiters (atProxy name s) = limiters s
  /\ lastAccess (atProxy name s) = lastAccess s.
Proof.
  unfold atProxy, metric, emit. cbn [snd calls trace limiters lastAccess].
  destruct (time_Now_frame s) as (H1 & H2 & H3 & H4).
  destruct (time_Now_frame (time_Now s).2) as (G1 & G2 & G3 & G4).
  repeat split; congruence.
Qed.


(** The handler when the retry loop returns a response. *)
Lemma ProxyHandler_relayed env cfg W (inst : ResponseWriter W) r (w : W) s
    name target ep resp r' s3 :
  Proxy.determineTarget cfg r = Ok (name, target) ->
  Proxy.getServiceConfig cfg name = Ok ep ->
  Proxy.proxyWithRetries env (Ctx r) r target ep (atProxy name s) = ((Ok resp, r'), s3) ->
  exists s4,
    GatewayHandler.ProxyHandler env cfg W inst r w s
    = (match (Proxy.copyResponse w resp).1 with
       | Some e =>
           GatewayHandler.handleProxyError (Proxy.copyResponse w resp).2 r
             (Errorf_w "failed to copy response: " (Some e))
       | None => (Proxy.copyResponse w resp).2
       end, s4)
    /\ calls s4 = calls s3
    /\ upstreamCalls (trace s4) = upstreamCalls (trace s3).
Proof.
  intros Ht Hc Hp.
  unfold GatewayHandler.ProxyHandler, Proxy.ProxyRequest, atProxy in *.
  unfold mbind at 1. unfold M_bind at 1. destruct (time_Now s) as [t0 s0].
  cbn [snd] in Hp.
  unfold mbind at 1. unfold M_bind at 1.
  unfold mbind at 1. unfold M_bind at 1. destruct (time_Now s0) as [t1 s1].
  cbn [snd] in Hp. rewrite Ht, Hc.
  unfold mbind at 1. unfold M_bind at 1.
  destruct (metric "RecordUpstreamRequestStart" [name] s1) as [[] s2]. cbn [snd] in Hp.
  unfold mbind at 1. unfold M_bind at 1. rewrite Hp.
  destruct (Proxy.copyResponse w resp) as [[e|] w1]; cbn [fst snd];
    unfold time_Since; run; unfold time_Now;
    destruct s3 as [t3 tks c ls la tr]; cbn [ticks now calls limiters lastAccess trace];
    destruct tks as [|d1 [|d2 tl]]; cbn; (eexists; split; [reflexivity|]); cbn;
    rewrite ?upstreamCalls_app, ?app_nil_r; done.
Qed.

(** ** Relaying the upstream's response *)

(** A first response that is not retried ends [proxyWithRetries]. *)
Lemma proxyWithRetries_first env ctx r targetURL cfg s req r' resp :
  0 <= Retries cfg ->
  Proxy.createProxyRequest env r targetURL = (Ok req, r') ->
  client_Do env (calls s) req = Ok resp ->
  Proxy.shouldRetry (StatusCode resp) = false ->
  Proxy.proxyWithRetries env ctx r targetURL cfg s
  = ((Ok resp, r'), afterCalls 1 [EvDo req (Timeout cfg); EvCancel] s).
Proof.
  intros HR Hcreate Hdo Hno.
  pose proof (createProxyRequest_stable _ _ _ _ _ Hcreate) as Hstable.
  unfold Proxy.proxyWithRetries.
  replace (Z.to_nat (Retries cfg + 1)) with (S (Z.to_nat (Retries cfg))) by lia.
  rewrite (retryLoop_first env ctx targetURL cfg req r r'); [| lia | exact Hcreate].
  by apply (retryLoop_return env ctx targetURL cfg req r' Hstable); [lia | |].
Qed.

(** What [copyResponse] sends on a writer that has sent nothing. *)
Lemma copyResponse_sent (w : response) resp :
  sent w = None ->
  (Proxy.copyResponse w resp).1 = rd_err (rBody resp)
  /\ sent (Proxy.copyResponse w resp).2
     = Some (StatusCode resp,
             Proxy.copyHeaders (map_to_list (rHeader resp)) (handlerHeader w))
  /\ sentBody (Proxy.copyResponse w resp).2 = sentBody w +:+ rd_data (rBody resp).
Proof.
  intros Hw. unfold Proxy.copyResponse, Proxy.io_Copy. cbn [fst snd].
  destruct (copyResponseHeaders_sent (map_to_list (rHeader resp)) w) as [Hs Hb].
  pose proof (copyResponseHeaders_header (map_to_list (rHeader resp)) w) as Hh.
  rewrite Hw in Hs. split; [done|].
  case_bool_decide as Hempty.
  - cbn. unfold response_WriteHeader. rewrite Hs. cbn.
    rewrite Hh, Hb, Hempty. split; [done|]. by rewrite append_empty_r.
  - cbn. unfold response_Write, response_WriteHeader. rewrite Hs. cbn.
    rewrite Hh, Hb. done.
Qed.


(** X3.  A routed request whose first upstream response is not one to
    retry and whose body can be read to its end is relayed as it is: the
    client receives the upstream's status, its headers but the hop-by-hop
    ones, and its body, after exactly one call of the upstream.  (The
    request for the upstream can be built, the service allows a number of
    retries that is not negative, and the writer has sent nothing yet.) *)
Theorem X3_upstream_response_relayed env cfg r (w : response) s req r' resp :
  routed (Path r) = true ->
  0 <= Retries (endpointOf cfg (Path r)) ->
  Proxy.createProxyRequest env r (BaseURL (endpointOf cfg (Path r)) +:+ Path r)
  = (Ok req, r') ->
  client_Do env (calls s) req = Ok resp ->
  Proxy.shouldRetry (StatusCode resp) = false ->
  rd_err (rBody resp) = None ->
  sent w = None ->
  status (GatewayHandler.ProxyHandler env cfg response _ r w s).1
  = Some (StatusCode resp)
  /\ sentHeader (GatewayHandler.ProxyHandler env cfg response _ r w s).1
     = Proxy.copyHeaders (map_to_list (rHeader resp)) (handlerHeader w)
  /\ sentBody (GatewayHandler.ProxyHandler env cfg response _ r w s).1
     = sentBody w +:+ rd_data (rBody resp)
  /\ calls (GatewayHandler.ProxyHandler env cfg response _ r w s).2 = S (calls s)
  /\ upstreamCalls (trace (GatewayHandler.ProxyHandler env cfg response _ r w s).2)
     = upstreamCalls (trace s) ++ [req].
Proof.
  intros Hroute HR Hcreate Hdo Hno Hread Hw.
  destruct (determineTarget_routed cfg r Hroute) as (name & Ht & Hc).
  destruct (atProxy_frame name s) as (Fc & Ft & _).
  pose proof (proxyWithRetries_first env (Ctx r) r _ _ (atProxy name s) req r' resp
                HR Hcreate ltac:(by rewrite Fc) Hno) as Hp.
  destruct (ProxyHandler_relayed env cfg response _ r w s _ _ _ _ _ _ Ht Hc Hp)
    as (s4 & -> & Hcalls & Htrace).
  destruct (copyResponse_sent w resp Hw) as (-> & Hs & Hb).
  rewrite Hread. cbn [fst snd]. unfold status, sentHeader. rewrite Hs, Hb, Hcalls, Htrace.
  unfold afterCalls. cbn [calls trace]. rewrite Fc, Ft, !upstreamCalls_app.
  repeat split. cbn. by rewrite app_nil_r.
Qed.

Lemma X3_upstream_response_relayed_witness :
  status (GatewayHandler.ProxyHandler (Sample.env [404]) Sample.services response _
            Sample.post Sample.writer Sample.world).1 = Some 404
  /\ sentBody (GatewayHandler.ProxyHandler (Sample.env [404]) Sample.services response _
                 Sample.post Sample.writer Sample.world).1 = "ok"
  /\ calls (GatewayHandler.ProxyHandler (Sample.env [404]) Sample.services response _
              Sample.post Sample.writer Sample.world).2 = 1%nat.
Proof.
  edestruct (X3_upstream_response_relayed (Sample.env [404]) Sample.services Sample.post
               Sample.writer Sample.world) as (H1 & _ & H3 & H4 & _).
  - reflexivity.
  - simpl. lia.
  - vm_compute. reflexivity.
  - reflexivity.
  - reflexivity.
  - reflexivity.
  - reflexivity.
  - split; [exact H1|]. split; [exact H3 | exact H4].
Defined.





(** ** Network failures through the last attempt *)




(** ** Bounds of the retry loop *)

Lemma retryLoop_bound env ctx targetURL cfg : forall fuel a lastErr r s,
  exists n evs,
    (Proxy.retryLoop env ctx targetURL cfg fuel a lastErr r s).2 = afterCalls n evs s
    /\ length (upstreamCalls evs) = n
    /\ Z.of_nat n <= Z.max 0 (Retries cfg - a + 1)
    /\ Z.of_nat (length (backoffs evs)) <= Z.max 0 (Retries cfg - a)
    /\ forallb loopEvent evs = true.
Proof.
  assert (forall s, s = afterCalls 0 [] s) as Hnil.
  { intros [t tks c ls la tr]. unfold afterCalls. cbn. by rewrite app_nil_r. }
  induction fuel as [|fuel IH]; intros a lastErr r s.
  { exists 0%nat, []. cbn. split; [apply Hnil|]. repeat split; lia. }
  cbn [Proxy.retryLoop].
  destruct (a <=? Retries cfg) eqn:Ha; cbn [negb].
  2:{ exists 0%nat, []. cbn. split; [apply Hnil|]. repeat split; lia. }
  destruct (Proxy.createProxyRequest env r targetURL) as [[req|e] r1].
  2:{ exists 0%nat, []. cbn. split; [apply Hnil|]. repeat split; lia. }
  unfold mbind at 1. unfold M_bind at 1. unfold Proxy.do_attempt.
  set (s1 := mkWorld (now s) (ticks s) (S (calls s)) (limiters s) (lastAccess s)
                     (trace s ++ [EvDo req (Timeout cfg); EvCancel])).
  assert (s1 = afterCalls 1 [EvDo req (Timeout cfg); EvCancel] s) as Hs1 by done.
  (* what follows a retryable outcome, from the world [s2] it is taken in *)
  assert (forall le s2 n2 evs2,
            s2 = afterCalls n2 evs2 s ->
            n2 = 1%nat -> length (upstreamCalls evs2) = 1%nat ->
            backoffs evs2 = [] -> forallb loopEvent evs2 = true ->
            exists n evs,
              ((if a <? Retries cfg
                then _ ← emit (EvBackoff (Proxy.backoff a));
                     match ctxDone ctx a with
                     | Some e => mret (Err e, r1)
                     | None => Proxy.retryLoop env ctx targetURL cfg fuel (a + 1) le r1
                     end
                else Proxy.retryLoop env ctx targetURL cfg fuel (a + 1) le r1) s2).2
              = afterCalls n evs s
              /\ length (upstreamCalls evs) = n
              /\ Z.of_nat n <= Z.max 0 (Retries cfg - a + 1)
              /\ Z.of_nat (length (backoffs evs)) <= Z.max 0 (Retries cfg - a)
              /\ forallb loopEvent evs = true) as Hnext.
  { intros le s2 n2 evs2 -> -> Hu Hb Hf.
    destruct (a <? Retries cfg) eqn:Hlt.
    - unfold mbind, M_bind, emit.
      set (s3 := mkWorld _ _ _ _ _ _).
      assert (s3 = afterCalls 1 (evs2 ++ [EvBackoff (Proxy.backoff a)]) s) as Hs3.
      { unfold s3, afterCalls. cbn. by rewrite <- app_assoc. }
      destruct (ctxDone ctx a) as [e|].
      + exists 1%nat, (evs2 ++ [EvBackoff (Proxy.backoff a)]).
        cbn [snd mret M_ret]. split; [exact Hs3|].
        rewrite upstreamCalls_app, backoffs_app, !length_app, Hu, Hb, forallb_app, Hf.
        cbn. repeat split; lia.
      + destruct (IH (a + 1) le r1 s3) as (n & evs & -> & Hn & Hle & Hbk & Hev).
        rewrite Hs3, afterCalls_afterCalls.
        eexists _, _. split; [reflexivity|].
        rewrite !upstreamCalls_app, !backoffs_app, !length_app, Hu, Hb, !forallb_app,
          Hf, Hev, Hn.
        cbn. repeat split; lia.
    - destruct (IH (a + 1) le r1 (afterCalls 1 evs2 s))
        as (n & evs & -> & Hn & Hle & Hbk & Hev).
      rewrite afterCalls_afterCalls.
      eexists _, _. split; [reflexivity|].
      rewrite !upstreamCalls_app, !backoffs_app, !length_app, Hu, Hb, !forallb_app,
        Hf, Hev, Hn.
      cbn. repeat split; lia. }
  destruct (client_Do env (calls s) req) as [resp|err].
  - destruct (Proxy.shouldRetry (StatusCode resp)); cbn [negb].
    + unfold mbind at 1. unfold M_bind at 1. unfold emit at 1.
      apply (Hnext _ _ 1%nat [EvDo req (Timeout cfg); EvCancel; EvCloseBody]); try done.
      unfold s1, afterCalls. cbn. by rewrite <- app_assoc.
    + exists 1%nat, [EvDo req (Timeout cfg); EvCancel]. cbn [snd mret M_ret].
      split; [exact Hs1|]. cbn. repeat split; lia.
  - by apply (Hnext _ _ 1%nat [EvDo req (Timeout cfg); EvCancel]).
Qed.

(** X7.  No operation retries without end.  Whatever the upstream, the
    request and its context do, [proxyWithRetries] calls the upstream at
    most [Retries + 1] times and sleeps at most [Retries] times, and not
    at all when [Retries] is negative; apart from those calls and sleeps it
    only cancels attempt contexts and closes bodies. *)
Theorem X7_retries_bounded env ctx r targetURL cfg s :
  exists n evs,
    (Proxy.proxyWithRetries env ctx r targetURL cfg s).2 = afterCalls n evs s
    /\ length (upstreamCalls evs) = n
    /\ Z.of_nat n <= Z.max 0 (Retries cfg + 1)
    /\ Z.of_nat (length (backoffs evs)) <= Z.max 0 (Retries cfg)
    /\ forallb loopEvent evs = true.
Proof.
  unfold Proxy.proxyWithRetries.
  destruct (retryLoop_bound env ctx targetURL cfg (Z.to_nat (Retries cfg + 1)) 0 None r s)
    as (n & evs & H & Hn & Hle & Hb & Hev).
  exists n, evs. rewrite Z.sub_0_r in *. done.
Qed.

(** ** The in-flight gauge *)

Lemma countMetric_app name tr1 tr2 :
  countMetric name (tr1 ++ tr2) = (countMetric name tr1 + countMetric name tr2)%nat.
Proof. unfold countMetric. by rewrite filter_app, length_app. Qed.

Lemma countMetric_loop name evs :
  forallb loopEvent evs = true -> countMetric name evs = 0%nat.
Proof.
  unfold countMetric. induction evs as [|e evs IH]; [done|].
  cbn [forallb]. intros [He Hevs]%andb_prop.
  rewrite filter_cons. destruct e; try discriminate; cbn; by apply IH.
Qed.

Lemma countMetric_cons name e tr :
  countMetric name (e :: tr)
  = ((if isMetric name e then 1 else 0) + countMetric name tr)%nat.
Proof.
  unfold countMetric. rewrite filter_cons.
  destruct (isMetric name e); by rewrite ?decide_True, ?decide_False by done.
Qed.

(** Counts a metric in a trace whose tail is spelled out. *)
Ltac count_metric :=
  rewrite ?countMetric_app, ?countMetric_cons;
  repeat match goal with
         | |- context [isMetric ?a ?b] =>
             let v := eval vm_compute in (isMetric a b) in
             change (isMetric a b) with v
         end;
  change (countMetric _ []) with 0%nat.

(** What [ProxyRequest] adds to the trace. *)
Lemma ProxyRequest_trace env cfg W (inst : ResponseWriter W) ctx (w : W) r s :
  exists tl,
    trace (Proxy.ProxyRequest env cfg ctx w r s).2 = trace s ++ tl
    /\ countMetric "RecordUpstreamRequestStart" tl
       = (if routed (Path r) then 1%nat else 0%nat)
    /\ countMetric "RecordUpstreamRequestEnd" tl
       = (if routed (Path r) then 1%nat else 0%nat).
Proof.
  unfold Proxy.ProxyRequest.
  destruct (time_Now_frame s) as (_ & Ft & _).
  unfold mbind at 1. unfold M_bind at 1. destruct (time_Now s) as [t0 s0].
  cbn [snd] in Ft.
  destruct (routed (Path r)) eqn:Hroute.
  - destruct (determineTarget_routed cfg r Hroute) as (name & -> & ->).
    unfold mbind at 1. unfold M_bind at 1. unfold metric at 1, emit at 1.
    set (s1 := mkWorld _ _ _ _ _ _).
    unfold mbind at 1. unfold M_bind at 1.
    unfold Proxy.proxyWithRetries.
    destruct (retryLoop_bound env ctx (BaseURL (endpointOf cfg (Path r)) +:+ Path r)
                (endpointOf cfg (Path r))
                (Z.to_nat (Retries (endpointOf cfg (Path r)) + 1)) 0 None r s1)
      as (n & evs & Hs2 & _ & _ & _ & Hev).
    destruct (Proxy.retryLoop _ _ _ _ _ _ _ _ _) as [[res r1] s2]. cbn [snd] in Hs2.
    subst s2.
    assert (trace (afterCalls n evs s1)
            = trace s ++ [EvMetric "RecordUpstreamRequestStart" [name]] ++ evs)
      as Htr.
    { unfold afterCalls, s1. cbn. by rewrite Ft, <- app_assoc. }
    destruct res as [resp|e].
    + unfold time_Since. unfold mbind at 1. unfold M_bind at 1.
      unfold mbind at 1. unfold M_bind at 1.
      destruct (time_Now_frame (afterCalls n evs s1)) as (_ & Ft2 & _).
      destruct (time_Now (afterCalls n evs s1)) as [t2 s3]. cbn [snd] in Ft2.
      rewrite Htr in Ft2.
      destruct (Proxy.copyResponse w resp) as [[e|] w1];
        run; rewrite Ft2, <- !app_assoc;
        (eexists; split; [reflexivity|]);
        count_metric; rewrite !(countMetric_loop _ evs Hev); done.
    + unfold mbind, M_bind, mret, M_ret, metric, emit. cbn [trace snd].
      rewrite Htr, <- !app_assoc. eexists; split; [reflexivity|].
      count_metric. rewrite !(countMetric_loop _ evs Hev). done.
  - rewrite (determineTarget_unrouted _ _ Hroute).
    run. rewrite Ft. eexists; split; [reflexivity|]. by count_metric.
Qed.

(** X8.  The gauge of requests in flight is balanced.  [ProxyRequest]
    records the start of an upstream request exactly when the path is
    routed, and then records its end exactly once before it returns,
    whether the upstream answered, every attempt failed, the request could
    not be built, the context was cancelled or the body broke off; the
    retry loop records neither. *)
Theorem X8_in_flight_balanced env cfg W (inst : ResponseWriter W) ctx (w : W) r s :
  exists k : nat,
    countMetric "RecordUpstreamRequestStart"
      (trace (Proxy.ProxyRequest env cfg ctx w r s).2)
    = (countMetric "RecordUpstreamRequestStart" (trace s) + k)%nat
    /\ countMetric "RecordUpstreamRequestEnd"
         (trace (Proxy.ProxyRequest env cfg ctx w r s).2)
       = (countMetric "RecordUpstreamRequestEnd" (trace s) + k)%nat
    /\ k = (if routed (Path r) then 1%nat else 0%nat).
Proof.
  destruct (ProxyRequest_trace env cfg W inst ctx w r s) as (tl & -> & H1 & H2).
  eexists. rewrite !countMetric_app, H1, H2. done.
Qed.

(** ** Requests that cannot be built *)

(** X9.  A request that cannot be built for the upstream is not retried:
    [proxyWithRetries] returns the failure at once, without a call of the
    upstream and without a sleep.  That is the case when the target is
    not a URL, and when the inbound body cannot be read to its end; the
    body is then left as the failed reading left it. *)
Theorem X9_unbuildable_request_not_retried :
  (forall env ctx r targetURL cfg s e r',
     0 <= Retries cfg ->
     Proxy.createProxyRequest env r targetURL = (Err e, r') ->
     Proxy.proxyWithRetries env ctx r targetURL cfg s
     = ((Err (Errorf_w "failed to create proxy request: " (Some e)), r'), s))
  /\ (forall env r targetURL e,
        url_Parse env targetURL = Err e ->
        Proxy.createProxyRequest env r targetURL
        = (Err (Errorf_w "invalid target URL: " (Some e)), r))
  /\ (forall env r targetURL target rd e,
        url_Parse env targetURL = Ok target ->
        Body r = Some rd ->
        rd_err rd = Some e ->
        Proxy.createProxyRequest env r targetURL
        = (Err (Errorf_w "failed to read request body: " (Some e)),
           set_Body (Some (mkReader EmptyString (Some e))) r)).
Proof.
  split; [|split].
  - intros env ctx r targetURL cfg s e r' HR Hc.
    unfold Proxy.proxyWithRetries.
    replace (Z.to_nat (Retries cfg + 1)) with (S (Z.to_nat (Retries cfg))) by lia.
    cbn [Proxy.retryLoop].
    assert ((0 <=? Retries cfg) = true) as -> by lia. cbn [negb].
    by rewrite Hc.
  - intros env r targetURL e Hp. unfold Proxy.createProxyRequest. by rewrite Hp.
  - intros env r targetURL target rd e Hp Hb He.
    unfold Proxy.createProxyRequest. rewrite Hp, Hb. cbn. by rewrite He.
Qed.

Lemma X9_unbuildable_request_not_retried_witness :
  Proxy.proxyWithRetries (Sample.env []) context_Background
    (set_Body (Some (mkReader "{" (Some context_Canceled))) Sample.post)
    "http://hcaas_web:8080/urls" (Sample.endpoint "http://hcaas_web:8080") Sample.world
  = ((Err (Errorf_w "failed to create proxy request: "
             (Some (Errorf_w "failed to read request body: " (Some context_Canceled)))),
      set_Body (Some (mkReader EmptyString (Some context_Canceled))) Sample.post),
     Sample.world)
  /\ Proxy.createProxyRequest
       (mkEnv (Sample.scripted []) (fun _ => Err (errorString "missing protocol scheme"))
              Sample.validator)
       Sample.post "://"
     = (Err (Errorf_w "invalid target URL: "
               (Some (errorString "missing protocol scheme"))), Sample.post).
Proof.
  destruct X9_unbuildable_request_not_retried as (H1 & H2 & H3). split.
  - apply H1; [simpl; lia|].
    rewrite (H3 (Sample.env []) _ "http://hcaas_web:8080/urls"
               "http://hcaas_web:8080/urls" (mkReader "{" (Some context_Canceled))
               context_Canceled); reflexivity.
  - by apply H2.
Defined.

(** ** The request sent upstream *)

(** X10.  The request built for the upstream carries the method of the
    inbound request (GET when it has none), the parsed target, the bytes
    of the inbound body, and exactly one value under each forwarding
    header, whatever the inbound request held there: the first entry of
    the client's forwarded chain (or its fallback) under X-Forwarded-For,
    the scheme under X-Forwarded-Proto, the host the client asked for
    under X-Forwarded-Host and "hcaas-gateway" under X-Gateway. *)
Theorem X10_forwarding_headers env r targetURL req r' :
  Proxy.createProxyRequest env r targetURL = (Ok req, r') ->
  pHeader req !! "X-Forwarded-For" = Some [Proxy.getClientIP r]
  /\ pHeader req !! "X-Forwarded-Proto" = Some [Proxy.getScheme r]
  /\ pHeader req !! "X-Forwarded-Host" = Some [Host r]
  /\ pHeader req !! "X-Gateway" = Some ["hcaas-gateway"]
  /\ pMethod req = (if bool_decide (Method r = EmptyString) then "GET" else Method r)
  /\ (exists target, url_Parse env targetURL = Ok target
                     /\ url_Parse env target = Ok (pURL req))
  /\ pBody req = rd_data <$> Body r.
Proof.
  intros Hc. rewrite (createProxyRequest_header _ _ _ _ _ Hc).
  split; [by header_lookup|]. split; [by header_lookup|].
  split; [by header_lookup|]. split; [by header_lookup|].
  revert Hc. unfold Proxy.createProxyRequest.
  destruct (url_Parse env targetURL) as [target|e]; [|discriminate].
  assert (forall m body q, Proxy.NewRequestWithContext env m target body = Ok q ->
            pMethod q = (if bool_decide (m = EmptyString) then "GET" else m)
            /\ url_Parse env target = Ok (pURL q) /\ pBody q = body) as Hnew.
  { intros m body q. unfold Proxy.NewRequestWithContext.
    destruct (negb _); [discriminate|].
    destruct (url_Parse env target); [|discriminate]. by intros [= <-]. }
  destruct (Body r) as [rd|] eqn:Hbody; cbn.
  - destruct (rd_err rd) as [e|]; [discriminate|]. cbn.
    destruct (Proxy.NewRequestWithContext _ _ _ _) as [q|e] eqn:Hq; [|discriminate].
    intros [= <- <-]. cbn. destruct (Hnew _ _ _ Hq) as (-> & Hu & ->).
    split; [done|]. split; [by exists target | done].
  - destruct (Proxy.NewRequestWithContext _ _ _ _) as [q|e] eqn:Hq; [|discriminate].
    intros [= <- <-]. cbn. destruct (Hnew _ _ _ Hq) as (-> & Hu & ->).
    split; [done|]. split; [by exists target | done].
Qed.

Lemma X10_forwarding_headers_witness :
  pHeader Sample.outbound !! "X-Forwarded-For" = Some [Proxy.getClientIP Sample.post]
  /\ pHeader Sample.outbound !! "X-Forwarded-Proto" = Some [Proxy.getScheme Sample.post]
  /\ pHeader Sample.outbound !! "X-Forwarded-Host" = Some [Host Sample.post]
  /\ pHeader Sample.outbound !! "X-Gateway" = Some ["hcaas-gateway"]
  /\ pMethod Sample.outbound
     = (if bool_decide (Method Sample.post = EmptyString) then "GET"
        else Method Sample.post)
  /\ (exists target, url_Parse (Sample.env []) "http://hcaas_web:8080/urls" = Ok target
                     /\ url_Parse (Sample.env []) target = Ok (pURL Sample.outbound))
  /\ pBody Sample.outbound = rd_data <$> Body Sample.post.
Proof.
  apply (X10_forwarding_headers (Sample.env []) Sample.post "http://hcaas_web:8080/urls"
           Sample.outbound Sample.post).
  vm_compute. reflexivity.
Defined.

(** ** The auth stage *)





(** X12.  A request to a protected path with a bearer token the validator
    accepts goes to the next handler with the validated identity stored
    in its context and nothing else changed, on the writer as it was; the
    stage records the validation as a success and logs it, and touches
    neither the limiter registry nor the upstream. *)
Theorem X12_valid_token_attaches_identity
    env next W (inst : ResponseWriter W) r (w : W) s token u :
  Auth.isPublicPath (Path r) = false ->
  bearerForm (Get (Header_ r) "Authorization") token ->
  ValidateToken env token = Ok u ->
  exists s',
    Auth.Middleware env next W inst r w s = next W inst (WithUserContext u r) w s'
    /\ ctxUser (Ctx (WithUserContext u r)) = Some u
    /\ trace s'
       = trace s ++ [EvMetric "RecordAuthValidation" ["success"];
                     EvLog "Authentication successful" [UserID u; Path r; Method r]]
    /\ limiters s' = limiters s
    /\ calls s' = calls s.
Proof.
  intros Hpub Hform Hval. apply ExtractTokenFromHeader_iff in Hform.
  unfold Auth.Middleware.
  unfold mbind at 1. unfold M_bind at 1.
  destruct (time_Now_frame s) as (Fc & Ft & Fl & _).
  destruct (time_Now s) as [t0 s0]. cbn [snd] in *.
  rewrite Hpub, Hform, Hval.
  unfold Auth.recordAuthMetrics, time_Since.
  unfold mbind, M_bind, mret, M_ret, metric, log, emit.
  destruct (time_Now_frame s0) as (Gc & Gt & Gl & _).
  destruct (time_Now s0) as [t1 s1]. cbn [fst snd] in *.
  eexists. split; [reflexivity|]. cbn.
  rewrite <- app_assoc, Gt, Ft, Gl, Fl, Gc, Fc. done.
Qed.

Lemma X12_valid_token_attaches_identity_witness :
  exists s',
    Auth.Middleware (Sample.env []) Sample.pass response _
      (mkRequest "GET" "/urls" "gateway.example.org" "192.0.2.9:4711" "/urls" false
         (<["Authorization" := ["Bearer good"]]> ∅) None context_Background)
      Sample.writer Sample.world
    = Sample.pass response _
        (WithUserContext Sample.alice
           (mkRequest "GET" "/urls" "gateway.example.org" "192.0.2.9:4711" "/urls" false
              (<["Authorization" := ["Bearer good"]]> ∅) None context_Background))
        Sample.writer s'
    /\ ctxUser (Ctx (WithUserContext Sample.alice
                       (mkRequest "GET" "/urls" "gateway.example.org" "192.0.2.9:4711"
                          "/urls" false (<["Authorization" := ["Bearer good"]]> ∅) None
                          context_Background)))
       = Some Sample.alice
    /\ trace s'
       = trace Sample.world
         ++ [EvMetric "RecordAuthValidation" ["success"];
             EvLog "Authentication successful" [UserID Sample.alice; "/urls"; "GET"]]
    /\ limiters s' = limiters Sample.world
    /\ calls s' = calls Sample.world.
Proof.
  apply (X12_valid_token_attaches_identity (Sample.env []) Sample.pass response _
           (mkRequest "GET" "/urls" "gateway.example.org" "192.0.2.9:4711" "/urls" false
              (<["Authorization" := ["Bearer good"]]> ∅) None context_Background)
           Sample.writer Sample.world "good" Sample.alice).
  - reflexivity.
  - exists "Bearer". split; [reflexivity|]. split; [reflexivity | discriminate].
  - reflexivity.
Defined.



(** ** The token validator *)

Lemma ToLower_app s t : ToLower (s +:+ t) = ToLower s +:+ ToLower t.
Proof.
  induction s as [|c s IH]; [done|].
  rewrite append_cons. cbn [ToLower]. by rewrite append_cons, IH.
Qed.

(** The prefixes [ValidateToken] puts before an error do not change the
    class [GetValidationResult] reads off its text. *)
Lemma GetValidationResult_wrapped e :
  Auth.GetValidationResult (Errorf_w "failed to parse token: " (Some e))
  = Auth.GetValidationResult e
  /\ Auth.GetValidationResult (Errorf_w "invalid claims: " (Some e))
     = Auth.GetValidationResult e.
Proof.
  unfold Auth.GetValidationResult, Errorf_w. cbn [Error].
  rewrite !ToLower_app. generalize (ToLower (Error e)) as t. intros t.
  split; cbn [ToLower]; cbv [String.append];
    cbn [Contains HasPrefix Ascii.eqb Bool.eqb andb orb lower_byte is_upper
         N_of_ascii N_of_digits]; reflexivity.
Qed.

Section Validator.
Import JWTValidator.
Variables (parse : Parser) (tokenString : string) (claims : UserClaims) (s : World).
Hypothesis Hparse : parse tokenString = Ok (claims, true).

Lemma ValidateToken_run :
  (ValidateToken parse tokenString s).1
  = (if match ExpiresAt claims with Some x => x <? (time_Now s).1 | None => false end
     then Returns (Err (Errorf_w "invalid claims: " (Some (errorString "token is expired"))))
     else if match NotBefore claims with Some y => (time_Now s).1 <? y | None => false end
     then Returns (Err (Errorf_w "invalid claims: "
                          (Some (errorString "token is not valid yet"))))
     else if bool_decide (UserID claims = EmptyString)
     then Returns (Err (Errorf_w "invalid claims: "
                          (Some (errorString "missing user_id in token"))))
     else if bool_decide (Email claims = EmptyString)
     then Returns (Err (Errorf_w "invalid claims: "
                          (Some (errorString "missing email in token"))))
     else match IssuedAt claims, ExpiresAt claims with
          | Some _, Some _ => Returns (Ok (mkUserContext (UserID claims) (Email claims)))
          | _, _ => Panics nilDereference
          end).
Proof.
  unfold ValidateToken, validateClaims. rewrite Hparse.
  unfold mbind, M_bind, mret, M_ret. destruct (time_Now s) as [t0 s0]. cbn [fst].
  destruct (match ExpiresAt claims with Some x => x <? t0 | None => false end); [done|].
  destruct (match NotBefore claims with Some y => t0 <? y | None => false end); [done|].
  destruct (bool_decide (UserID claims = EmptyString)); [done|].
  destruct (bool_decide (Email claims = EmptyString)); [done|].
  by destruct (IssuedAt claims), (ExpiresAt claims).
Qed.

End Validator.

(** X15.  What [ValidateToken] makes of a token the JWT library has parsed
    and verified, and what the auth stage then tells the client.  A token
    whose expiry lies before the current instant is refused with an error
    of the class expired ("Token has expired"); else one whose not-before
    lies after it, with an error of the class invalid ("Invalid token");
    else one without a user id or without an email, with an error of the
    class missing, for which the client is told "Authorization header
    required".  A token that passes these checks and carries both an
    issued-at and an expiry is accepted with its user id and email.  An
    error of the JWT library keeps its class under the prefix
    [ValidateToken] puts before it. *)
Theorem X15_token_claims_checked parse tokenString claims s :
  parse tokenString = Ok (claims, true) ->
  (forall x, JWTValidator.ExpiresAt claims = Some x -> x < (time_Now s).1 ->
     exists e, (JWTValidator.ValidateToken parse tokenString s).1
               = JWTValidator.Returns (Err e)
               /\ Auth.GetValidationResult e = Auth.ValidationExpired
               /\ Auth.authMessage (Auth.GetValidationResult e) = "Token has expired")
  /\ ((forall x, JWTValidator.ExpiresAt claims = Some x -> (time_Now s).1 <= x) ->
      forall y, JWTValidator.NotBefore claims = Some y -> (time_Now s).1 < y ->
      exists e, (JWTValidator.ValidateToken parse tokenString s).1
                = JWTValidator.Returns (Err e)
                /\ Auth.GetValidationResult e = Auth.ValidationInvalid
                /\ Auth.authMessage (Auth.GetValidationResult e) = "Invalid token")
  /\ ((forall x, JWTValidator.ExpiresAt claims = Some x -> (time_Now s).1 <= x) ->
      (forall y, JWTValidator.NotBefore claims = Some y -> y <= (time_Now s).1) ->
      JWTValidator.UserID claims = EmptyString
      \/ JWTValidator.Email claims = EmptyString ->
      exists e, (JWTValidator.ValidateToken parse tokenString s).1
                = JWTValidator.Returns (Err e)
                /\ Auth.GetValidationResult e = Auth.ValidationMissing
                /\ Auth.authMessage (Auth.GetValidationResult e)
                   = "Authorization header required")
  /\ (forall x i,
        JWTValidator.ExpiresAt claims = Some x -> (time_Now s).1 <= x ->
        JWTValidator.IssuedAt claims = Some i ->
        (forall y, JWTValidator.NotBefore claims = Some y -> y <= (time_Now s).1) ->
        JWTValidator.UserID claims <> EmptyString ->
        JWTValidator.Email claims <> EmptyString ->
        (JWTValidator.ValidateToken parse tokenString s).1
        = JWTValidator.Returns
            (Ok (mkUserContext (JWTValidator.UserID claims) (JWTValidator.Email claims))))
  /\ (forall tokenString' err,
        parse tokenString' = Err err ->
        exists e, (JWTValidator.ValidateToken parse tokenString' s).1
                  = JWTValidator.Returns (Err e)
                  /\ Auth.GetValidationResult e = Auth.GetValidationResult err).
Proof.
  intros Hparse. rewrite (ValidateToken_run _ _ _ _ Hparse).
  split; [|split; [|split; [|split]]].
  - intros x -> Hx. assert ((x <? (time_Now s).1) = true) as -> by lia.
    eexists. split; [reflexivity|]. split; reflexivity.
  - intros Hexp y -> Hy.
    assert (match JWTValidator.ExpiresAt claims with
            | Some x => x <? (time_Now s).1 | None => false end = false) as ->.
    { destruct (JWTValidator.ExpiresAt claims) as [x|]; [|done].
      pose proof (Hexp x eq_refl). lia. }
    assert (((time_Now s).1 <? y) = true) as -> by lia.
    eexists. split; [reflexivity|]. split; reflexivity.
  - intros Hexp Hnbf Hmiss.
    assert (match JWTValidator.ExpiresAt claims with
            | Some x => x <? (time_Now s).1 | None => false end = false) as ->.
    { destruct (JWTValidator.ExpiresAt claims) as [x|]; [|done].
      pose proof (Hexp x eq_refl). lia. }
    assert (match JWTValidator.NotBefore claims with
            | Some y => (time_Now s).1 <? y | None => false end = false) as ->.
    { destruct (JWTValidator.NotBefore claims) as [y|]; [|done].
      pose proof (Hnbf y eq_refl). lia. }
    case_bool_decide as Hu.
    { eexists. split; [reflexivity|]. split; reflexivity. }
    destruct Hmiss as [Hm|Hm]; [done|]. rewrite bool_decide_eq_true_2 by done.
    eexists. split; [reflexivity|]. split; reflexivity.
  - intros x i Hx Hle Hi Hnbf Hu He. rewrite Hx, Hi.
    assert ((x <? (time_Now s).1) = false) as -> by lia.
    assert (match JWTValidator.NotBefore claims with
            | Some y => (time_Now s).1 <? y | None => false end = false) as ->.
    { destruct (JWTValidator.NotBefore claims) as [y|]; [|done].
      pose proof (Hnbf y eq_refl). lia. }
    by rewrite !bool_decide_eq_false_2.
  - intros tok err Herr. unfold JWTValidator.ValidateToken. rewrite Herr.
    eexists. split; [reflexivity|]. apply GetValidationResult_wrapped.
Qed.

Lemma X15_token_claims_checked_witness :
  exists e,
    (JWTValidator.ValidateToken
       (fun _ => Ok (JWTValidator.mkUserClaims "u-1" "alice@example.org"
                       (Some (-1)) None (Some (-5)), true))
       "abc.def.ghi" Sample.world).1
    = JWTValidator.Returns (Err e)
    /\ Auth.GetValidationResult e = Auth.ValidationExpired
    /\ Auth.authMessage (Auth.GetValidationResult e) = "Token has expired".
Proof.
  apply (proj1 (X15_token_claims_checked
                  (fun _ => Ok (JWTValidator.mkUserClaims "u-1" "alice@example.org"
                                  (Some (-1)) None (Some (-5)), true))
                  "abc.def.ghi"
                  (JWTValidator.mkUserClaims "u-1" "alice@example.org"
                     (Some (-1)) None (Some (-5)))
                  Sample.world eq_refl) (-1)).
  - reflexivity.
  - simpl. lia.
Defined.

(** X16.  A token that the JWT library has verified and that passes the
    checks of [validateClaims], but that carries no issued-at claim or no
    expiry claim, makes [ValidateToken] panic: it reads both instants
    through their pointers without the check for nil that
    [validateClaims] and [GetTokenInfo] make. *)
Theorem X16_token_without_dates_panics parse tokenString claims s :
  parse tokenString = Ok (claims, true) ->
  (forall x, JWTValidator.ExpiresAt claims = Some x -> (time_Now s).1 <= x) ->
  (forall y, JWTValidator.NotBefore claims = Some y -> y <= (time_Now s).1) ->
  JWTValidator.UserID claims <> EmptyString ->
  JWTValidator.Email claims <> EmptyString ->
  JWTValidator.IssuedAt claims = None \/ JWTValidator.ExpiresAt claims = None ->
  (JWTValidator.ValidateToken parse tokenString s).1
  = JWTValidator.Panics JWTValidator.nilDereference.
Proof.
  intros Hparse Hexp Hnbf Hu He Hnil. rewrite (ValidateToken_run _ _ _ _ Hparse).
  assert (match JWTValidator.ExpiresAt claims with
          | Some x => x <? (time_Now s).1 | None => false end = false) as ->.
  { destruct (JWTValidator.ExpiresAt claims) as [x|]; [|done].
    pose proof (Hexp x eq_refl). lia. }
  assert (match JWTValidator.NotBefore claims with
          | Some y => (time_Now s).1 <? y | None => false end = false) as ->.
  { destruct (JWTValidator.NotBefore claims) as [y|]; [|done].
    pose proof (Hnbf y eq_refl). lia. }
  rewrite !bool_decide_eq_false_2 by done.
  destruct Hnil as [-> | ->]; [done|]. by destruct (JWTValidator.IssuedAt claims).
Qed.

Lemma X16_token_without_dates_panics_witness :
  (JWTValidator.ValidateToken
     (fun _ => Ok (JWTValidator.mkUserClaims "u-1" "alice@example.org"
                     (Some 3600) None None, true))
     "abc.def.ghi" Sample.world).1
  = JWTValidator.Panics JWTValidator.nilDereference.
Proof.
  apply (X16_token_without_dates_panics
           (fun _ => Ok (JWTValidator.mkUserClaims "u-1" "alice@example.org"
                           (Some 3600) None None, true))
           "abc.def.ghi"
           (JWTValidator.mkUserClaims "u-1" "alice@example.org" (Some 3600) None None)
           Sample.world).
  - reflexivity.
  - intros x [= <-]. simpl. lia.
  - intros y [=].
  - discriminate.
  - discriminate.
  - by left.
Defined.

(** ** Optional authentication *)

(** The validator reads the clock and nothing else. *)
Lemma ValidateToken_frame parse tokenString s :
  limiters (JWTValidator.ValidateToken parse tokenString s).2 = limiters s
  /\ calls (JWTValidator.ValidateToken parse tokenString s).2 = calls s.
Proof.
  unfold JWTValidator.ValidateToken, JWTValidator.validateClaims.
  destruct (parse tokenString) as [[claims []]|e]; [|done|done].
  unfold mbind, M_bind, mret, M_ret.
  destruct (time_Now_frame s) as (Fc & _ & Fl & _).
  destruct (time_Now s) as [t0 s0]. cbn [fst snd] in *.
  destruct (if match JWTValidator.ExpiresAt claims with
               | Some t => t <? t0 | None => false end
            then _ else _); [done|].
  by destruct (JWTValidator.IssuedAt claims), (JWTValidator.ExpiresAt claims).
Qed.

(** The stage on a request with a bearer token, by the outcome of the
    validator. *)
Lemma OptionalAuth_run parse next W (inst : ResponseWriter W) r (w : W) s token :
  Auth.ExtractTokenFromHeader (Get (Header_ r) "Authorization") = Ok token ->
  OptionalAuth.Middleware parse next W r w s
  = match (JWTValidator.ValidateToken parse token (time_Now s).2).1 with
    | JWTValidator.Panics msg =>
        (inr msg, (JWTValidator.ValidateToken parse token (time_Now s).2).2)
    | JWTValidator.Returns (Ok u) =>
        let '(w', s') :=
          next W inst (WithUserContext u r) w
            (OptionalAuth.recordAuthMetrics Auth.ValidationSuccess (time_Now s).1
               (JWTValidator.ValidateToken parse token (time_Now s).2).2).2 in
        (inl w', s')
    | JWTValidator.Returns (Err e) =>
        let '(w', s') :=
          next W inst r w
            (log "Optional auth validation failed" [Path r; Method r]
               (OptionalAuth.recordAuthMetrics (Auth.GetValidationResult e)
                  (time_Now s).1
                  (JWTValidator.ValidateToken parse token (time_Now s).2).2).2).2 in
        (inl w', s')
    end.
Proof.
  intros Hext. unfold OptionalAuth.Middleware, OptionalAuth.authenticate.
  unfold mbind at 1. unfold M_bind at 1. destruct (time_Now s) as [t0 s0]. cbn [fst snd].
  rewrite bool_decide_eq_true_2.
  2:{ intros Hempty. rewrite Hempty in Hext. discriminate. }
  rewrite Hext.
  unfold mbind at 1. unfold M_bind at 1.
  unfold mbind at 1. unfold M_bind at 1.
  destruct (JWTValidator.ValidateToken parse token s0) as [[[u|e]|msg] s1]; cbn [fst snd].
  - unfold mbind at 1. unfold M_bind at 1.
    destruct (OptionalAuth.recordAuthMetrics Auth.ValidationSuccess t0 s1) as [[] s2].
    unfold mret at 1. unfold M_ret at 1. cbn [snd].
    unfold mbind, M_bind, mret, M_ret. reflexivity.
  - unfold mbind at 1. unfold M_bind at 1.
    destruct (OptionalAuth.recordAuthMetrics (Auth.GetValidationResult e) t0 s1)
      as [[] s2].
    cbn [snd]. unfold mbind at 1. unfold M_bind at 1.
    destruct (log "Optional auth validation failed" [Path r; Method r] s2) as [[] s3].
    unfold mret at 1. unfold M_ret at 1. cbn [snd].
    unfold mbind, M_bind, mret, M_ret. reflexivity.
  - reflexivity.
Qed.

Lemma recordAuthMetrics_frame res t s :
  limiters (OptionalAuth.recordAuthMetrics res t s).2 = limiters s
  /\ calls (OptionalAuth.recordAuthMetrics res t s).2 = calls s.
Proof.
  unfold OptionalAuth.recordAuthMetrics, time_Since, mbind, M_bind, mret, M_ret,
    metric, emit.
  destruct (time_Now_frame s) as (Fc & _ & Fl & _).
  destruct (time_Now s) as [t0 s0]. cbn [fst snd limiters calls] in *. done.
Qed.

(** X14.  The optional auth stage never answers a request itself: it
    hands the request to the next handler, on the writer as it was, or it
    ends in the panic of the token validator.  Without a bearer token in
    the Authorization header the next handler receives the request as it
    came.  With one, the outcome of [ValidateToken] decides: when it
    accepts the token the next handler receives the request with the
    validated identity in its context; when it refuses the token the next
    handler receives the request as it came; and when it panics, the panic
    ends the stage and the next handler is never called.  That last case
    is the one of a token the JWT library has verified and that passes
    the checks of [validateClaims] but carries no issued-at or no expiry
    claim.  Before it calls the next handler the stage touches neither
    the limiter registry nor the upstream. *)
Theorem X14_optional_auth_passes_or_panics
    parse next W (inst : ResponseWriter W) r (w : W) s :
  ((forall token, ~ bearerForm (Get (Header_ r) "Authorization") token) ->
   OptionalAuth.Middleware parse next W r w s
   = (let '(w', s') := next W inst r w (time_Now s).2 in (inl w', s')))
  /\ (forall token,
        bearerForm (Get (Header_ r) "Authorization") token ->
        match (JWTValidator.ValidateToken parse token (time_Now s).2).1 with
        | JWTValidator.Returns (Ok u) =>
            exists s',
              OptionalAuth.Middleware parse next W r w s
              = (let '(w', s'') := next W inst (WithUserContext u r) w s' in
                 (inl w', s''))
              /\ limiters s' = limiters s /\ calls s' = calls s
        | JWTValidator.Returns (Err e) =>
            exists s',
              OptionalAuth.Middleware parse next W r w s
              = (let '(w', s'') := next W inst r w s' in (inl w', s''))
              /\ limiters s' = limiters s /\ calls s' = calls s
        | JWTValidator.Panics msg =>
            forall next',
              OptionalAuth.Middleware parse next' W r w s
              = (inr msg, (JWTValidator.ValidateToken parse token (time_Now s).2).2)
        end)
  /\ (forall token claims,
        bearerForm (Get (Header_ r) "Authorization") token ->
        parse token = Ok (claims, true) ->
        (forall x, JWTValidator.ExpiresAt claims = Some x ->
                   (time_Now (time_Now s).2).1 <= x) ->
        (forall y, JWTValidator.NotBefore claims = Some y ->
                   y <= (time_Now (time_Now s).2).1) ->
        JWTValidator.UserID claims <> EmptyString ->
        JWTValidator.Email claims <> EmptyString ->
        JWTValidator.IssuedAt claims = None \/ JWTValidator.ExpiresAt claims = None ->
        forall next',
          (OptionalAuth.Middleware parse next' W r w s).1
          = inr JWTValidator.nilDereference).
Proof.
  destruct (time_Now_frame s) as (Fc & _ & Fl & _).
  split; [|split].
  - intros Hno. unfold OptionalAuth.Middleware, OptionalAuth.authenticate.
    unfold mbind at 1. unfold M_bind at 1. destruct (time_Now s) as [t0 s0]. cbn [snd].
    destruct (Auth.ExtractTokenFromHeader (Get (Header_ r) "Authorization"))
      as [token|e] eqn:Hext.
    + apply ExtractTokenFromHeader_iff in Hext. by destruct (Hno token).
    + destruct (bool_decide _); unfold mbind, M_bind, mret, M_ret; reflexivity.
  - intros token Hform. apply ExtractTokenFromHeader_iff in Hform.
    destruct (ValidateToken_frame parse token (time_Now s).2) as (Vl & Vc).
    pose proof (fun nxt => OptionalAuth_run parse nxt W inst r w s token Hform) as Hrun.
    destruct (JWTValidator.ValidateToken parse token (time_Now s).2).1 as [[u|e]|msg].
    + eexists. split; [apply Hrun|].
      destruct (recordAuthMetrics_frame Auth.ValidationSuccess (time_Now s).1
                  (JWTValidator.ValidateToken parse token (time_Now s).2).2) as (-> & ->).
      by rewrite Vl, Vc, Fl, Fc.
    + eexists. split; [apply Hrun|].
      unfold log, emit. cbn [snd limiters calls].
      destruct (recordAuthMetrics_frame (Auth.GetValidationResult e) (time_Now s).1
                  (JWTValidator.ValidateToken parse token (time_Now s).2).2) as (-> & ->).
      by rewrite Vl, Vc, Fl, Fc.
    + intros next'. apply Hrun.
  - intros token claims Hform Hparse Hexp Hnbf Hu He Hnil next'.
    apply ExtractTokenFromHeader_iff in Hform.
    rewrite (OptionalAuth_run parse next' W inst r w s token Hform).
    rewrite (ValidateToken_run _ _ _ _ Hparse).
    assert (match JWTValidator.ExpiresAt claims with
            | Some x => x <? (time_Now (time_Now s).2).1 | None => false end = false)
      as ->.
    { destruct (JWTValidator.ExpiresAt claims) as [x|]; [|done].
      pose proof (Hexp x eq_refl). lia. }
    assert (match JWTValidator.NotBefore claims with
            | Some y => (time_Now (time_Now s).2).1 <? y | None => false end = false)
      as ->.
    { destruct (JWTValidator.NotBefore claims) as [y|]; [|done].
      pose proof (Hnbf y eq_refl). lia. }
    rewrite !bool_decide_eq_false_2 by done.
    destruct Hnil as [-> | ->]; [done|]. by destruct (JWTValidator.IssuedAt claims).
Qed.

Lemma X14_optional_auth_passes_or_panics_witness :
  (exists s',
     OptionalAuth.Middleware Sample.dated Sample.pass response Sample.bearer
       Sample.writer Sample.world
     = (let '(w', s'') :=
          Sample.pass response _ (WithUserContext Sample.alice Sample.bearer)
            Sample.writer s' in
        (inl w', s''))
     /\ limiters s' = limiters Sample.world /\ calls s' = calls Sample.world)
  /\ (OptionalAuth.Middleware Sample.undated Sample.pass response Sample.bearer
        Sample.writer Sample.world).1
     = inr JWTValidator.nilDereference.
Proof.
  split.
  - apply (proj1 (proj2 (X14_optional_auth_passes_or_panics Sample.dated Sample.pass
                           response _ Sample.bearer Sample.writer Sample.world))
             "good").
    apply ExtractTokenFromHeader_iff. reflexivity.
  - apply (proj2 (proj2 (X14_optional_auth_passes_or_panics Sample.undated Sample.pass
                           response _ Sample.bearer Sample.writer Sample.world))
             "good"
             (JWTValidator.mkUserClaims "u-1" "alice@example.org" (Some 3600) None None)).
    + apply ExtractTokenFromHeader_iff. reflexivity.
    + reflexivity.
    + intros x [= <-]. simpl. lia.
    + intros y [=].
    + discriminate.
    + discriminate.
    + by left.
Defined.

(** ** The sweep of the rate limiter *)

(** The saturation of [Sub] does not show in the test of [cleanup]. *)
Lemma idle_iff now_ lastAccess :
  idle now_ lastAccess = true <-> 10 * Minute < now_ - lastAccess.
Proof. unfold idle, time_Sub, Minute, Second, MaxInt64. lia. Qed.

(** What the loop of [cleanup] leaves under each key. *)
Lemma sweep_fold now_ l : forall ls la n k,
  let hit := existsb (fun e : string * Z => bool_decide (e.1 = k) && idle now_ e.2) l in
  (foldl (RateLimit.sweep now_) (ls, la, n) l).1.1 !! k
  = (if hit then None else ls !! k)
  /\ (foldl (RateLimit.sweep now_) (ls, la, n) l).1.2 !! k
     = (if hit then None else la !! k).
Proof.
  induction l as [|[k' ta] l IH]; intros ls la n k; cbn [foldl existsb fst snd]; [done|].
  unfold RateLimit.sweep at 2 4. fold (idle now_ ta).
  destruct (idle now_ ta) eqn:Hidle.
  - destruct (IH (delete k' ls) (delete k' la) (n + 1) k) as [-> ->].
    case_bool_decide as Hk; cbn [andb orb].
    + subst k'. rewrite !lookup_delete_eq. by destruct (existsb _ l).
    + by rewrite !lookup_delete_ne.
  - destruct (IH ls la n k) as [-> ->]. by rewrite andb_false_r.
Qed.

Lemma sweep_hit now_ (la : gmap string Z) k :
  existsb (fun e : string * Z => bool_decide (e.1 = k) && idle now_ e.2) (map_to_list la)
  = match la !! k with Some ta => idle now_ ta | None => false end.
Proof.
  destruct (existsb _ _) eqn:Hex.
  - apply existsb_exists in Hex as ([k' ta] & Hin & H). cbn in H.
    apply andb_prop in H as [Hk Hidle]. apply bool_decide_eq_true in Hk. subst k'.
    apply list_elem_of_In, elem_of_map_to_list in Hin. by rewrite Hin, Hidle.
  - destruct (la !! k) as [ta|] eqn:Hl; [|done].
    destruct (idle now_ ta) eqn:Hidle; [|done].
    rewrite <- Hex. apply existsb_exists. exists (k, ta). split.
    + by apply list_elem_of_In, elem_of_map_to_list.
    + cbn. by rewrite bool_decide_eq_true_2, Hidle.
Qed.

(** [cleanup] in one piece. *)
Lemma cleanup_eq s :
  RateLimit.cleanup s
  = (let '(t, s0) := time_Now s in
     let '(ls, la, cleanupCount) :=
       foldl (RateLimit.sweep t) (limiters s, lastAccess s, 0)
             (map_to_list (lastAccess s)) in
     (tt, mkWorld (now s0) (ticks s0) (calls s) ls la
            (trace s
             ++ [EvMetric "SetRateLimitActive" ["*"; Itoa (Z.of_nat (size ls))];
                 EvLog "Rate limiter cleanup completed"
                   ["rate-limiter"; Itoa cleanupCount; Itoa (Z.of_nat (size ls))]]))).
Proof.
  unfold RateLimit.cleanup.
  destruct (time_Now_frame s) as (Fc & Ft & Fl & Fa).
  unfold mbind at 1. unfold M_bind at 1. destruct (time_Now s) as [t s0].
  cbn [fst snd] in *.
  unfold mbind at 1. unfold M_bind at 1. rewrite Fl, Fa.
  destruct (foldl (RateLimit.sweep t) _ _) as [[ls la] n].
  unfold mbind, M_bind, metric, log, emit, RateLimit.set_lastAccess,
    RateLimit.set_limiters. cbn [fst snd limiters lastAccess trace calls now ticks].
  by rewrite <- app_assoc, Ft, Fc.
Qed.

(** [cleanup], map by map. *)
Lemma cleanup_run s :
  (forall k,
     limiters (RateLimit.cleanup s).2 !! k
     = match lastAccess s !! k with
       | Some ta => if idle (time_Now s).1 ta then None else limiters s !! k
       | None => limiters s !! k
       end)
  /\ (forall k,
        lastAccess (RateLimit.cleanup s).2 !! k
        = match lastAccess s !! k with
          | Some ta => if idle (time_Now s).1 ta then None else Some ta
          | None => None
          end)
  /\ (exists cleanupCount,
        trace (RateLimit.cleanup s).2
        = trace s
          ++ [EvMetric "SetRateLimitActive"
                ["*"; Itoa (Z.of_nat (size (limiters (RateLimit.cleanup s).2)))];
              EvLog "Rate limiter cleanup completed"
                ["rate-limiter"; Itoa cleanupCount;
                 Itoa (Z.of_nat (size (limiters (RateLimit.cleanup s).2)))]])
  /\ calls (RateLimit.cleanup s).2 = calls s.
Proof.
  rewrite cleanup_eq. destruct (time_Now s) as [t s0]. cbn [fst].
  pose proof (sweep_fold t (map_to_list (lastAccess s)) (limiters s) (lastAccess s) 0)
    as Hfold.
  destruct (foldl (RateLimit.sweep t) _ _) as [[ls la] n]. cbn [fst snd] in Hfold.
  cbn [fst snd limiters lastAccess trace calls].
  split; [|split; [|split]].
  - intros k. destruct (Hfold k) as [-> _]. rewrite sweep_hit.
    by destruct (lastAccess s !! k).
  - intros k. destruct (Hfold k) as [_ ->]. rewrite sweep_hit.
    destruct (lastAccess s !! k) as [ta|] eqn:Hk; by rewrite ?Hk.
  - by exists n.
  - done.
Qed.

(** X17.  The sweep of the rate limiter.  [cleanup] removes a client's
    bucket and its access record exactly when the record is more than ten
    minutes older than the instant the sweep reads; every other entry of
    either map stays as it was, a bucket without an access record
    included.  It then sets the gauge of active limiters to the number of
    buckets left, and calls no upstream. *)
Theorem X17_sweep_evicts_idle_clients s :
  (forall client ta,
     lastAccess s !! client = Some ta ->
     10 * Minute < (time_Now s).1 - ta ->
     limiters (RateLimit.cleanup s).2 !! client = None
     /\ lastAccess (RateLimit.cleanup s).2 !! client = None)
  /\ (forall client ta,
        lastAccess s !! client = Some ta ->
        (time_Now s).1 - ta <= 10 * Minute ->
        limiters (RateLimit.cleanup s).2 !! client = limiters s !! client
        /\ lastAccess (RateLimit.cleanup s).2 !! client = Some ta)
  /\ (forall client,
        lastAccess s !! client = None ->
        limiters (RateLimit.cleanup s).2 !! client = limiters s !! client
        /\ lastAccess (RateLimit.cleanup s).2 !! client = None)
  /\ (exists cleanupCount,
        trace (RateLimit.cleanup s).2
        = trace s
          ++ [EvMetric "SetRateLimitActive"
                ["*"; Itoa (Z.of_nat (size (limiters (RateLimit.cleanup s).2)))];
              EvLog "Rate limiter cleanup completed"
                ["rate-limiter"; Itoa cleanupCount;
                 Itoa (Z.of_nat (size (limiters (RateLimit.cleanup s).2)))]])
  /\ calls (RateLimit.cleanup s).2 = calls s.
Proof.
  destruct (cleanup_run s) as (Hl & Ha & Ht & Hc).
  split; [|split; [|split; [|split; [exact Ht | exact Hc]]]].
  - intros client ta Hk Hidle. rewrite Hl, Ha, Hk.
    apply idle_iff in Hidle. by rewrite Hidle.
  - intros client ta Hk Hfresh. rewrite Hl, Ha, Hk.
    destruct (idle (time_Now s).1 ta) eqn:Hidle; [|done].
    apply idle_iff in Hidle. lia.
  - intros client Hk. by rewrite Hl, Ha, Hk.
Qed.

Lemma X17_sweep_evicts_idle_clients_witness :
  limiters (RateLimit.cleanup
              (mkWorld (11 * Minute) [] 0
                 (<["10.0.0.1" := Rate.NewLimiter 1 2]>
                    (<["10.0.0.2" := Rate.NewLimiter 1 2]> ∅))
                 (<["10.0.0.1" := 0]> (<["10.0.0.2" := 2 * Minute]> ∅)) [])).2
    !! "10.0.0.1" = None
  /\ limiters (RateLimit.cleanup
                 (mkWorld (11 * Minute) [] 0
                    (<["10.0.0.1" := Rate.NewLimiter 1 2]>
                       (<["10.0.0.2" := Rate.NewLimiter 1 2]> ∅))
                    (<["10.0.0.1" := 0]> (<["10.0.0.2" := 2 * Minute]> ∅)) [])).2
       !! "10.0.0.2" = Some (Rate.NewLimiter 1 2).
Proof.
  destruct (X17_sweep_evicts_idle_clients
              (mkWorld (11 * Minute) [] 0
                 (<["10.0.0.1" := Rate.NewLimiter 1 2]>
                    (<["10.0.0.2" := Rate.NewLimiter 1 2]> ∅))
                 (<["10.0.0.1" := 0]> (<["10.0.0.2" := 2 * Minute]> ∅)) []))
    as (Hidle & Hfresh & _).
  split.
  - apply (Hidle "10.0.0.1" 0); [reflexivity | vm_compute; reflexivity].
  - destruct (Hfresh "10.0.0.2" (2 * Minute)) as [-> _];
      [reflexivity | vm_compute; discriminate | reflexivity].
Defined.

(** ** The registry of the rate limiter *)

Lemma charged_lastAccess rl r s :
  lastAccess (charged rl r s).2
  = <[RateLimit.getClientIP r := (time_Now s).1]> (lastAccess s).
Proof.
  unfold charged, RateLimit.getLimiter, RateLimit.Allow, RateLimit.lookupOrCreate,
    RateLimit.touch, RateLimit.store, RateLimit.set_limiters, RateLimit.set_lastAccess.
  unfold mbind, M_bind, mret, M_ret, time_Now, Rate.AllowAt.
  destruct s as [t0 tks c ls la tr]. cbn [limiters ticks now calls trace lastAccess].
  destruct (ls !! RateLimit.getClientIP r) as [lim|]; cbn;
    destruct tks as [|d1 [|d2 tl]]; cbn;
    match goal with |- context [Second <=? ?x] => destruct (Second <=? x) end; done.
Qed.

Lemma handleRateLimitExceeded_lastAccess rl W (inst : ResponseWriter W) (w : W) r c s :
  lastAccess (RateLimit.handleRateLimitExceeded rl w r c s).2 = lastAccess s.
Proof.
  unfold RateLimit.handleRateLimitExceeded, RateLimit.getLimiterForIP, RateLimit.Tokens.
  unfold mbind, M_bind, mret, M_ret, metric, log, emit, time_Now.
  destruct s as [t0 tks n ls la tr]. cbn [limiters ticks now calls trace lastAccess].
  by destruct (ls !! c), tks.
Qed.

(** The two maps after the middleware has served a request. *)
Lemma Middleware_registry rl next W (inst : ResponseWriter W) r (w : W) s :
  registryUntouched next ->
  limiters (RateLimit.Middleware rl next W inst r w s).2
  = <[RateLimit.getClientIP r :=
        (Rate.AllowAt (clientBucket rl r s) (allowTime s)).2]> (limiters s)
  /\ lastAccess (RateLimit.Middleware rl next W inst r w s).2
     = <[RateLimit.getClientIP r := (time_Now s).1]> (lastAccess s).
Proof.
  intros Hnext. rewrite Middleware_charged.
  destruct (charged_spec rl r s) as (_ & Hl & _).
  pose proof (charged_lastAccess rl r s) as Ha.
  destruct (negb (charged rl r s).1).
  - by rewrite handleRateLimitExceeded_limiters, handleRateLimitExceeded_lastAccess.
  - destruct (Hnext W inst r w (charged rl r s).2) as [-> ->]. done.
Qed.

(** X18.  No bucket is lost sight of.  The middleware keeps a record of
    last access for every client that has a bucket: serving a request
    stores the client's bucket and stamps its record with the instant
    [getLimiter] reads, and the sweep removes a bucket only together with
    its record.  So after a sweep every bucket left belongs to a client
    served within the ten minutes before it, and a client served at most
    ten minutes before a sweep keeps its bucket, level included.  (The
    downstream handler leaves the two maps alone.) *)
Theorem X18_registry_stays_tracked :
  (forall rl next W (inst : ResponseWriter W) r (w : W) s,
     registryUntouched next ->
     tracked s ->
     tracked (RateLimit.Middleware rl next W inst r w s).2
     /\ is_Some (limiters (RateLimit.Middleware rl next W inst r w s).2
                 !! RateLimit.getClientIP r)
     /\ lastAccess (RateLimit.Middleware rl next W inst r w s).2
        !! RateLimit.getClientIP r = Some (time_Now s).1
     /\ ((time_Now (RateLimit.Middleware rl next W inst r w s).2).1 - (time_Now s).1
         <= 10 * Minute ->
         limiters (RateLimit.cleanup (RateLimit.Middleware rl next W inst r w s).2).2
           !! RateLimit.getClientIP r
         = limiters (RateLimit.Middleware rl next W inst r w s).2
             !! RateLimit.getClientIP r))
  /\ (forall s,
        tracked s ->
        tracked (RateLimit.cleanup s).2
        /\ forall client,
             is_Some (limiters (RateLimit.cleanup s).2 !! client) ->
             exists ta, lastAccess (RateLimit.cleanup s).2 !! client = Some ta
                        /\ (time_Now s).1 - ta <= 10 * Minute).
Proof.
  split.
  - intros rl next W inst r w s Hnext Htr.
    destruct (Middleware_registry rl next W inst r w s Hnext) as [Hl Ha].
    split; [|split; [|split]].
    + intros k. rewrite Hl, Ha.
      destruct (decide (RateLimit.getClientIP r = k)) as [->|Hne].
      * rewrite !lookup_insert_eq. by eexists.
      * rewrite !lookup_insert_ne by done. apply Htr.
    + rewrite Hl, lookup_insert_eq. by eexists.
    + by rewrite Ha, lookup_insert_eq.
    + intros Hrecent.
      destruct (cleanup_run (RateLimit.Middleware rl next W inst r w s).2) as (Hc & _).
      rewrite Hc, Ha, lookup_insert_eq.
      destruct (idle _ _) eqn:Hidle; [|done]. apply idle_iff in Hidle. lia.
  - intros s Htr. destruct (cleanup_run s) as (Hl & Ha & _).
    assert (forall client,
              is_Some (limiters (RateLimit.cleanup s).2 !! client) ->
              exists ta, lastAccess (RateLimit.cleanup s).2 !! client = Some ta
                         /\ (time_Now s).1 - ta <= 10 * Minute) as Hrecent.
    { intros k. rewrite Hl, Ha.
      destruct (lastAccess s !! k) as [ta|] eqn:Hk.
      - destruct (idle (time_Now s).1 ta) eqn:Hidle.
        + by intros [? ?].
        + intros _. exists ta. split; [done|].
          destruct (Z_le_gt_dec ((time_Now s).1 - ta) (10 * Minute)) as [|Hgt]; [done|].
          assert (idle (time_Now s).1 ta = true) by (apply idle_iff; lia). congruence.
      - intros Hsome. apply Htr in Hsome. rewrite Hk in Hsome. by destruct Hsome. }
    split; [|exact Hrecent].
    intros k Hsome. destruct (Hrecent k Hsome) as (ta & -> & _). by eexists.
Qed.

Lemma X18_registry_stays_tracked_witness :
  tracked (RateLimit.Middleware Sample.limiter Sample.pass response _ Sample.post
             Sample.writer Sample.world).2
  /\ lastAccess (RateLimit.Middleware Sample.limiter Sample.pass response _ Sample.post
                   Sample.writer Sample.world).2
       !! RateLimit.getClientIP Sample.post
     = Some (time_Now Sample.world).1
  /\ tracked (RateLimit.cleanup Sample.world).2.
Proof.
  destruct X18_registry_stays_tracked as [Hmw Hsweep].
  assert (tracked Sample.world) as Hempty.
  { intros k [lim Hk]. cbn in Hk. by rewrite lookup_empty in Hk. }
  destruct (Hmw Sample.limiter Sample.pass response _ Sample.post Sample.writer
              Sample.world) as (H1 & _ & H3 & _).
  - intros W inst r w s. split; reflexivity.
  - exact Hempty.
  - split; [exact H1|]. split; [exact H3|]. by apply Hsweep.
Defined.

(** ** The requests a full bucket lets through *)

(** One request of the window while a token is left. *)
Lemma windowInv_pass rl next client t0 deadline (i : nat) r s :
  0 <= RateLimit.requestsPerSecond rl ->
  RateLimit.getClientIP r = client ->
  windowInv rl client t0 deadline (Z.of_nat i) s ->
  Z.of_nat i < RateLimit.burstSize rl ->
  RateLimit.Middleware rl next response _ r newResponse s
  = next response _ r newResponse (charged rl r s).2.
Proof.
  intros Hr Hc Hinv Hlt. rewrite Middleware_charged.
  destruct (charged_spec rl r s) as (Hok & _ & _ & _ & Hnow & Hle & _).
  destruct Hinv as (H0 & Hh & Hlim & Hbur & Hlev).
  assert (clientBucket rl r s = bucketOf rl client s) as Hbk
    by (unfold clientBucket, bucketOf; by rewrite Hc).
  rewrite Hbk in Hok.
  destruct (Hlev (allowTime s) ltac:(lia)) as [Hlo _].
  rewrite Z.min_l in Hlo by lia.
  assert ((Second <=? Rate.advance (bucketOf rl client s) (allowTime s)) = true) as Hyes.
  { unfold Second in *. apply Z.leb_le. nia. }
  by rewrite Hok, Hyes.
Qed.

Lemma serve_window_pass rl next client t0 deadline reqs : forall (i : nat) s,
  0 <= RateLimit.requestsPerSecond rl ->
  0 <= RateLimit.burstSize rl ->
  RateLimit.requestsPerSecond rl * (deadline - t0) < Second ->
  quiet next ->
  Forall (fun r => RateLimit.getClientIP r = client) reqs ->
  windowInv rl client t0 deadline (Z.of_nat i) s ->
  forall (k : nat) r,
    reqs !! k = Some r ->
    Z.of_nat (i + k) < RateLimit.burstSize rl ->
    exists s_k,
      (serve (RateLimit.Middleware rl next) reqs s).1 !! k
      = Some (next response _ r newResponse s_k).1.
Proof.
  induction reqs as [|r0 reqs IH]; intros i s Hr Hb Hwin Hq Hall Hinv k r Hk Hbk.
  { by rewrite lookup_nil in Hk. }
  apply Forall_cons in Hall as [Hc Hall].
  destruct (windowInv_step rl next client t0 deadline i r0 s Hr Hb Hwin Hq Hc Hinv)
    as [Hinv' _].
  cbn [serve]. unfold mbind, M_bind, mret, M_ret.
  destruct k as [|k].
  - cbn in Hk. injection Hk as <-.
    rewrite (windowInv_pass rl next client t0 deadline i r0 s Hr Hc Hinv ltac:(lia)).
    exists (charged rl r0 s).2.
    destruct (next response _ r0 newResponse (charged rl r0 s).2) as [w1 s1].
    by destruct (serve (RateLimit.Middleware rl next) reqs s1).
  - cbn in Hk.
    destruct (RateLimit.Middleware rl next response _ r0 newResponse s) as [w1 s1].
    cbn [snd] in Hinv'.
    destruct (IH (S i) s1 Hr Hb Hwin Hq Hall Hinv' k r Hk ltac:(lia)) as [s_k Hs].
    exists s_k. destruct (serve (RateLimit.Middleware rl next) reqs s1) as [ws s2].
    exact Hs.
Qed.

(** X19.  A full bucket lets a burst through.  When a window starts with
    the client's bucket full, the first [burst] requests of the client are
    all handed to the next handler, each on its own writer: their
    responses are the next handler's, not the rate limiter's.  With the
    rejection of every later request of a window too short for a refill,
    the number of requests let through in such a window is exactly
    [burst].  (The configured rate and burst are not negative, and every
    stored bucket is one the middleware made.) *)
Theorem X19_full_bucket_admits_burst rl next client reqs s :
  0 <= RateLimit.requestsPerSecond rl ->
  0 <= RateLimit.burstSize rl ->
  registryOk rl s ->
  quiet next ->
  Forall (fun r => RateLimit.getClientIP r = client) reqs ->
  Rate.advance (bucketOf rl client s) (now s) = RateLimit.burstSize rl * Second ->
  RateLimit.requestsPerSecond rl * (horizon s - now s) < Second ->
  forall (k : nat) r,
    reqs !! k = Some r ->
    Z.of_nat k < RateLimit.burstSize rl ->
    exists s_k,
      (serve (RateLimit.Middleware rl next) reqs s).1 !! k
      = Some (next response _ r newResponse s_k).1.
Proof.
  intros Hr Hb Hok Hq Hall Hfull Hwin k r Hk Hbk.
  apply (serve_window_pass rl next client (now s) (horizon s) reqs 0 s
           Hr Hb Hwin Hq Hall (windowInv_start rl client s Hr Hb Hok Hfull) k r Hk).
  lia.
Qed.

Lemma X19_full_bucket_admits_burst_witness :
  exists s_k,
    (serve (RateLimit.Middleware Sample.limiter Sample.pass)
           [Sample.post; Sample.post; Sample.post] Sample.world).1 !! 1%nat
    = Some (Sample.pass response _ Sample.post newResponse s_k).1.
Proof.
  apply (X19_full_bucket_admits_burst Sample.limiter Sample.pass "10.0.0.1, 10.0.0.2"
           [Sample.post; Sample.post; Sample.post] Sample.world).
  - simpl. lia.
  - simpl. lia.
  - apply map_Forall_empty.
  - intros W inst r w s. split; [reflexivity | split; simpl; lia].
  - repeat constructor.
  - reflexivity.
  - vm_compute. reflexivity.
  - reflexivity.
  - simpl. lia.
Defined.

(** ** Writers and their wrappers *)

#[local] Existing Instance Logging.responseWriter_writer.
#[local] Existing Instance Tracing.tracingResponseWriter_writer.

Lemma perform_app {W} `{ResponseWriter W} cs1 cs2 (w : W) :
  perform (cs1 ++ cs2) w = perform cs2 (perform cs1 w).
Proof. apply foldl_app. Qed.

Lemma perform_cons {W} `{ResponseWriter W} c cs (w : W) :
  perform (c :: cs) w = perform cs (call c w).
Proof. reflexivity. Qed.

(** The server's writer keeps to the contract. *)
Lemma response_lawful : lawful wroteHeader.
Proof.
  unfold lawful, wroteHeader. cbn [WriteHeader Write setHeader response_writer].
  unfold response_Write, response_WriteHeader.
  split; [|split; [|split; [|split]]].
  - intros code w. destruct (sent w) eqn:E; cbn; by rewrite ?E.
  - intros code w Hw. by destruct (sent w).
  - intros data w. destruct (sent w) eqn:E; cbn; by rewrite ?E.
  - intros data w Hw. by destruct (sent w).
  - done.
Qed.

(** Once the header is sent, the status and the headers on the wire
    stay. *)
Lemma sent_perform cs : forall (w : response) x,
  sent w = Some x -> sent (perform cs w) = Some x.
Proof.
  induction cs as [|c cs IH]; intros w x Hw; [done|].
  rewrite perform_cons. apply IH. destruct c; cbn; try done.
  - unfold response_WriteHeader. by rewrite Hw.
  - unfold response_Write, response_WriteHeader. by rewrite Hw.
Qed.

(** The status the client receives is the first one written. *)
Lemma status_perform cs : forall w : response,
  sent w = None ->
  default StatusOK (status (perform cs w)) = firstStatus cs.
Proof.
  induction cs as [|c cs IH]; intros w Hw.
  - unfold status. cbn. by rewrite Hw.
  - rewrite perform_cons. cbn [firstStatus]. destruct c as [k v|k v|code|data].
    + by apply IH.
    + by apply IH.
    + unfold status. rewrite (sent_perform cs _ (code, handlerHeader w)); [done|].
      cbn. unfold response_WriteHeader. by rewrite Hw.
    + unfold status. rewrite (sent_perform cs _ (StatusOK, handlerHeader w)); [done|].
      cbn. unfold response_Write, response_WriteHeader. by rewrite Hw.
Qed.

Section LoggingWriter.
Context {W : Type} {inst : ResponseWriter W}.
Variable wrote : W -> bool.
Hypothesis Hlaw : lawful wrote.

(** The wrapper keeps to the contract, whatever it wraps. *)
Lemma Logging_lawful : lawful (Logging.written (W:=W)).
Proof.
  unfold lawful. cbn [WriteHeader Write setHeader Logging.responseWriter_writer].
  unfold Logging.rw_Write, Logging.rw_WriteHeader.
  split; [|split; [|split; [|split]]].
  - intros code rw. destruct (Logging.written rw) eqn:E; cbn; by rewrite ?E.
  - intros code rw E. by rewrite E.
  - intros data rw. destruct (Logging.written rw) eqn:E; cbn; by rewrite ?E.
  - intros data rw E. by rewrite E.
  - done.
Qed.

Lemma Logging_call c rw :
  loggingInv wrote rw ->
  Logging.inner (call c rw) = call c (Logging.inner rw) /\ loggingInv wrote (call c rw).
Proof.
  destruct Hlaw as (L1 & L2 & L3 & L4 & L5). unfold loggingInv. intros Hinv.
  destruct c as [k v|k v|code|data]; cbn [call].
  - split; [reflexivity|]. cbn. rewrite L5. exact Hinv.
  - split; [reflexivity|]. cbn. rewrite L5. exact Hinv.
  - cbn [WriteHeader Logging.responseWriter_writer]. unfold Logging.rw_WriteHeader.
    destruct (Logging.written rw) eqn:Hw; cbn [negb Logging.inner Logging.written].
    + split; [|intros _; by apply Hinv]. symmetry. apply L2. by apply Hinv.
    + split; [reflexivity|]. intros _. apply L1.
  - cbn [Write Logging.responseWriter_writer].
    unfold Logging.rw_Write, Logging.rw_WriteHeader.
    destruct (Logging.written rw) eqn:Hw; cbn [negb Logging.inner Logging.written].
    + split; [reflexivity|]. intros _. apply L3.
    + split; [|intros _; apply L3].
      destruct (wrote (Logging.inner rw)) eqn:Hin.
      * by rewrite (L2 _ _ Hin).
      * symmetry. by apply L4.
Qed.

(** The writer inside the wrapper receives the calls made on the
    wrapper. *)
Lemma Logging_inner_perform cs : forall rw,
  loggingInv wrote rw -> Logging.inner (perform cs rw) = perform cs (Logging.inner rw).
Proof.
  induction cs as [|c cs IH]; intros rw Hinv; [done|].
  rewrite !perform_cons. destruct (Logging_call c rw Hinv) as [Heq Hinv'].
  rewrite (IH _ Hinv'), Heq. reflexivity.
Qed.

(** The status the wrapper records. *)
Lemma Logging_statusCode cs : forall rw : Logging.responseWriter W,
  (Logging.written rw = false -> Logging.statusCode rw = StatusOK) ->
  Logging.statusCode (perform cs rw)
  = (if Logging.written rw then Logging.statusCode rw else firstStatus cs).
Proof.
  induction cs as [|c cs IH]; intros rw Hfresh.
  - cbn. destruct (Logging.written rw); [done|]. by apply Hfresh.
  - rewrite perform_cons. destruct c as [k v|k v|code|data]; cbn [call firstStatus].
    + by rewrite IH.
    + by rewrite IH.
    + rewrite IH.
      * cbn [WriteHeader Logging.responseWriter_writer]. unfold Logging.rw_WriteHeader.
        destruct (Logging.written rw) eqn:E; cbn; by rewrite ?E.
      * cbn [WriteHeader Logging.responseWriter_writer]. unfold Logging.rw_WriteHeader.
        destruct (Logging.written rw) eqn:E; cbn; [by rewrite E | done].
    + rewrite IH.
      * cbn [Write Logging.responseWriter_writer]. unfold Logging.rw_Write, Logging.rw_WriteHeader.
        destruct (Logging.written rw) eqn:E; cbn; by rewrite ?E.
      * cbn [Write Logging.responseWriter_writer]. unfold Logging.rw_Write, Logging.rw_WriteHeader.
        destruct (Logging.written rw) eqn:E; cbn; [by rewrite E | done].
Qed.

Lemma Logging_fresh cs (w : W) :
  Logging.inner (perform cs (Logging.mkResponseWriter w StatusOK false)) = perform cs w
  /\ Logging.statusCode (perform cs (Logging.mkResponseWriter w StatusOK false))
     = firstStatus cs.
Proof.
  split.
  - by rewrite Logging_inner_perform.
  - by rewrite Logging_statusCode.
Qed.

End LoggingWriter.

Section TracingWriter.
Context {W : Type} {inst : ResponseWriter W}.
Variable wrote : W -> bool.
Hypothesis Hlaw : lawful wrote.

Lemma Tracing_lawful : lawful (Tracing.written (W:=W)).
Proof.
  unfold lawful. cbn [WriteHeader Write setHeader Tracing.tracingResponseWriter_writer].
  unfold Tracing.trw_Write, Tracing.trw_WriteHeader.
  split; [|split; [|split; [|split]]].
  - intros code rw. destruct (Tracing.written rw) eqn:E; cbn; by rewrite ?E.
  - intros code rw E. by rewrite E.
  - intros data rw. destruct (Tracing.written rw) eqn:E; cbn; by rewrite ?E.
  - intros data rw E. by rewrite E.
  - done.
Qed.

Lemma Tracing_call c rw :
  tracingInv wrote rw ->
  Tracing.inner (call c rw) = call c (Tracing.inner rw) /\ tracingInv wrote (call c rw).
Proof.
  destruct Hlaw as (L1 & L2 & L3 & L4 & L5). unfold tracingInv. intros Hinv.
  destruct c as [k v|k v|code|data]; cbn [call].
  - split; [reflexivity|]. cbn. rewrite L5. exact Hinv.
  - split; [reflexivity|]. cbn. rewrite L5. exact Hinv.
  - cbn [WriteHeader Tracing.tracingResponseWriter_writer]. unfold Tracing.trw_WriteHeader.
    destruct (Tracing.written rw) eqn:Hw; cbn [negb Tracing.inner Tracing.written].
    + split; [|intros _; by apply Hinv]. symmetry. apply L2. by apply Hinv.
    + split; [reflexivity|]. intros _. apply L1.
  - cbn [Write Tracing.tracingResponseWriter_writer].
    unfold Tracing.trw_Write, Tracing.trw_WriteHeader.
    destruct (Tracing.written rw) eqn:Hw; cbn [negb Tracing.inner Tracing.written].
    + split; [reflexivity|]. intros _. apply L3.
    + split; [|intros _; apply L3].
      destruct (wrote (Tracing.inner rw)) eqn:Hin.
      * by rewrite (L2 _ _ Hin).
      * symmetry. by apply L4.
Qed.

Lemma Tracing_inner_perform cs : forall rw,
  tracingInv wrote rw -> Tracing.inner (perform cs rw) = perform cs (Tracing.inner rw).
Proof.
  induction cs as [|c cs IH]; intros rw Hinv; [done|].
  rewrite !perform_cons. destruct (Tracing_call c rw Hinv) as [Heq Hinv'].
  rewrite (IH _ Hinv'), Heq. reflexivity.
Qed.

Lemma Tracing_statusCode cs : forall rw : Tracing.tracingResponseWriter W,
  (Tracing.written rw = false -> Tracing.statusCode rw = StatusOK) ->
  Tracing.statusCode (perform cs rw)
  = (if Tracing.written rw then Tracing.statusCode rw else firstStatus cs).
Proof.
  induction cs as [|c cs IH]; intros rw Hfresh.
  - cbn. destruct (Tracing.written rw); [done|]. by apply Hfresh.
  - rewrite perform_cons. destruct c as [k v|k v|code|data]; cbn [call firstStatus].
    + by rewrite IH.
    + by rewrite IH.
    + rewrite IH.
      * cbn [WriteHeader Tracing.tracingResponseWriter_writer]. unfold Tracing.trw_WriteHeader.
        destruct (Tracing.written rw) eqn:E; cbn; by rewrite ?E.
      * cbn [WriteHeader Tracing.tracingResponseWriter_writer]. unfold Tracing.trw_WriteHeader.
        destruct (Tracing.written rw) eqn:E; cbn; [by rewrite E | done].
    + rewrite IH.
      * cbn [Write Tracing.tracingResponseWriter_writer]. unfold Tracing.trw_Write, Tracing.trw_WriteHeader.
        destruct (Tracing.written rw) eqn:E; cbn; by rewrite ?E.
      * cbn [Write Tracing.tracingResponseWriter_writer]. unfold Tracing.trw_Write, Tracing.trw_WriteHeader.
        destruct (Tracing.written rw) eqn:E; cbn; [by rewrite E | done].
Qed.

Lemma Tracing_fresh cs (w : W) :
  Tracing.inner (perform cs (Tracing.mkTracingResponseWriter w StatusOK false))
  = perform cs w
  /\ Tracing.statusCode (perform cs (Tracing.mkTracingResponseWriter w StatusOK false))
     = firstStatus cs.
Proof.
  split.
  - by rewrite Tracing_inner_perform.
  - by rewrite Tracing_statusCode.
Qed.

End TracingWriter.

(** ** The stages, call by call *)

Lemma Logging_answers next r s cs s' :
  answers next r (time_Now s).2 cs s' ->
  answers (Logging.Middleware next) r s cs
    (metric "RecordHTTPRequest" [Method r; Path r; Itoa (firstStatus cs)]
       (log "HTTP request" [Method r; Path r; UserAgent r; Itoa (firstStatus cs)]
          (time_Now s').2).2).2.
Proof.
  intros Hn W inst wrote Hlaw w. unfold Logging.Middleware.
  unfold mbind at 1. unfold M_bind at 1. destruct (time_Now s) as [t0 s0].
  cbn [snd] in Hn.
  unfold mbind at 1. unfold M_bind at 1.
  rewrite (Hn (Logging.responseWriter W) _ Logging.written Logging_lawful).
  destruct (Logging_fresh wrote Hlaw cs w) as [Hin Hst].
  unfold time_Since. unfold mbind, M_bind, mret, M_ret.
  destruct (time_Now s') as [t1 s1]. cbn [fst snd].
  rewrite Hst, Hin.
  unfold metric, log, emit. reflexivity.
Qed.

Lemma Tracing_answers next r s cs s' :
  answers next r (atSpan r s) cs s' ->
  answers (Tracing.Middleware next) r s cs
    (span "End" []
       (span "SetStatus" (spanStatus (firstStatus cs))
          (span "AddAttributes" [Itoa (firstStatus cs)] s').2).2).2.
Proof.
  intros Hn W inst wrote Hlaw w. unfold Tracing.Middleware, atSpan in *.
  unfold mbind at 1. unfold M_bind at 1.
  destruct (span "StartServerSpan" _ s) as [[] s0]. cbn [snd] in Hn.
  unfold mbind at 1. unfold M_bind at 1.
  destruct (span "AddRequestAttributes" _ s0) as [[] s1]. cbn [snd] in Hn.
  unfold mbind at 1. unfold M_bind at 1.
  destruct (span "SetAttributes" _ s1) as [[] s2]. cbn [snd] in Hn.
  unfold mbind at 1. unfold M_bind at 1.
  rewrite (Hn (Tracing.tracingResponseWriter W) _ Tracing.written Tracing_lawful).
  destruct (Tracing_fresh wrote Hlaw cs w) as [Hin Hst].
  unfold mbind, M_bind, mret, M_ret. rewrite Hst, Hin.
  unfold spanStatus.
  destruct (400 <=? firstStatus cs); [destruct (500 <=? firstStatus cs)|];
    reflexivity.
Qed.

Lemma CORS_answers next r s cs s' :
  Method r <> MethodOptions ->
  answers next r s cs s' ->
  answers (CORS.Middleware next) r s (corsCalls ++ cs) s'.
Proof.
  intros Hm Hn W inst wrote Hlaw w. unfold CORS.Middleware.
  rewrite bool_decide_eq_false_2 by done.
  rewrite (Hn W inst wrote Hlaw), perform_app. reflexivity.
Qed.

(** [handleRateLimitExceeded] makes the same calls on every writer. *)
Lemma handleRateLimitExceeded_answers rl W (inst : ResponseWriter W) (w : W) r c s :
  RateLimit.handleRateLimitExceeded rl w r c s
  = (perform (rejectCalls rl (Rate.TokensAt (bucketOf rl c s) (time_Now s).1)) w,
     (RateLimit.handleRateLimitExceeded rl newResponse r c s).2).
Proof.
  unfold RateLimit.handleRateLimitExceeded, RateLimit.getLimiterForIP,
    RateLimit.Tokens, bucketOf.
  unfold mbind, M_bind, mret, M_ret, metric, log, emit, time_Now.
  destruct s as [t0 tks n ls la tr]. cbn [limiters ticks now calls trace lastAccess].
  destruct (ls !! c) as [lim|]; destruct tks as [|d tl]; reflexivity.
Qed.

Lemma RateLimit_answers_reject rl next r s :
  (charged rl r s).1 = false ->
  answers (RateLimit.Middleware rl next) r s
    (rejectCalls rl (Rate.TokensAt (bucketOf rl (RateLimit.getClientIP r) (charged rl r s).2)
                                   (time_Now (charged rl r s).2).1))
    (RateLimit.handleRateLimitExceeded rl newResponse r (RateLimit.getClientIP r)
       (charged rl r s).2).2.
Proof.
  intros Hc W inst wrote Hlaw w. rewrite Middleware_charged, Hc. cbn [negb].
  apply handleRateLimitExceeded_answers.
Qed.

Lemma RateLimit_answers_pass rl next r s cs s' :
  (charged rl r s).1 = true ->
  answers next r (charged rl r s).2 cs s' ->
  answers (RateLimit.Middleware rl next) r s cs s'.
Proof.
  intros Hc Hn W inst wrote Hlaw w. rewrite Middleware_charged, Hc. cbn [negb].
  by apply (Hn W inst wrote).
Qed.

(** ** The logging and tracing stages *)

(** X20.  The logging stage is transparent and logs the status the client
    receives.  Let the next handler deal with its writer by calls alone.
    Then the writer the logging stage was given ends as if the next
    handler had been given it directly, whatever writer it is, provided it
    keeps to the contract of [http.ResponseWriter]; and on the server's
    writer the status in the access log line and in the request metric is
    the status sent to the client, or 200 when the handler has sent
    nothing. *)
Theorem X20_logging_stage_transparent next r s cs s' :
  answers next r (time_Now s).2 cs s' ->
  (forall W (inst : ResponseWriter W) (wrote : W -> bool),
     @lawful W inst wrote ->
     forall w : W,
       (Logging.Middleware next W inst r w s).1 = (next W inst r w (time_Now s).2).1)
  /\ (forall w : response,
        sent w = None ->
        trace (Logging.Middleware next response _ r w s).2
        = trace s'
          ++ [EvLog "HTTP request"
                [Method r; Path r; UserAgent r;
                 Itoa (default StatusOK
                         (status (Logging.Middleware next response _ r w s).1))];
              EvMetric "RecordHTTPRequest"
                [Method r; Path r;
                 Itoa (default StatusOK
                         (status (Logging.Middleware next response _ r w s).1))]]).
Proof.
  intros Hn. pose proof (Logging_answers next r s cs s' Hn) as Hl. split.
  - intros W inst wrote Hlaw w.
    by rewrite (Hl W inst wrote Hlaw w), (Hn W inst wrote Hlaw w).
  - intros w Hw. rewrite (Hl response _ wroteHeader response_lawful w). cbn [fst snd].
    rewrite (status_perform cs w Hw).
    unfold metric, log, emit. cbn [snd trace].
    destruct (time_Now_frame s') as (_ & -> & _). by rewrite <- app_assoc.
Qed.

Lemma X20_logging_stage_transparent_witness :
  (Logging.Middleware Sample.pass response _ Sample.post Sample.writer Sample.world).1
  = (Sample.pass response _ Sample.post Sample.writer (time_Now Sample.world).2).1
  /\ trace (Logging.Middleware Sample.pass response _ Sample.post Sample.writer
              Sample.world).2
     = trace Sample.world
       ++ [EvLog "HTTP request"
             [Method Sample.post; Path Sample.post; UserAgent Sample.post;
              Itoa (default StatusOK
                      (status (Logging.Middleware Sample.pass response _ Sample.post
                                 Sample.writer Sample.world).1))];
           EvMetric "RecordHTTPRequest"
             [Method Sample.post; Path Sample.post;
              Itoa (default StatusOK
                      (status (Logging.Middleware Sample.pass response _ Sample.post
                                 Sample.writer Sample.world).1))]].
Proof.
  destruct (X20_logging_stage_transparent Sample.pass Sample.post Sample.world
              [CallWriteHeader StatusOK] Sample.world) as [H1 H2].
  - intros W inst wrote Hlaw w. reflexivity.
  - split.
    + apply (H1 response _ wroteHeader response_lawful).
    + apply H2. reflexivity.
Defined.

(** X21.  The tracing stage is transparent, sets the span's status from
    the status written, and always ends the span.  Let the next handler
    deal with its writer by calls alone.  Then the writer the tracing
    stage was given ends as if the next handler had been given it
    directly; after the next handler the stage adds the status as an
    attribute, marks the span as an error "HTTP 5xx" for a status of 500
    or more, "HTTP 4xx" for one from 400 to 499 and Ok otherwise, and ends
    the span, these being the last things it does. *)
Theorem X21_tracing_stage_transparent next r s cs s' :
  answers next r (atSpan r s) cs s' ->
  (forall W (inst : ResponseWriter W) (wrote : W -> bool),
     @lawful W inst wrote ->
     forall w : W,
       (Tracing.Middleware next W inst r w s).1 = (next W inst r w (atSpan r s)).1)
  /\ (forall w : response,
        sent w = None ->
        trace (Tracing.Middleware next response _ r w s).2
        = trace s'
          ++ [EvSpan "AddAttributes"
                [Itoa (default StatusOK
                         (status (Tracing.Middleware next response _ r w s).1))];
              EvSpan "SetStatus"
                (spanStatus (default StatusOK
                               (status (Tracing.Middleware next response _ r w s).1)));
              EvSpan "End" []]).
Proof.
  intros Hn. pose proof (Tracing_answers next r s cs s' Hn) as Hl. split.
  - intros W inst wrote Hlaw w.
    by rewrite (Hl W inst wrote Hlaw w), (Hn W inst wrote Hlaw w).
  - intros w Hw. rewrite (Hl response _ wroteHeader response_lawful w). cbn [fst snd].
    rewrite (status_perform cs w Hw).
    unfold span, emit. cbn [snd trace]. by rewrite <- !app_assoc.
Qed.

Lemma X21_tracing_stage_transparent_witness :
  (Tracing.Middleware Sample.pass response _ Sample.post Sample.writer Sample.world).1
  = (Sample.pass response _ Sample.post Sample.writer
       (atSpan Sample.post Sample.world)).1
  /\ trace (Tracing.Middleware Sample.pass response _ Sample.post Sample.writer
              Sample.world).2
     = trace (atSpan Sample.post Sample.world)
       ++ [EvSpan "AddAttributes"
             [Itoa (default StatusOK
                      (status (Tracing.Middleware Sample.pass response _ Sample.post
                                 Sample.writer Sample.world).1))];
           EvSpan "SetStatus"
             (spanStatus (default StatusOK
                            (status (Tracing.Middleware Sample.pass response _
                                       Sample.post Sample.writer Sample.world).1)));
           EvSpan "End" []].
Proof.
  destruct (X21_tracing_stage_transparent Sample.pass Sample.post Sample.world
              [CallWriteHeader StatusOK] (atSpan Sample.post Sample.world)) as [H1 H2].
  - intros W inst wrote Hlaw w. reflexivity.
  - split.
    + apply (H1 response _ wroteHeader response_lawful).
    + apply H2. reflexivity.
Defined.

(** ** The chain on a client over its limit *)

Lemma atSpan_frame r s :
  now (atSpan r s) = now s /\ ticks (atSpan r s) = ticks s
  /\ calls (atSpan r s) = calls s /\ limiters (atSpan r s) = limiters s
  /\ lastAccess (atSpan r s) = lastAccess s.
Proof. done. Qed.

(** Whether a bucket is exhausted depends on the clock and the registry
    alone. *)
Lemma exhausted_frame rl r s s' :
  now s' = now s -> ticks s' = ticks s -> limiters s' = limiters s ->
  exhausted rl r s -> exhausted rl r s'.
Proof.
  unfold exhausted, clientBucket, allowTime, time_Now.
  destruct s as [t tks c ls la tr], s' as [t' tks' c' ls' la' tr']. cbn.
  intros -> -> ->. by destruct tks as [|d1 [|d2 tl]].
Qed.

Lemma exhausted_charged rl r s :
  exhausted rl r s -> (charged rl r s).1 = false.
Proof.
  unfold exhausted. intros Hex. destruct (charged_spec rl r s) as (-> & _). lia.
Qed.

(** The count [handleRateLimitExceeded] reports for a client it has just
    turned away. *)
Lemma remaining_nonneg rl r s :
  0 <= RateLimit.requestsPerSecond rl ->
  0 <= RateLimit.burstSize rl ->
  registryOk rl s ->
  exhausted rl r s ->
  0 <= Rate.TokensAt (bucketOf rl (RateLimit.getClientIP r) (charged rl r s).2)
                     (time_Now (charged rl r s).2).1.
Proof.
  intros Hr Hb Hok Hex. destruct (charged_spec rl r s) as (_ & Hl & _).
  unfold exhausted in Hex.
  assert ((Second <=? Rate.advance (clientBucket rl r s) (allowTime s)) = false)
    as Hno by lia.
  unfold bucketOf. rewrite Hl, lookup_insert_eq. cbn [default]; unfold id.
  unfold Rate.AllowAt. rewrite Hno. cbn [snd].
  destruct (clientBucket_ok rl r s Hr Hb Hok) as (Hlim & Hbur & Htok).
  apply TokensAt_nonneg; lia.
Qed.

(** The calls of the chain on a request whose client is over its limit. *)
Lemma chain_answers_reject cfg r s :
  Main.RateLimitEnabled cfg = true ->
  Method r <> MethodOptions ->
  0 <= RateLimit.requestsPerSecond (Main.RateLimitCfg cfg) ->
  0 <= RateLimit.burstSize (Main.RateLimitCfg cfg) ->
  registryOk (Main.RateLimitCfg cfg) s ->
  exhausted (Main.RateLimitCfg cfg) r (time_Now s).2 ->
  exists remaining s'',
    0 <= remaining
    /\ forall env h,
         answers (Main.chain env cfg h) r s
           (corsCalls ++ rejectCalls (Main.RateLimitCfg cfg) remaining) s''.
Proof.
  intros Hen Hm Hr Hb Hok Hex. unfold Main.chain. rewrite Hen.
  destruct (time_Now_frame s) as (_ & _ & Fl & _).
  assert (registryOk (Main.RateLimitCfg cfg) (time_Now s).2) as Hok1.
  { unfold registryOk. by rewrite Fl. }
  destruct (Main.TracingEnabled cfg); cbn [Main.useIf].
  - assert (exhausted (Main.RateLimitCfg cfg) r (atSpan r (time_Now s).2)) as Hex'.
    { by apply (exhausted_frame _ _ (time_Now s).2). }
    assert (registryOk (Main.RateLimitCfg cfg) (atSpan r (time_Now s).2)) as Hok2
      by exact Hok1.
    eexists _, _. split; [exact (remaining_nonneg _ _ _ Hr Hb Hok2 Hex')|].
    intros env h. apply Logging_answers, CORS_answers; [done|].
    apply Tracing_answers, RateLimit_answers_reject. by apply exhausted_charged.
  - eexists _, _. split; [exact (remaining_nonneg _ _ _ Hr Hb Hok1 Hex)|].
    intros env h. apply Logging_answers, CORS_answers; [done|].
    apply RateLimit_answers_reject. by apply exhausted_charged.
Qed.

(** What the client receives of the calls of the CORS stage followed by
    those of the rejection. *)
Lemma rejected_after_cors rl remaining (w : response) :
  sent w = None ->
  rejected rl remaining (perform (corsCalls ++ rejectCalls rl remaining) w)
  /\ sentBody (perform (corsCalls ++ rejectCalls rl remaining) w)
     = sentBody w +:+ RateLimit.errorResponse
  /\ Get (sentHeader (perform (corsCalls ++ rejectCalls rl remaining) w))
         "Access-Control-Allow-Credentials" = "true"
  /\ Get (sentHeader (perform (corsCalls ++ rejectCalls rl remaining) w))
         "Access-Control-Max-Age" = "3600".
Proof.
  intros Hw. rewrite perform_app.
  set (w1 := perform corsCalls w).
  assert (sent w1 = None /\ sentBody w1 = sentBody w
          /\ handlerHeader w1
             = Set_ "Access-Control-Max-Age" "3600"
                 (Set_ "Access-Control-Allow-Credentials" "true"
                    (Set_ "Access-Control-Allow-Headers"
                       "Accept, Content-Type, Content-Length, Accept-Encoding, Authorization, X-CSRF-Token, X-Requested-With"
                       (Set_ "Access-Control-Allow-Methods"
                          "GET, POST, PUT, DELETE, OPTIONS, PATCH"
                          (Set_ "Access-Control-Allow-Origin" "*" (handlerHeader w))))))
    as (Hs1 & Hb1 & Hh1).
  { unfold w1, corsCalls. cbn [perform foldl call]. by writer_simpl. }
  clearbody w1.
  split; [exact (rejected_written rl remaining w1 Hs1)|].
  unfold rejectCalls. cbn [perform foldl call].
  match goal with |- context [Write ?d (WriteHeader ?c ?w0)] =>
    destruct (written w0 c d) as (_ & -> & ->); [by writer_simpl|] end.
  writer_simpl. rewrite Hb1, Hh1. split; [done|]. split; by header_get.
Qed.

(** X22.  Rate limiting comes before authentication.  In the chain [main]
    installs, with rate limiting on, a request that is not a preflight and
    whose client is over its limit is answered 429 by the rate limiter,
    whether or not it carries credentials and whatever its path: the
    token validator and the terminal handler play no part.  The response
    carries the rate limiter's narrower CORS methods and headers, and from
    the CORS stage before it Access-Control-Allow-Credentials and
    Access-Control-Max-Age.  (The logging stage reads the clock once
    before the limiter looks at the bucket; the writer has sent nothing
    yet.) *)
Theorem X22_rate_limit_precedes_auth env cfg h r (w : response) s :
  Main.RateLimitEnabled cfg = true ->
  Method r <> "OPTIONS" ->
  0 <= RateLimit.requestsPerSecond (Main.RateLimitCfg cfg) ->
  0 <= RateLimit.burstSize (Main.RateLimitCfg cfg) ->
  registryOk (Main.RateLimitCfg cfg) s ->
  exhausted (Main.RateLimitCfg cfg) r (time_Now s).2 ->
  sent w = None ->
  rateLimited (Main.RateLimitCfg cfg) w (Main.chain env cfg h response _ r w s).1
  /\ Get (sentHeader (Main.chain env cfg h response _ r w s).1)
         "Access-Control-Allow-Credentials" = "true"
  /\ Get (sentHeader (Main.chain env cfg h response _ r w s).1)
         "Access-Control-Max-Age" = "3600"
  /\ forall env' h',
       Main.chain env' cfg h' response _ r w s = Main.chain env cfg h response _ r w s.
Proof.
  intros Hen Hm Hr Hb Hok Hex Hw.
  destruct (chain_answers_reject cfg r s Hen Hm Hr Hb Hok Hex)
    as (remaining & s'' & Hrem & Hans).
  assert (forall env0 h0,
            Main.chain env0 cfg h0 response _ r w s
            = (perform (corsCalls ++ rejectCalls (Main.RateLimitCfg cfg) remaining) w,
               s'')) as Heq.
  { intros env0 h0. apply (Hans env0 h0 response _ wroteHeader response_lawful). }
  rewrite (Heq env h). cbn [fst].
  destruct (rejected_after_cors (Main.RateLimitCfg cfg) remaining w Hw)
    as (Hrej & Hbody & Hcred & Hage).
  split; [by exists remaining|]. split; [exact Hcred|]. split; [exact Hage|].
  intros env' h'. by rewrite !Heq.
Qed.

Lemma X22_rate_limit_precedes_auth_witness :
  rateLimited Sample.limiter newResponse
    (Main.chain (Sample.env []) Sample.gateway Sample.pass response _
       Sample.post newResponse Sample.drained).1
  /\ Get (sentHeader (Main.chain (Sample.env []) Sample.gateway Sample.pass response _
                        Sample.post newResponse Sample.drained).1)
         "Access-Control-Allow-Credentials" = "true".
Proof.
  destruct (X22_rate_limit_precedes_auth (Sample.env []) Sample.gateway Sample.pass
              Sample.post newResponse Sample.drained) as (H1 & H2 & _).
  - reflexivity.
  - discriminate.
  - simpl. lia.
  - simpl. lia.
  - apply map_Forall_insert_2; [|apply map_Forall_empty]. simpl. lia.
  - vm_compute. reflexivity.
  - reflexivity.
  - split; [exact H1 | exact H2].
Defined.

(** ** The chain on a request without credentials *)


(** The clock and the registry decide what charging a bucket does. *)
Lemma charged_frame rl r s s' :
  now s' = now s -> ticks s' = ticks s -> limiters s' = limiters s ->
  (charged rl r s').1 = (charged rl r s).1
  /\ limiters (charged rl r s').2 = limiters (charged rl r s).2.
Proof.
  intros Hn Ht Hl.
  destruct (charged_spec rl r s) as (-> & -> & _).
  destruct (charged_spec rl r s') as (-> & -> & _).
  assert (clientBucket rl r s' = clientBucket rl r s) as ->
    by (unfold clientBucket; by rewrite Hl).
  assert (allowTime s' = allowTime s) as ->.
  { unfold allowTime, time_Now.
    destruct s as [t tks c ls la tr], s' as [t' tks' c' ls' la' tr']. cbn in *.
    subst. by destruct tks as [|d1 [|d2 tl]]. }
  by rewrite Hl.
Qed.







(** ** The chain on an authenticated request *)

Lemma copyResponseHeaders_perform {W} `{ResponseWriter W} src : forall w : W,
  Proxy.copyResponseHeaders src w = perform (headerCalls src) w.
Proof.
  unfold Proxy.copyResponseHeaders.
  induction src as [|[name vals] src IH]; intros w; [done|].
  cbn [foldl headerCalls flat_map]. rewrite perform_app, IH. f_equal.
  destruct (negb (Proxy.isHopByHopHeader name)); [|done].
  clear. revert w. induction vals as [|v vals IHv]; intros w; [done|].
  cbn [foldl map]. rewrite perform_cons. by rewrite IHv.
Qed.

(** [copyResponse] makes the same calls on every writer. *)
Lemma copyResponse_perform {W} `{ResponseWriter W} (w : W) resp :
  Proxy.copyResponse w resp = (rd_err (rBody resp), perform (relayCalls resp) w).
Proof.
  unfold Proxy.copyResponse, Proxy.io_Copy, relayCalls.
  rewrite copyResponseHeaders_perform, !perform_app. f_equal.
  by case_bool_decide.
Qed.

(** The handler when the retry loop returns a response whose body reads
    to its end: the calls it makes, on every writer. *)
Lemma ProxyHandler_answers env cfg r s name target ep resp r' s3 :
  Proxy.determineTarget cfg r = Ok (name, target) ->
  Proxy.getServiceConfig cfg name = Ok ep ->
  Proxy.proxyWithRetries env (Ctx r) r target ep (atProxy name s) = ((Ok resp, r'), s3) ->
  rd_err (rBody resp) = None ->
  exists s4,
    calls s4 = calls s3
    /\ upstreamCalls (trace s4) = upstreamCalls (trace s3)
    /\ answers (GatewayHandler.ProxyHandler env cfg) r s (relayCalls resp) s4.
Proof.
  intros Ht Hc Hp Hread. unfold answers, atProxy in *.
  destruct (time_Now s) as [t0 s0] eqn:E0. cbn [snd] in Hp.
  destruct (time_Now s0) as [t1 s1] eqn:E1. cbn [snd] in Hp.
  destruct s3 as [t3 tks c ls la tr].
  destruct tks as [|d1 [|d2 tl]];
    (eexists; split; [|split; [|intros W inst wrote Hlaw w;
       unfold GatewayHandler.ProxyHandler, Proxy.ProxyRequest;
       unfold mbind at 1; unfold M_bind at 1; rewrite E0;
       unfold mbind at 1; unfold M_bind at 1;
       unfold mbind at 1; unfold M_bind at 1; rewrite E1, Ht, Hc;
       unfold mbind at 1; unfold M_bind at 1;
       destruct (metric "RecordUpstreamRequestStart" [name] s1) as [[] s2];
       cbn [snd] in Hp;
       unfold mbind at 1; unfold M_bind at 1; rewrite Hp;
       rewrite copyResponse_perform, Hread;
       unfold time_Since; run; unfold time_Now; cbn; reflexivity]]);
    cbn; rewrite ?upstreamCalls_app, ?app_nil_r; done.
Qed.

(** The identity the auth stage stores in the context plays no part in
    the request built for the upstream. *)
Lemma createProxyRequest_ctx env u r targetURL :
  Proxy.createProxyRequest env (WithUserContext u r) targetURL
  = ((Proxy.createProxyRequest env r targetURL).1,
     WithUserContext u (Proxy.createProxyRequest env r targetURL).2).
Proof.
  unfold Proxy.createProxyRequest.
  destruct (url_Parse env targetURL) as [target|e]; [|done].
  change (Body (WithUserContext u r)) with (Body r).
  destruct (Body r) as [rd|].
  - unfold ReadAll. destruct (rd_err rd) as [e|]; [done|].
    change (Method (set_Body ?b (WithUserContext u r))) with (Method r).
    change (Method (set_Body ?b r)) with (Method r).
    by destruct (Proxy.NewRequestWithContext env (Method r) target _).
  - change (Method (WithUserContext u r)) with (Method r).
    by destruct (Proxy.NewRequestWithContext env (Method r) target None).
Qed.

(** The auth stage in front of a handler that deals with its writer by
    calls alone, on a token the validator accepts. *)
Lemma Auth_answers_valid env next r s token u cs s' :
  Auth.isPublicPath (Path r) = false ->
  Auth.ExtractTokenFromHeader (Get (Header_ r) "Authorization") = Ok token ->
  ValidateToken env token = Ok u ->
  answers next (WithUserContext u r) (atHandler u r s) cs s' ->
  answers (Auth.Middleware env next) r s cs s'.
Proof.
  intros Hpub Htok Hval Hn W inst wrote Hlaw w. unfold Auth.Middleware, atHandler in *.
  unfold mbind at 1. unfold M_bind at 1. destruct (time_Now s) as [t s1].
  cbn [fst snd] in Hn. rewrite Hpub, Htok, Hval.
  unfold mbind at 1. unfold M_bind at 1.
  destruct (Auth.recordAuthMetrics Auth.ValidationSuccess t s1) as [[] s2].
  cbn [snd] in Hn.
  unfold mbind at 1. unfold M_bind at 1.
  change (Path (WithUserContext u r)) with (Path r).
  change (Method (WithUserContext u r)) with (Method r).
  destruct (log "Authentication successful" _ s2) as [[] s3]. cbn [snd] in Hn.
  by apply (Hn W inst wrote).
Qed.

Lemma atHandler_frame u r s :
  calls (atHandler u r s) = calls s
  /\ upstreamCalls (trace (atHandler u r s)) = upstreamCalls (trace s).
Proof.
  unfold atHandler, Auth.recordAuthMetrics, time_Since, mbind, M_bind, mret, M_ret,
    metric, log, emit, time_Now.
  destruct s as [t0 tks c ls la tr]. cbn [ticks now calls limiters lastAccess trace].
  destruct tks as [|d1 [|d2 tl]]; cbn; rewrite ?upstreamCalls_app, ?app_nil_r; done.
Qed.

(** The gateway handler behind the auth stage, on a request with a token
    the validator accepts and an upstream that answers at once. *)
Lemma authenticated_answers env cfg r s token u req r' resp :
  Auth.isPublicPath (Path r) = false ->
  Auth.ExtractTokenFromHeader (Get (Header_ r) "Authorization") = Ok token ->
  ValidateToken env token = Ok u ->
  routed (Path r) = true ->
  0 <= Retries (endpointOf cfg (Path r)) ->
  Proxy.createProxyRequest env r (BaseURL (endpointOf cfg (Path r)) +:+ Path r)
  = (Ok req, r') ->
  client_Do env (calls s) req = Ok resp ->
  Proxy.shouldRetry (StatusCode resp) = false ->
  rd_err (rBody resp) = None ->
  exists s',
    calls s' = S (calls s)
    /\ upstreamCalls (trace s') = upstreamCalls (trace s) ++ [req]
    /\ answers (Auth.Middleware env (GatewayHandler.ProxyHandler env cfg)) r s
         (relayCalls resp) s'.
Proof.
  intros Hpub Htok Hval Hroute HR Hcreate Hdo Hno Hread.
  destruct (determineTarget_routed cfg (WithUserContext u r) Hroute) as (name & Ht & Hc).
  change (Path (WithUserContext u r)) with (Path r) in *.
  destruct (atHandler_frame u r s) as (Ac & Au).
  destruct (atProxy_frame name (atHandler u r s)) as (Fc & Ft & _).
  assert (Proxy.createProxyRequest env (WithUserContext u r)
            (BaseURL (endpointOf cfg (Path r)) +:+ Path r)
          = (Ok req, WithUserContext u r')) as Hcreate'.
  { by rewrite createProxyRequest_ctx, Hcreate. }
  pose proof (proxyWithRetries_first env (Ctx (WithUserContext u r)) _ _ _
                (atProxy name (atHandler u r s)) req _ resp HR Hcreate'
                ltac:(by rewrite Fc, Ac) Hno) as Hp.
  destruct (ProxyHandler_answers env cfg _ _ _ _ _ _ _ _ Ht Hc Hp Hread)
    as (s4 & Hcalls & Htrace & Hans).
  exists s4. split; [|split].
  - rewrite Hcalls. unfold afterCalls. cbn [calls]. by rewrite Fc, Ac.
  - rewrite Htrace. unfold afterCalls. cbn [trace].
    rewrite Ft, !upstreamCalls_app, Au. cbn. by rewrite app_nil_r.
  - by apply (Auth_answers_valid env _ r s token u).
Qed.

(** What the logging and the tracing stage do once the next handler is
    back leaves the upstream alone. *)
Lemma Logging_end_frame r code s :
  calls (metric "RecordHTTPRequest" [Method r; Path r; Itoa code]
           (log "HTTP request" [Method r; Path r; UserAgent r; Itoa code]
              (time_Now s).2).2).2 = calls s
  /\ upstreamCalls
       (trace (metric "RecordHTTPRequest" [Method r; Path r; Itoa code]
                 (log "HTTP request" [Method r; Path r; UserAgent r; Itoa code]
                    (time_Now s).2).2).2)
     = upstreamCalls (trace s).
Proof.
  unfold metric, log, emit. cbn [snd calls trace].
  destruct (time_Now_frame s) as (-> & -> & _).
  by rewrite !upstreamCalls_app, !app_nil_r.
Qed.

Lemma Tracing_end_frame code s :
  calls (span "End" []
           (span "SetStatus" (spanStatus code)
              (span "AddAttributes" [Itoa code] s).2).2).2 = calls s
  /\ upstreamCalls
       (trace (span "End" []
                 (span "SetStatus" (spanStatus code)
                    (span "AddAttributes" [Itoa code] s).2).2).2)
     = upstreamCalls (trace s).
Proof.
  unfold span, emit. cbn [snd calls trace].
  by rewrite !upstreamCalls_app, !app_nil_r.
Qed.

(** The calls of the chain around the gateway handler on such a request
    from a client within its limit. *)
Lemma chain_answers_proxied env cfg r s token u req r' resp :
  Main.RateLimitEnabled cfg = true ->
  Method r <> MethodOptions ->
  Auth.isPublicPath (Path r) = false ->
  Auth.ExtractTokenFromHeader (Get (Header_ r) "Authorization") = Ok token ->
  ValidateToken env token = Ok u ->
  (charged (Main.RateLimitCfg cfg) r (time_Now s).2).1 = true ->
  routed (Path r) = true ->
  0 <= Retries (endpointOf (Main.Services cfg) (Path r)) ->
  Proxy.createProxyRequest env r
    (BaseURL (endpointOf (Main.Services cfg) (Path r)) +:+ Path r) = (Ok req, r') ->
  client_Do env (calls s) req = Ok resp ->
  Proxy.shouldRetry (StatusCode resp) = false ->
  rd_err (rBody resp) = None ->
  exists s'',
    calls s'' = S (calls s)
    /\ upstreamCalls (trace s'') = upstreamCalls (trace s) ++ [req]
    /\ answers (Main.chain env cfg (GatewayHandler.ProxyHandler env (Main.Services cfg)))
         r s (corsCalls ++ relayCalls resp) s''.
Proof.
  intros Hen Hm Hpub Htok Hval Hc Hroute HR Hcreate Hdo Hno Hread.
  unfold Main.chain. rewrite Hen.
  destruct (time_Now_frame s) as (Nc & Nt & _).
  destruct (Main.TracingEnabled cfg); cbn [Main.useIf].
  - destruct (charged_frame (Main.RateLimitCfg cfg) r (time_Now s).2
                (atSpan r (time_Now s).2) eq_refl eq_refl eq_refl) as [Hc' _].
    destruct (charged_spec (Main.RateLimitCfg cfg) r (atSpan r (time_Now s).2))
      as (_ & _ & Cc & Ct & _).
    assert (calls (atSpan r (time_Now s).2) = calls s) as Sc by (by rewrite <- Nc).
    assert (upstreamCalls (trace (atSpan r (time_Now s).2)) = upstreamCalls (trace s))
      as St.
    { unfold atSpan, span, emit. cbn [snd trace].
      by rewrite !upstreamCalls_app, Nt, !app_nil_r. }
    destruct (authenticated_answers env (Main.Services cfg) r
                (charged (Main.RateLimitCfg cfg) r (atSpan r (time_Now s).2)).2
                token u req r' resp Hpub Htok Hval Hroute HR Hcreate
                ltac:(by rewrite Cc, Sc) Hno Hread)
      as (s' & Hcalls & Htrace & Hans).
    eexists. split; [|split].
    3:{ apply Logging_answers, CORS_answers; [done|].
        apply Tracing_answers, RateLimit_answers_pass; [by rewrite Hc'|]. exact Hans. }
    + destruct (Logging_end_frame r (firstStatus (corsCalls ++ relayCalls resp))
                  (span "End" []
                     (span "SetStatus"
                        (spanStatus (firstStatus (relayCalls resp)))
                        (span "AddAttributes" [Itoa (firstStatus (relayCalls resp))]
                           s').2).2).2) as (-> & _).
      destruct (Tracing_end_frame (firstStatus (relayCalls resp)) s') as (-> & _).
      by rewrite Hcalls, Cc, Sc.
    + destruct (Logging_end_frame r (firstStatus (corsCalls ++ relayCalls resp))
                  (span "End" []
                     (span "SetStatus"
                        (spanStatus (firstStatus (relayCalls resp)))
                        (span "AddAttributes" [Itoa (firstStatus (relayCalls resp))]
                           s').2).2).2) as (_ & ->).
      destruct (Tracing_end_frame (firstStatus (relayCalls resp)) s') as (_ & ->).
      by rewrite Htrace, Ct, St.
  - destruct (charged_spec (Main.RateLimitCfg cfg) r (time_Now s).2)
      as (_ & _ & Cc & Ct & _).
    destruct (authenticated_answers env (Main.Services cfg) r
                (charged (Main.RateLimitCfg cfg) r (time_Now s).2).2
                token u req r' resp Hpub Htok Hval Hroute HR Hcreate
                ltac:(by rewrite Cc, Nc) Hno Hread)
      as (s' & Hcalls & Htrace & Hans).
    eexists. split; [|split].
    3:{ apply Logging_answers, CORS_answers; [done|].
        apply RateLimit_answers_pass; [done|]. exact Hans. }
    + destruct (Logging_end_frame r (firstStatus (corsCalls ++ relayCalls resp)) s')
        as (-> & _).
      by rewrite Hcalls, Cc, Nc.
    + destruct (Logging_end_frame r (firstStatus (corsCalls ++ relayCalls resp)) s')
        as (_ & ->).
      by rewrite Htrace, Ct, Nt.
Qed.

(** What the client receives of the calls of the CORS stage followed by
    those of [copyResponse]. *)
Lemma relayed_after_cors resp (w : response) :
  sent w = None ->
  status (perform (corsCalls ++ relayCalls resp) w) = Some (StatusCode resp)
  /\ sentBody (perform (corsCalls ++ relayCalls resp) w)
     = sentBody w +:+ rd_data (rBody resp)
  /\ sentHeader (perform (corsCalls ++ relayCalls resp) w)
     = Proxy.copyHeaders (map_to_list (rHeader resp))
         (Set_ "Access-Control-Max-Age" "3600"
            (Set_ "Access-Control-Allow-Credentials" "true"
               (Set_ "Access-Control-Allow-Headers"
                  "Accept, Content-Type, Content-Length, Accept-Encoding, Authorization, X-CSRF-Token, X-Requested-With"
                  (Set_ "Access-Control-Allow-Methods"
                     "GET, POST, PUT, DELETE, OPTIONS, PATCH"
                     (Set_ "Access-Control-Allow-Origin" "*" (handlerHeader w)))))).
Proof.
  intros Hw. rewrite perform_app.
  set (w1 := perform corsCalls w).
  assert (sent w1 = None /\ sentBody w1 = sentBody w
          /\ handlerHeader w1
             = Set_ "Access-Control-Max-Age" "3600"
                 (Set_ "Access-Control-Allow-Credentials" "true"
                    (Set_ "Access-Control-Allow-Headers"
                       "Accept, Content-Type, Content-Length, Accept-Encoding, Authorization, X-CSRF-Token, X-Requested-With"
                       (Set_ "Access-Control-Allow-Methods"
                          "GET, POST, PUT, DELETE, OPTIONS, PATCH"
                          (Set_ "Access-Control-Allow-Origin" "*" (handlerHeader w))))))
    as (Hs1 & Hb1 & Hh1).
  { unfold w1, corsCalls. cbn [perform foldl call]. by writer_simpl. }
  clearbody w1.
  pose proof (copyResponse_perform w1 resp) as Hp.
  destruct (copyResponse_sent w1 resp Hs1) as (_ & Hs & Hb).
  rewrite Hp in Hs, Hb. cbn [snd] in Hs, Hb.
  unfold status, sentHeader. rewrite Hs, Hb, Hb1, Hh1. done.
Qed.

(** X24.  An authenticated request goes through the whole chain to the
    upstream and back.  In the chain [main] installs around the gateway
    handler, with rate limiting on, take a request to a routed and
    protected path that is not a preflight, carries a bearer token the
    validator accepts, and comes from a client whose bucket holds a token;
    let the first upstream response be one that is not retried and whose
    body reads to its end.  Then the client receives the upstream's status
    and body; the upstream has been called once, with the request built
    from the inbound request as it arrived, the validated identity adding
    nothing to it; and under Access-Control-Allow-Origin the client
    receives the "*" of the CORS stage followed by whatever the upstream
    sent under that name, since [copyResponse] adds to the headers already
    set.  (The request for the upstream can be built, the service allows a
    number of retries that is not negative, the upstream's header keys are
    canonical as net/http delivers them, the logging stage reads the clock
    once before the limiter looks at the bucket, and the writer has sent
    nothing yet.) *)
Theorem X24_authenticated_request_proxied
    env cfg r (w : response) s token u req r' resp :
  Main.RateLimitEnabled cfg = true ->
  Method r <> "OPTIONS" ->
  Auth.isPublicPath (Path r) = false ->
  bearerForm (Get (Header_ r) "Authorization") token ->
  ValidateToken env token = Ok u ->
  Second <= Rate.advance (clientBucket (Main.RateLimitCfg cfg) r (time_Now s).2)
                         (allowTime (time_Now s).2) ->
  routed (Path r) = true ->
  0 <= Retries (endpointOf (Main.Services cfg) (Path r)) ->
  Proxy.createProxyRequest env r
    (BaseURL (endpointOf (Main.Services cfg) (Path r)) +:+ Path r) = (Ok req, r') ->
  client_Do env (calls s) req = Ok resp ->
  Proxy.shouldRetry (StatusCode resp) = false ->
  rd_err (rBody resp) = None ->
  canonicalKeys (rHeader resp) ->
  sent w = None ->
  status (Main.chain env cfg (GatewayHandler.ProxyHandler env (Main.Services cfg))
            response _ r w s).1 = Some (StatusCode resp)
  /\ sentBody (Main.chain env cfg (GatewayHandler.ProxyHandler env (Main.Services cfg))
                 response _ r w s).1 = sentBody w +:+ rd_data (rBody resp)
  /\ values (sentHeader (Main.chain env cfg
                           (GatewayHandler.ProxyHandler env (Main.Services cfg))
                           response _ r w s).1) "Access-Control-Allow-Origin"
     = "*" :: values (rHeader resp) "Access-Control-Allow-Origin"
  /\ upstreamCalls (trace (Main.chain env cfg
                             (GatewayHandler.ProxyHandler env (Main.Services cfg))
                             response _ r w s).2)
     = upstreamCalls (trace s) ++ [req]
  /\ calls (Main.chain env cfg (GatewayHandler.ProxyHandler env (Main.Services cfg))
              response _ r w s).2 = S (calls s).
Proof.
  intros Hen Hm Hpub Hform Hval Htok Hroute HR Hcreate Hdo Hno Hread Hcan Hw.
  apply ExtractTokenFromHeader_iff in Hform.
  destruct (charged_spec (Main.RateLimitCfg cfg) r (time_Now s).2) as (Hc & _).
  assert ((Second <=? Rate.advance (clientBucket (Main.RateLimitCfg cfg) r (time_Now s).2)
                                   (allowTime (time_Now s).2)) = true) as Hyes by lia.
  rewrite Hyes in Hc.
  destruct (chain_answers_proxied env cfg r s token u req r' resp
              Hen Hm Hpub Hform Hval Hc Hroute HR Hcreate Hdo Hno Hread)
    as (s'' & Hcalls & Htrace & Hans).
  rewrite (Hans response _ wroteHeader response_lawful w). cbn [fst snd].
  destruct (relayed_after_cors resp w Hw) as (Hst & Hbody & Hhdr).
  split; [exact Hst|]. split; [exact Hbody|]. split; [|by split].
  rewrite Hhdr, values_copyHeaders, (forwarded_map_to_list _ _ Hcan) by reflexivity.
  unfold values at 1. by header_lookup.
Qed.

Lemma X24_authenticated_request_proxied_witness :
  status (Main.chain (Sample.answering Sample.permissive) Sample.gateway
            (GatewayHandler.ProxyHandler (Sample.answering Sample.permissive)
               (Main.Services Sample.gateway))
            response _ Sample.bearer newResponse Sample.world).1 = Some 200
  /\ values (sentHeader (Main.chain (Sample.answering Sample.permissive) Sample.gateway
                           (GatewayHandler.ProxyHandler (Sample.answering Sample.permissive)
                              (Main.Services Sample.gateway))
                           response _ Sample.bearer newResponse Sample.world).1)
            "Access-Control-Allow-Origin"
     = ["*"; "https://app.example.org"]
  /\ calls (Main.chain (Sample.answering Sample.permissive) Sample.gateway
              (GatewayHandler.ProxyHandler (Sample.answering Sample.permissive)
                 (Main.Services Sample.gateway))
              response _ Sample.bearer newResponse Sample.world).2 = 1%nat.
Proof.
  edestruct (X24_authenticated_request_proxied (Sample.answering Sample.permissive)
               Sample.gateway Sample.bearer newResponse Sample.world "good" Sample.alice)
    as (H1 & _ & H3 & _ & H5).
  - reflexivity.
  - discriminate.
  - reflexivity.
  - apply ExtractTokenFromHeader_iff. reflexivity.
  - reflexivity.
  - vm_compute. discriminate.
  - reflexivity.
  - simpl. lia.
  - vm_compute. reflexivity.
  - reflexivity.
  - reflexivity.
  - reflexivity.
  - apply map_Forall_insert_2; [reflexivity | apply map_Forall_empty].
  - reflexivity.
  - split; [exact H1|]. split; [exact H3 | exact H5].
Defined.

(** ** Loading the configuration *)

Lemma getEnvOrDefault_nonempty os key defaultValue :
  defaultValue <> EmptyString ->
  ConfigLoad.getEnvOrDefault os key defaultValue <> EmptyString.
Proof. unfold ConfigLoad.getEnvOrDefault. by case_bool_decide. Qed.

(** X25.  [Load] fails only for a secret that is set and too short.  Every
    setting has a default that is not empty and an empty variable counts
    as unset, so of the checks of [validate] only the length of the
    secret can fail: [Load] returns an error exactly when JWT_SECRET is
    set to fewer than 32 bytes, and the error then says so.  What it
    returns otherwise holds the numbers of the environment as they
    parse, without a check of their range: a number of retries, a rate or
    a burst that is negative is taken as it is; and the allowed origins
    are ["*"] whatever ALLOWED_ORIGINS holds. *)
Theorem X25_load_fails_only_for_short_secret os :
  ((0 < String.length (ConfigLoad.Getenv os "JWT_SECRET") < 32)%nat ->
   ConfigLoad.Load os
   = Err (Errorf_w "invalid configuration: "
            (Some (errorString "JWT_SECRET must be at least 32 characters long"))))
  /\ (~ (0 < String.length (ConfigLoad.Getenv os "JWT_SECRET") < 32)%nat ->
      exists cfg,
        ConfigLoad.Load os = Ok cfg
        /\ (forall n,
              ConfigLoad.Getenv os "URL_SERVICE_RETRIES" <> EmptyString ->
              ConfigLoad.Atoi os (ConfigLoad.Getenv os "URL_SERVICE_RETRIES") = Ok n ->
              Retries (URLService (ConfigLoad.Services cfg)) = n)
        /\ (forall n,
              ConfigLoad.Getenv os "RATE_LIMIT_RPS" <> EmptyString ->
              ConfigLoad.Atoi os (ConfigLoad.Getenv os "RATE_LIMIT_RPS") = Ok n ->
              ConfigLoad.RequestsPerSecond (ConfigLoad.RateLimit cfg) = n)
        /\ (forall n,
              ConfigLoad.Getenv os "RATE_LIMIT_BURST" <> EmptyString ->
              ConfigLoad.Atoi os (ConfigLoad.Getenv os "RATE_LIMIT_BURST") = Ok n ->
              ConfigLoad.BurstSize (ConfigLoad.RateLimit cfg) = n)
        /\ ConfigLoad.AllowedOrigins (ConfigLoad.Security cfg) = ["*"]).
Proof.
  unfold ConfigLoad.Load, ConfigLoad.validate.
  cbn [ConfigLoad.Security ConfigLoad.Server ConfigLoad.Services ConfigLoad.JWTSecret
       ConfigLoad.Port AuthService URLService NotificationService BaseURL].
  set (secret := ConfigLoad.getEnvOrDefault os "JWT_SECRET" _).
  assert (secret <> EmptyString) as Hne by (by apply getEnvOrDefault_nonempty).
  rewrite (bool_decide_eq_false_2 _ Hne).
  assert (forall key d, d <> EmptyString ->
            bool_decide (ConfigLoad.getEnvOrDefault os key d = EmptyString) = false)
    as Hdef.
  { intros key d Hd. apply bool_decide_eq_false_2. by apply getEnvOrDefault_nonempty. }
  rewrite !Hdef by done.
  assert (String.length secret
          = if bool_decide (ConfigLoad.Getenv os "JWT_SECRET" <> EmptyString)
            then String.length (ConfigLoad.Getenv os "JWT_SECRET") else 59%nat) as Hlen.
  { unfold secret, ConfigLoad.getEnvOrDefault. by case_bool_decide. }
  assert (ConfigLoad.Getenv os "JWT_SECRET" <> EmptyString
          <-> (0 < String.length (ConfigLoad.Getenv os "JWT_SECRET"))%nat) as Hpos.
  { destruct (ConfigLoad.Getenv os "JWT_SECRET"); cbn; split; try done; lia. }
  split.
  - intros [H0 H32]. rewrite Hlen, bool_decide_eq_true_2 by by apply Hpos.
    by assert ((String.length (ConfigLoad.Getenv os "JWT_SECRET") <? 32)%nat = true)
      as -> by (apply Nat.ltb_lt; lia).
  - intros Hok.
    assert ((String.length secret <? 32)%nat = false) as ->.
    { rewrite Hlen. apply Nat.ltb_ge. case_bool_decide as Hset; [|lia].
      apply Hpos in Hset. lia. }
    eexists. split; [reflexivity|].
    cbn [ConfigLoad.Services ConfigLoad.RateLimit ConfigLoad.Security URLService Retries
         ConfigLoad.RequestsPerSecond ConfigLoad.BurstSize ConfigLoad.AllowedOrigins].
    unfold ConfigLoad.getIntEnvOrDefault, ConfigLoad.getSliceEnvOrDefault.
    split; [|split; [|split; [|done]]];
      intros n Hset Hparse; by rewrite bool_decide_eq_true_2, Hparse.
Qed.

Lemma X25_load_fails_only_for_short_secret_witness :
  ConfigLoad.Load
    (ConfigLoad.mkOs (fun key => if bool_decide (key = "JWT_SECRET") then "short"
                                 else EmptyString)
                     (fun _ => Err (errorString "invalid syntax"))
                     (fun _ => Err (errorString "invalid syntax"))
                     (fun _ => Err (errorString "invalid duration")))
  = Err (Errorf_w "invalid configuration: "
           (Some (errorString "JWT_SECRET must be at least 32 characters long")))
  /\ exists cfg,
       ConfigLoad.Load
         (ConfigLoad.mkOs (fun key => if bool_decide (key = "URL_SERVICE_RETRIES")
                                      then "-1" else EmptyString)
                          (fun _ => Ok (-1))
                          (fun _ => Err (errorString "invalid syntax"))
                          (fun _ => Err (errorString "invalid duration")))
       = Ok cfg
       /\ Retries (URLService (ConfigLoad.Services cfg)) = -1.
Proof.
  split.
  - apply (proj1 (X25_load_fails_only_for_short_secret _)). simpl. lia.
  - destruct (proj2 (X25_load_fails_only_for_short_secret
                       (ConfigLoad.mkOs
                          (fun key => if bool_decide (key = "URL_SERVICE_RETRIES")
                                      then "-1" else EmptyString)
                          (fun _ => Ok (-1))
                          (fun _ => Err (errorString "invalid syntax"))
                          (fun _ => Err (errorString "invalid duration")))))
      as (cfg & Hload & Hretries & _).
    + simpl. lia.
    + exists cfg. split; [exact Hload|]. apply Hretries; [discriminate | reflexivity].
Defined.
